(** * The risk calculator of vl-model-website

    A shallow embedding of [public/script.js]: the age calculation, the risk
    score, its classification and the form validation, with the JavaScript
    built-ins they rest on (Number arithmetic in IEEE 754 binary64, the
    conversions of strings to numbers, [Math.max], [Math.min], [Math.round]
    and [Date]). *)

From Stdlib Require Import ZArith QArith Qpower Qminmax Qabs Qround Lqa.
From Stdlib Require Import List String Ascii Bool Lia SpecFloat.
Import ListNotations.
Local Open Scope Z_scope.

(** * Part I: the program *)

(** ** IEEE 754 binary64 *)

Definition prec : Z := 53.
Definition emax : Z := 1024.
Definition number : Type := spec_float.

Definition is_nan (x : number) : bool :=
  match x with S754_nan => true | _ => false end.

Definition is_finite (x : number) : bool :=
  match x with S754_zero _ | S754_finite _ _ _ => true | _ => false end.

Definition is_zero (x : number) : bool :=
  match x with S754_zero _ => true | _ => false end.

(** Positive zero, a positive finite number or positive infinity. *)
Definition nonneg (x : number) : bool :=
  match x with
  | S754_zero false | S754_finite false _ _ | S754_infinity false => true
  | _ => false
  end.

Definition wf (x : number) : Prop := valid_binary prec emax x = true.

(** ** Number values *)

(** The Number value of an integer. *)
Definition Z2F (n : Z) : number := binary_normalize prec emax n 0 false.

(** The Number value of the rational [p / q], [p >= 0]: the quotient is
    computed to [2^-1075], with one more bit that records an inexact
    division, and rounded to nearest even. *)
Definition ratio_to_number (neg : bool) (p : Z) (q : positive) : number :=
  match p with
  | Z.pos _ =>
      let '(d, r) := Z.div_eucl (p * 2 ^ 1075) (Z.pos q) in
      binary_normalize prec emax
        (cond_Zopp neg (2 * d + (if r =? 0 then 0 else 1))) (-1076) false
  | _ => S754_zero neg
  end.

(** The Number value of the decimal [mant * 10^exp10]. *)
Definition decimal_value (neg : bool) (mant exp10 : Z) : number :=
  if 0 <=? exp10 then ratio_to_number neg (mant * 10 ^ exp10) 1
  else ratio_to_number neg mant (Z.to_pos (10 ^ (- exp10))).

Definition NaN : number := S754_nan.

(** *** Math.max, Math.min and Math.round *)

Definition Math_max (a b : number) : number :=
  if is_nan a || is_nan b then NaN
  else match a, b with
       | S754_zero true, S754_zero false => b
       | _, _ => if SFltb a b then b else a
       end.

Definition Math_min (a b : number) : number :=
  if is_nan a || is_nan b then NaN
  else match a, b with
       | S754_zero false, S754_zero true => b
       | _, _ => if SFltb b a then b else a
       end.

(** [Math.round x] is [floor (x + 1/2)], computed exactly; a result of zero
    keeps the sign of [x]. *)
Definition Math_round (x : number) : number :=
  match x with
  | S754_finite s m e =>
      if 0 <=? e then x
      else
        let n := (2 * cond_Zopp s (Z.pos m) + 2 ^ (- e)) / 2 ^ (- e + 1) in
        if n =? 0 then S754_zero s else Z2F n
  | _ => x
  end.

(** ** Strings *)

Local Open Scope string_scope.
Local Open Scope Z_scope.

Definition code (c : ascii) : Z := Z.of_N (N_of_ascii c).

(** White space and line terminators among the code units below 256. *)
Definition is_ws (c : ascii) : bool :=
  ((9 <=? code c) && (code c <=? 13)) || (code c =? 32) || (code c =? 160).

(** The value of [c] as a digit in base [radix], if it is one. *)
Definition digit_of (radix : Z) (c : ascii) : option Z :=
  let n := code c in
  let v := if (48 <=? n) && (n <=? 57) then n - 48
           else if (97 <=? n) && (n <=? 122) then n - 87
           else if (65 <=? n) && (n <=? 90) then n - 55
           else radix in
  if v <? radix then Some v else None.

Fixpoint skip_ws (s : string) : string :=
  match s with
  | String c r => if is_ws c then skip_ws r else s
  | EmptyString => s
  end.

Fixpoint all_ws (s : string) : bool :=
  match s with
  | String c r => is_ws c && all_ws r
  | EmptyString => true
  end.

(** The longest prefix of digits of [s] in base [radix]: its value on top of
    [acc], the number of digits read on top of [n], and the rest. *)
Fixpoint scan_digits (radix : Z) (s : string) (acc n : Z) : Z * Z * string :=
  match s with
  | String c r =>
      match digit_of radix c with
      | Some v => scan_digits radix r (radix * acc + v) (n + 1)
      | None => (acc, n, s)
      end
  | EmptyString => (acc, n, s)
  end.

Fixpoint strip_prefix (p s : string) : option string :=
  match p, s with
  | EmptyString, _ => Some s
  | String a p', String b s' => if Ascii.eqb a b then strip_prefix p' s' else None
  | _, _ => None
  end.

Definition scan_sign (s : string) : bool * string :=
  match s with
  | String "+" r => (false, r)
  | String "-" r => (true, r)
  | _ => (false, s)
  end.

(** An optional exponent part: [e] or [E], an optional sign, digits. *)
Definition scan_exponent (s : string) : Z * string :=
  match s with
  | String c r =>
      if Ascii.eqb c "e" || Ascii.eqb c "E" then
        let '(neg, r1) := scan_sign r in
        let '(v, n, r2) := scan_digits 10 r1 0 0 in
        if n =? 0 then (0, s) else (cond_Zopp neg v, r2)
      else (0, s)
  | EmptyString => (0, s)
  end.

(** The longest prefix of [s] that is an unsigned decimal literal: whether it
    is [Infinity], its digits as an integer, its power of ten, and the rest. *)
Definition scan_unsigned (s : string) : option (bool * Z * Z * string) :=
  match strip_prefix "Infinity" s with
  | Some r => Some (true, 0, 0, r)
  | None =>
      let '(iv, ni, r1) := scan_digits 10 s 0 0 in
      match r1 with
      | String "." r2 =>
          let '(fv, nf, r3) := scan_digits 10 r2 iv 0 in
          if (ni =? 0) && (nf =? 0) then None
          else let '(ev, r4) := scan_exponent r3 in Some (false, fv, ev - nf, r4)
      | _ =>
          if ni =? 0 then None
          else let '(ev, r4) := scan_exponent r1 in Some (false, iv, ev, r4)
      end
  end.

(** A binary, octal or hexadecimal integer literal: [0b], [0o], [0x]. *)
Definition scan_nondecimal (s : string) : option (Z * string) :=
  match s with
  | String "0" (String c r) =>
      let radix := if Ascii.eqb c "x" || Ascii.eqb c "X" then 16
                   else if Ascii.eqb c "o" || Ascii.eqb c "O" then 8
                   else if Ascii.eqb c "b" || Ascii.eqb c "B" then 2
                   else 0 in
      let '(v, n, r1) := scan_digits radix r 0 0 in
      if n =? 0 then None else Some (v, r1)
  | _ => None
  end.

(** ToNumber applied to a string. *)
Definition StringToNumber (s : string) : number :=
  let t := skip_ws s in
  match t with
  | EmptyString => S754_zero false
  | _ =>
      match scan_nondecimal t with
      | Some (v, r) => if all_ws r then Z2F v else NaN
      | None =>
          let '(neg, t1) := scan_sign t in
          match scan_unsigned t1 with
          | Some (inf, m, e, r) =>
              if all_ws r then
                if inf then S754_infinity neg else decimal_value neg m e
              else NaN
          | None => NaN
          end
      end
  end.

Definition parseFloat (s : string) : number :=
  let '(neg, t1) := scan_sign (skip_ws s) in
  match scan_unsigned t1 with
  | Some (inf, m, e, _) => if inf then S754_infinity neg else decimal_value neg m e
  | None => NaN
  end.

(** [parseInt] with no radix argument. *)
Definition parseInt (s : string) : number :=
  let '(neg, t1) := scan_sign (skip_ws s) in
  let '(radix, t2) :=
    match t1 with
    | String "0" (String c r) =>
        if Ascii.eqb c "x" || Ascii.eqb c "X" then (16, r) else (10, t1)
    | _ => (10, t1)
    end in
  let '(v, n, _) := scan_digits radix t2 0 0 in
  if n =? 0 then NaN
  else if v =? 0 then S754_zero neg
  else binary_normalize prec emax (cond_Zopp neg v) 0 false.


(** ** Dates *)

Definition msPerDay : Z := 86400000.

Definition Day (t : Z) : Z := t / msPerDay.

Definition DayFromYear (y : Z) : Z :=
  365 * (y - 1970) + (y - 1969) / 4 - (y - 1901) / 100 + (y - 1601) / 400.

Definition leap (y : Z) : Z :=
  if (y mod 4 =? 0) && (negb (y mod 100 =? 0) || (y mod 400 =? 0)) then 1 else 0.

(** The year of day number [d]: the largest [y] with [DayFromYear y <= d],
    found from an estimate that is off by one at most. *)
Definition YearFromDay (d : Z) : Z :=
  let y := 1970 + (400 * d) / 146097 in
  if d <? DayFromYear y then y - 1
  else if DayFromYear (y + 1) <=? d then y + 1
  else y.

Definition YearFromTime (t : Z) : Z := YearFromDay (Day t).

Definition DayWithinYear (t : Z) : Z := Day t - DayFromYear (YearFromTime t).

Definition InLeapYear (t : Z) : Z := leap (YearFromTime t).

(** The day within the year on which month [m] (0 to 11) starts. *)
Definition month_start (l m : Z) : Z :=
  match m with
  | 0 => 0 | 1 => 31 | 2 => 59 + l | 3 => 90 + l | 4 => 120 + l | 5 => 151 + l
  | 6 => 181 + l | 7 => 212 + l | 8 => 243 + l | 9 => 273 + l | 10 => 304 + l
  | _ => 334 + l
  end.

Definition MonthFromTime (t : Z) : Z :=
  let d := DayWithinYear t in
  let l := InLeapYear t in
  if d <? 31 then 0 else if d <? 59 + l then 1 else if d <? 90 + l then 2
  else if d <? 120 + l then 3 else if d <? 151 + l then 4 else if d <? 181 + l then 5
  else if d <? 212 + l then 6 else if d <? 243 + l then 7 else if d <? 273 + l then 8
  else if d <? 304 + l then 9 else if d <? 334 + l then 10 else 11.

Definition DateFromTime (t : Z) : Z :=
  DayWithinYear t - month_start (InLeapYear t) (MonthFromTime t) + 1.

Definition DaysInMonth (y m : Z) : Z :=
  match m with
  | 1 => 28 + leap y
  | 3 | 5 | 8 | 10 => 30
  | _ => 31
  end.

(** The day number of year [y], month [m] (0 to 11), day [d] of the month. *)
Definition MakeDay (y m d : Z) : Z := DayFromYear y + month_start (leap y) m + d - 1.

(** The date-only form [YYYY-MM-DD] of the date-time string format. *)
Definition parse_date_only (s : string) : option (Z * Z * Z) :=
  match s with
  | String y1 (String y2 (String y3 (String y4 (String "-"
      (String m1 (String m2 (String "-" (String d1 (String d2 EmptyString))))))))) =>
      match digit_of 10 y1, digit_of 10 y2, digit_of 10 y3, digit_of 10 y4,
            digit_of 10 m1, digit_of 10 m2, digit_of 10 d1, digit_of 10 d2 with
      | Some a, Some b, Some c, Some d, Some e, Some f, Some g, Some h =>
          let y := 1000 * a + 100 * b + 10 * c + d in
          let m := 10 * e + f in
          let dd := 10 * g + h in
          if (1 <=? m) && (m <=? 12) && (1 <=? dd) && (dd <=? DaysInMonth y (m - 1))
          then Some (y, m, dd) else None
      | _, _, _, _, _, _, _, _ => None
      end
  | _ => None
  end.

(** What the program takes from its environment: the current time, the
    offset of local time from UTC at a given time (both in milliseconds), and
    the time value that [Date.parse] gives to a string that is not a calendar
    date in the date-only form (other forms of the date-time string format
    and implementation-specific ones; [None] is an invalid date). *)
Record Env := {
  env_now : Z;
  env_tza : Z -> Z;
  env_parse_other : string -> option Z
}.

(** A [Date] object: its time value, [None] for an invalid date. *)
Definition Date : Type := option Z.

Section Program.

Variable env : Env.

Definition Date_now : Date := Some (env_now env).

(** [new Date(s)] for a string [s]: a date-only string is midnight UTC. *)
Definition Date_parse (s : string) : Date :=
  match parse_date_only s with
  | Some (y, m, d) => Some (MakeDay y (m - 1) d * msPerDay)
  | None => env_parse_other env s
  end.

Definition LocalTime (t : Z) : Z := t + env_tza env t.

Definition getFullYear (d : Date) : number :=
  match d with Some t => Z2F (YearFromTime (LocalTime t)) | None => NaN end.

Definition getMonth (d : Date) : number :=
  match d with Some t => Z2F (MonthFromTime (LocalTime t)) | None => NaN end.

Definition getDate (d : Date) : number :=
  match d with Some t => Z2F (DateFromTime (LocalTime t)) | None => NaN end.

(** ** The program *)

Definition add := SFadd prec emax.
Definition sub := SFsub prec emax.
Definition mul := SFmul prec emax.
Definition div := SFdiv prec emax.

Definition calculateAge (birthDate : string) : number :=
  let today := Date_now in
  let birth := Date_parse birthDate in
  let age := sub (getFullYear today) (getFullYear birth) in
  let monthDiff := sub (getMonth today) (getMonth birth) in
  if SFltb monthDiff (Z2F 0)
     || (SFeqb monthDiff (Z2F 0) && SFltb (getDate today) (getDate birth))
  then sub age (Z2F 1)
  else age.

(** The object built from the form: every field but [age] is a string, or
    [null] ([None]) when the form has no such entry. *)
Record Data := {
  dob : option string;
  age : option number;
  anaemia : option string;
  haemoglobin : option string;
  parasiteCount : option string
}.

(** ToNumber, ToString and ToBoolean on what the fields hold, and [===]
    against a string. *)
Definition number_of_field (v : option number) : number :=
  match v with Some n => n | None => S754_zero false end.

Definition ToNumber (v : option string) : number :=
  match v with Some s => StringToNumber s | None => S754_zero false end.

Definition ToString (v : option string) : string :=
  match v with Some s => s | None => "null" end.

Definition ToBoolean (v : option string) : bool :=
  match v with Some s => negb (String.eqb s "") | None => false end.

Definition strict_eq (v : option string) (s : string) : bool :=
  match v with Some t => String.eqb t s | None => false end.

Definition lit_0_3 : number := decimal_value false 3 (-1).
Definition lit_0_2 : number := decimal_value false 2 (-1).

(** The value of [risk] after the clamp, before the return statement. *)
Definition clamped_risk (data : Data) : number :=
  let risk := Z2F 0 in
  let risk :=
    if SFltb (number_of_field (age data)) (Z2F 5) then add risk (Z2F 20)
    else if SFltb (Z2F 65) (number_of_field (age data)) then add risk (Z2F 15)
    else add risk (mul (number_of_field (age data)) lit_0_3) in
  let risk := if strict_eq (anaemia data) "yes" then add risk (Z2F 25) else risk in
  let hbFactor :=
    Math_max (Z2F 0) (mul (sub (Z2F 150) (ToNumber (haemoglobin data))) lit_0_2) in
  let risk := add risk hbFactor in
  let risk :=
    if negb (strict_eq (parasiteCount data) "not-available")
    then add risk (mul (parseInt (ToString (parasiteCount data))) (Z2F 5))
    else risk in
  Math_min (Z2F 100) (Math_max (Z2F 0) risk).

Definition calculateRisk (data : Data) : number :=
  let risk := clamped_risk data in
  div (Math_round (mul risk (Z2F 10))) (Z2F 10).

Record Interpretation := { text : string; class : string }.

Definition getRiskInterpretation (riskValue : number) : Interpretation :=
  if SFltb riskValue (Z2F 20) then
    {| text := "Low risk - Standard monitoring recommended"; class := "low-risk" |}
  else if SFltb riskValue (Z2F 50) then
    {| text := "Moderate risk - Enhanced monitoring advised"; class := "medium-risk" |}
  else
    {| text := "High risk - Immediate clinical attention required"; class := "high-risk" |}.

(** [validateForm] runs on a store that holds the object it was given and
    the array [errors]; [push] appends to the array. *)
Record Store := { st_form : Data; st_errors : list string }.

Definition push (msg : string) (st : Store) : Store :=
  {| st_form := st_form st; st_errors := st_errors st ++ [msg] |}.

Definition validateForm_run (formData : Data) : Store :=
  let st := {| st_form := formData; st_errors := [] |} in
  let st :=
    if negb (ToBoolean (dob (st_form st))) then push "Date of birth is required" st
    else
      let age := calculateAge (ToString (dob (st_form st))) in
      let st := if SFltb age (Z2F 0)
                then push "Date of birth cannot be in the future" st else st in
      if SFltb (Z2F 120) age
      then push "Please check the date of birth - age seems unrealistic" st else st in
  let st :=
    if negb (ToBoolean (anaemia (st_form st)))
    then push "Please select anaemia status" st else st in
  let st :=
    if negb (ToBoolean (haemoglobin (st_form st)))
    then push "Haemoglobin level is required" st
    else
      let hb := parseFloat (ToString (haemoglobin (st_form st))) in
      if SFltb hb (Z2F 20) || SFltb (Z2F 180) hb
      then push "Haemoglobin must be between 20-180 g/L" st else st in
  if negb (ToBoolean (parasiteCount (st_form st)))
  then push "Please select parasite count" st else st.

Definition validateForm (formData : Data) : list string :=
  st_errors (validateForm_run formData).

End Program.

(** ** Numbers as strings *)

Definition digit_char (d : Z) : ascii := ascii_of_N (Z.to_N (48 + d)).

(** The decimal digits of [n >= 0] in front of [acc]. *)
Fixpoint digits_of (fuel : nat) (n : Z) (acc : string) : string :=
  match fuel with
  | O => acc
  | S f =>
      let acc' := String (digit_char (n mod 10)) acc in
      if n <? 10 then acc' else digits_of f (n / 10) acc'
  end.

Definition ZToString (n : Z) : string := digits_of (S (Z.to_nat (Z.log2 n))) n "".

Fixpoint zeros (n : nat) : string :=
  match n with O => "" | S k => String "0" (zeros k) end.

(** The number of decimal digits of [n >= 1]. *)
Fixpoint count_digits (fuel : nat) (n : Z) : Z :=
  match fuel with
  | O => 1
  | S f => if n <? 10 then 1 else 1 + count_digits f (n / 10)
  end.

(** For [0 < p < q], the least [j] with [q <= p * 10^j]. *)
Fixpoint leading_zeros (fuel : nat) (p q : Z) : Z :=
  match fuel with
  | O => 1
  | S f => if q <=? 10 * p then 1 else 1 + leading_zeros f (10 * p) q
  end.

(** The [n] with [10^(n-1) <= p / q < 10^n]. *)
Definition decimal_exponent (p q : Z) : Z :=
  if q <=? p then count_digits 400 (p / q) else 1 - leading_zeros 400 p q.

(** The digits [s] and the exponent [n] for [k] digits, if a decimal of
    [k] digits has the Number value [x = p / q]: the decimals of [k] digits
    next to [x] are [lo * 10^(n-k)] and [(lo + 1) * 10^(n-k)]; of two that
    have the value [x] the nearer one is taken, the even one if they are
    as near. *)
Definition candidate (x : number) (p q n k : Z) : option (Z * Z) :=
  let j := n - k in
  let '(a, b) := if 0 <=? j then (p, q * 10 ^ j) else (p * 10 ^ (- j), q) in
  let lo := a / b in
  let hi := lo + 1 in
  let r := a mod b in
  let at_hi := if hi =? 10 ^ k then (10 ^ (k - 1), n + 1) else (hi, n) in
  match SFeqb (decimal_value false lo j) x, SFeqb (decimal_value false hi j) x with
  | true, true =>
      if 2 * r <? b then Some (lo, n)
      else if b <? 2 * r then Some at_hi
      else if Z.even lo then Some (lo, n) else Some at_hi
  | true, false => Some (lo, n)
  | false, true => Some at_hi
  | false, false => None
  end.

(** The least [k] from [k] on for which there is such a decimal, with its
    digits and exponent; 17 digits always do. *)
Fixpoint shortest (fuel : nat) (x : number) (p q n k : Z) : Z * Z * Z :=
  match fuel with
  | O => (p * 10 ^ (k - n) / q, n, k)
  | S f =>
      match candidate x p q n k with
      | Some (s, n') => (s, n', k)
      | None => shortest f x p q n (k + 1)
      end
  end.

(** The string for the digits [s], [k] of them, and the exponent [n]. *)
Definition decimal_string (s n k : Z) : string :=
  let digits := ZToString s in
  if (k <=? n) && (n <=? 21) then digits ++ zeros (Z.to_nat (n - k))
  else if (0 <? n) && (n <=? 21) then
    substring 0 (Z.to_nat n) digits ++ "." ++ substring (Z.to_nat n) (Z.to_nat (k - n)) digits
  else if (-6 <? n) && (n <=? 0) then "0." ++ zeros (Z.to_nat (- n)) ++ digits
  else
    let e := n - 1 in
    let exponent := (if e <? 0 then "-" else "+") ++ ZToString (Z.abs e) in
    if k =? 1 then digits ++ "e" ++ exponent
    else substring 0 1 digits ++ "." ++ substring 1 (Z.to_nat (k - 1)) digits
         ++ "e" ++ exponent.

(** Number::toString with radix 10. *)
Definition NumberToString (x : number) : string :=
  match x with
  | S754_nan => "NaN"
  | S754_zero _ => "0"
  | S754_infinity s => if s then "-Infinity" else "Infinity"
  | S754_finite s m e =>
      let '(p, q) := if 0 <=? e then (Z.pos m * 2 ^ e, 1) else (Z.pos m, 2 ^ (- e)) in
      let '(d, n, k) :=
        shortest 17 (S754_finite false m e) p q (decimal_exponent p q) 1 in
      (if s then "-" else "") ++ decimal_string d n k
  end.

(** ** Strings and arrays *)

(** The line feed, [\n] in the source. *)
Definition LF : string := String "010" "".

(** [Array.prototype.join] on an array of strings. *)
Fixpoint join (sep : string) (l : list string) : string :=
  match l with
  | [] => ""
  | [x] => x
  | x :: r => x ++ sep ++ join sep r
  end.

(** [String.prototype.split] with a separator of one character. *)
Fixpoint split (sep : ascii) (s : string) : list string :=
  match s with
  | EmptyString => [""]
  | String c r =>
      if Ascii.eqb c sep then "" :: split sep r
      else match split sep r with
           | x :: l => String c x :: l
           | [] => [String c ""]
           end
  end.

(** An array element or an attribute value that may be [undefined]. *)
Definition ToString_or_undefined (v : option string) : string :=
  match v with Some s => s | None => "undefined" end.

(** ** Date.prototype.toISOString *)

Definition HourFromTime (t : Z) : Z := (t / 3600000) mod 24.
Definition MinFromTime (t : Z) : Z := (t / 60000) mod 60.
Definition SecFromTime (t : Z) : Z := (t / 1000) mod 60.
Definition msFromTime (t : Z) : Z := t mod 1000.

(** The digits of [n >= 0], with zeros in front up to [width] characters. *)
Definition pad (width : nat) (n : Z) : string :=
  let d := ZToString n in
  zeros (width - String.length d) ++ d.

(** The year: four digits from 0 to 9999, a sign and six digits otherwise. *)
Definition year_string (y : Z) : string :=
  if (0 <=? y) && (y <=? 9999) then pad 4 y
  else (if 0 <=? y then "+" else "-") ++ pad 6 (Z.abs y).

(** [None] is the RangeError on an invalid date. *)
Definition toISOString (d : Date) : option string :=
  match d with
  | Some t =>
      Some (year_string (YearFromTime t) ++ "-" ++ pad 2 (MonthFromTime t + 1) ++ "-"
            ++ pad 2 (DateFromTime t) ++ "T" ++ pad 2 (HourFromTime t) ++ ":"
            ++ pad 2 (MinFromTime t) ++ ":" ++ pad 2 (SecFromTime t) ++ "."
            ++ pad 3 (msFromTime t) ++ "Z")
  | None => None
  end.

(** ** The page *)

(** What the script does besides changing the elements it holds. *)
Inductive Effect :=
| Alert (message : string)
| ScrollIntoView (behavior block : string)
| ConsoleLog (message : string)
| ConsoleError (message : string)
| PreventDefault.

(** The properties of the elements that the script reads or writes, and the
    effects so far, the oldest first. *)
Record Page := {
  dobInput_max : option string;
  calculatedAge_textContent : string;
  calculatedAge_display : string;
  submitBtn_classList : list string;
  submitBtn_disabled : bool;
  riskPercentage_textContent : string;
  riskPercentage_className : string;
  riskInterpretation_textContent : string;
  resultSection_classList : list string;
  effects : list Effect
}.

Definition set_dobInput_max (v : option string) (p : Page) : Page :=
  {| dobInput_max := v;
     calculatedAge_textContent := calculatedAge_textContent p;
     calculatedAge_display := calculatedAge_display p;
     submitBtn_classList := submitBtn_classList p;
     submitBtn_disabled := submitBtn_disabled p;
     riskPercentage_textContent := riskPercentage_textContent p;
     riskPercentage_className := riskPercentage_className p;
     riskInterpretation_textContent := riskInterpretation_textContent p;
     resultSection_classList := resultSection_classList p;
     effects := effects p |}.

Definition set_calculatedAge_textContent (v : string) (p : Page) : Page :=
  {| dobInput_max := dobInput_max p;
     calculatedAge_textContent := v;
     calculatedAge_display := calculatedAge_display p;
     submitBtn_classList := submitBtn_classList p;
     submitBtn_disabled := submitBtn_disabled p;
     riskPercentage_textContent := riskPercentage_textContent p;
     riskPercentage_className := riskPercentage_className p;
     riskInterpretation_textContent := riskInterpretation_textContent p;
     resultSection_classList := resultSection_classList p;
     effects := effects p |}.

Definition set_calculatedAge_display (v : string) (p : Page) : Page :=
  {| dobInput_max := dobInput_max p;
     calculatedAge_textContent := calculatedAge_textContent p;
     calculatedAge_display := v;
     submitBtn_classList := submitBtn_classList p;
     submitBtn_disabled := submitBtn_disabled p;
     riskPercentage_textContent := riskPercentage_textContent p;
     riskPercentage_className := riskPercentage_className p;
     riskInterpretation_textContent := riskInterpretation_textContent p;
     resultSection_classList := resultSection_classList p;
     effects := effects p |}.

Definition set_submitBtn_classList (v : list string) (p : Page) : Page :=
  {| dobInput_max := dobInput_max p;
     calculatedAge_textContent := calculatedAge_textContent p;
     calculatedAge_display := calculatedAge_display p;
     submitBtn_classList := v;
     submitBtn_disabled := submitBtn_disabled p;
     riskPercentage_textContent := riskPercentage_textContent p;
     riskPercentage_className := riskPercentage_className p;
     riskInterpretation_textContent := riskInterpretation_textContent p;
     resultSection_classList := resultSection_classList p;
     effects := effects p |}.

Definition set_submitBtn_disabled (v : bool) (p : Page) : Page :=
  {| dobInput_max := dobInput_max p;
     calculatedAge_textContent := calculatedAge_textContent p;
     calculatedAge_display := calculatedAge_display p;
     submitBtn_classList := submitBtn_classList p;
     submitBtn_disabled := v;
     riskPercentage_textContent := riskPercentage_textContent p;
     riskPercentage_className := riskPercentage_className p;
     riskInterpretation_textContent := riskInterpretation_textContent p;
     resultSection_classList := resultSection_classList p;
     effects := effects p |}.

Definition set_riskPercentage_textContent (v : string) (p : Page) : Page :=
  {| dobInput_max := dobInput_max p;
     calculatedAge_textContent := calculatedAge_textContent p;
     calculatedAge_display := calculatedAge_display p;
     submitBtn_classList := submitBtn_classList p;
     submitBtn_disabled := submitBtn_disabled p;
     riskPercentage_textContent := v;
     riskPercentage_className := riskPercentage_className p;
     riskInterpretation_textContent := riskInterpretation_textContent p;
     resultSection_classList := resultSection_classList p;
     effects := effects p |}.

Definition set_riskPercentage_className (v : string) (p : Page) : Page :=
  {| dobInput_max := dobInput_max p;
     calculatedAge_textContent := calculatedAge_textContent p;
     calculatedAge_display := calculatedAge_display p;
     submitBtn_classList := submitBtn_classList p;
     submitBtn_disabled := submitBtn_disabled p;
     riskPercentage_textContent := riskPercentage_textContent p;
     riskPercentage_className := v;
     riskInterpretation_textContent := riskInterpretation_textContent p;
     resultSection_classList := resultSection_classList p;
     effects := effects p |}.

Definition set_riskInterpretation_textContent (v : string) (p : Page) : Page :=
  {| dobInput_max := dobInput_max p;
     calculatedAge_textContent := calculatedAge_textContent p;
     calculatedAge_display := calculatedAge_display p;
     submitBtn_classList := submitBtn_classList p;
     submitBtn_disabled := submitBtn_disabled p;
     riskPercentage_textContent := riskPercentage_textContent p;
     riskPercentage_className := riskPercentage_className p;
     riskInterpretation_textContent := v;
     resultSection_classList := resultSection_classList p;
     effects := effects p |}.

Definition set_resultSection_classList (v : list string) (p : Page) : Page :=
  {| dobInput_max := dobInput_max p;
     calculatedAge_textContent := calculatedAge_textContent p;
     calculatedAge_display := calculatedAge_display p;
     submitBtn_classList := submitBtn_classList p;
     submitBtn_disabled := submitBtn_disabled p;
     riskPercentage_textContent := riskPercentage_textContent p;
     riskPercentage_className := riskPercentage_className p;
     riskInterpretation_textContent := riskInterpretation_textContent p;
     resultSection_classList := v;
     effects := effects p |}.

Definition perform (e : Effect) (p : Page) : Page :=
  {| dobInput_max := dobInput_max p;
     calculatedAge_textContent := calculatedAge_textContent p;
     calculatedAge_display := calculatedAge_display p;
     submitBtn_classList := submitBtn_classList p;
     submitBtn_disabled := submitBtn_disabled p;
     riskPercentage_textContent := riskPercentage_textContent p;
     riskPercentage_className := riskPercentage_className p;
     riskInterpretation_textContent := riskInterpretation_textContent p;
     resultSection_classList := resultSection_classList p;
     effects := effects p ++ [e] |}.

(** [classList.add] and [classList.remove] with one token: the list is an
    ordered set. *)
Definition classList_add (token : string) (l : list string) : list string :=
  if existsb (String.eqb token) l then l else l ++ [token].

Definition classList_remove (token : string) (l : list string) : list string :=
  filter (fun c => negb (String.eqb c token)) l.

(** ** The rest of the program *)

Definition formatAge (age : number) : string :=
  if SFeqb age (Z2F 1) then "1 year old"
  else NumberToString age ++ " years old".

Definition showLoadingState (p : Page) : Page :=
  let p := set_submitBtn_classList (classList_add "loading" (submitBtn_classList p)) p in
  set_submitBtn_disabled true p.

Definition hideLoadingState (p : Page) : Page :=
  let p := set_submitBtn_classList (classList_remove "loading" (submitBtn_classList p)) p in
  set_submitBtn_disabled false p.

Definition displayResult (riskValue : number) (p : Page) : Page :=
  let interpretation := getRiskInterpretation riskValue in
  let p := set_riskPercentage_textContent (NumberToString riskValue ++ "%") p in
  let p := set_riskPercentage_className ("risk-percentage " ++ class interpretation) p in
  let p := set_riskInterpretation_textContent (text interpretation) p in
  let p := set_resultSection_classList (classList_add "active" (resultSection_classList p)) p in
  perform (ScrollIntoView "smooth" "start") p.

Definition showValidationErrors (errors : list string) (p : Page) : Page :=
  perform (Alert ("Please correct the following errors:" ++ LF ++ LF ++ join LF errors)) p.

(** The listener for [change] on the date input, whose value is [value]. *)
Definition on_dob_change (env : Env) (value : string) (p : Page) : Page :=
  if negb (String.eqb value "") then
    let age := calculateAge env value in
    let p := set_calculatedAge_textContent ("(" ++ formatAge age ++ ")") p in
    set_calculatedAge_display "block" p
  else set_calculatedAge_display "none" p.

(** The listener for [input] on the date input. *)
Definition on_dob_input (env : Env) (value : string) (p : Page) : Page :=
  if negb (String.eqb value "") then
    let age := calculateAge env value in
    if SFleb (Z2F 0) age && SFleb age (Z2F 120) then
      let p := set_calculatedAge_textContent ("(" ++ formatAge age ++ ")") p in
      set_calculatedAge_display "block" p
    else p
  else p.

(** The entries of the form, in order; [FormData.get] gives the first value
    under a name, [null] if there is none. *)
Definition FormData : Type := list (string * string).

Fixpoint FormData_get (f : FormData) (name : string) : option string :=
  match f with
  | [] => None
  | (k, v) :: r => if String.eqb k name then Some v else FormData_get r name
  end.

(** The object [data] of the listener for [submit]; [env] has the clock
    as it is read for the age. *)
Definition form_data (env : Env) (f : FormData) : Data :=
  {| dob := FormData_get f "dob";
     age := if ToBoolean (FormData_get f "dob")
            then Some (calculateAge env (ToString (FormData_get f "dob")))
            else None;
     anaemia := FormData_get f "anaemia";
     haemoglobin := FormData_get f "haemoglobin";
     parasiteCount := FormData_get f "parasite-count" |}.

(** The listener for [submit] runs up to its [await]: it returns, or waits
    for the timer with [data] in hand. *)
Inductive Submission :=
| Returned (p : Page)
| Waiting (data : Data) (p : Page).

(** [env1] has the clock as the listener reads it for [data.age], [env2]
    as [validateForm] reads it after that. *)
Definition on_submit (env1 env2 : Env) (f : FormData) (p : Page) : Submission :=
  let p := perform PreventDefault p in
  let data := form_data env1 f in
  let errors := validateForm env2 data in
  if (0 <? List.length errors)%nat then Returned (showValidationErrors errors p)
  else Waiting data (showLoadingState p).

(** The listener goes on when the timer has fired, on the page as it is
    then. No statement of the [try] block throws, so that the [catch] block
    does not run; the [finally] block does. *)
Definition on_submit_resumed (data : Data) (p : Page) : Page :=
  let riskValue := calculateRisk data in
  let p := displayResult riskValue p in
  hideLoadingState p.

(** The listener for [DOMContentLoaded]. *)
Definition on_DOMContentLoaded (env : Env) (p : Page) : Page :=
  match toISOString (Date_now env) with
  | Some iso =>
      let today := ToString_or_undefined (hd_error (split "T" iso)) in
      let p := set_dobInput_max (Some today) p in
      perform (ConsoleLog "Medical Risk Calculator initialized") p
  | None => p
  end.

(** * Part II: what the specification states *)

(** The clamp of the total into [[0, 100]]. *)
Definition clamp (x : number) : number := Math_min (Z2F 100) (Math_max (Z2F 0) x).

Definition round1 (x : number) : number := div (Math_round (mul x (Z2F 10))) (Z2F 10).

(** The Number nearest to [n / 10]. *)
Definition tenth (n : Z) : number := div (Z2F n) (Z2F 10).

(** The Number [n + 1/2]. *)
Definition half (n : Z) : number := binary_normalize prec emax (2 * n + 1) (-1) false.

Definition age_part (a : Z) : number :=
  if a <? 5 then Z2F 20 else if 65 <? a then Z2F 15 else mul (Z2F a) lit_0_3.

Definition anaemia_part (yes : bool) : number := if yes then Z2F 25 else Z2F 0.

Definition hb_part (h : number) : number :=
  Math_max (Z2F 0) (mul (sub (Z2F 150) h) lit_0_2).

Definition parasite_part (p : option Z) : number :=
  match p with Some n => mul (Z2F n) (Z2F 5) | None => Z2F 0 end.

Definition total (a : Z) (yes : bool) (h : number) (p : option Z) : number :=
  add (add (add (age_part a) (anaemia_part yes)) (hb_part h)) (parasite_part p).

Definition score (a : Z) (yes : bool) (h : number) (p : option Z) : number :=
  round1 (clamp (total a yes h p)).

(** [s] is a non-empty string of decimal digits that reads [acc * 10^|s| + n]. *)
Fixpoint decimal_digits (s : string) (acc : Z) : option Z :=
  match s with
  | EmptyString => Some acc
  | String c r =>
      if (48 <=? code c) && (code c <=? 57)
      then decimal_digits r (10 * acc + (code c - 48)) else None
  end.

Definition denotes (s : string) (n : Z) : Prop :=
  s <> "" /\ decimal_digits s 0 = Some n.

(** What the parasite count field holds for a count [p]: the sentinel, or the
    digits of a concrete integer. *)
Inductive count_field : option string -> option Z -> Prop :=
| count_sentinel : count_field (Some "not-available") None
| count_integer (s : string) (n : Z) : denotes s n -> count_field (Some s) (Some n).

(** A validated input, and the typed values that it stands for. *)
Record validated (data : Data) (a : Z) (yes : bool) (h : number) (p : option Z) : Prop := {
  v_age : age data = Some (Z2F a);
  v_age_range : 0 <= a <= 120;
  v_anaemia : anaemia data = Some (if yes then "yes" else "no");
  v_haemoglobin : exists s, haemoglobin data = Some s /\ StringToNumber s = h;
  v_haemoglobin_range : SFleb (Z2F 20) h = true /\ SFleb h (Z2F 180) = true;
  v_count : count_field (parasiteCount data) p
}.

Inductive Tier := Low | Moderate | High.

Definition interpretation_of (t : Tier) : Interpretation :=
  match t with
  | Low => {| text := "Low risk - Standard monitoring recommended"; class := "low-risk" |}
  | Moderate =>
      {| text := "Moderate risk - Enhanced monitoring advised"; class := "medium-risk" |}
  | High =>
      {| text := "High risk - Immediate clinical attention required"; class := "high-risk" |}
  end.

(** The three ranges of the classifier. *)
Definition in_low (x : number) : bool := SFltb x (Z2F 20).
Definition in_moderate (x : number) : bool := SFleb (Z2F 20) x && SFltb x (Z2F 50).
Definition in_high (x : number) : bool := SFleb (Z2F 50) x.

Definition form_input (a : Z) (an hb pc : string) : Data :=
  {| dob := None; age := Some (Z2F a); anaemia := Some an;
     haemoglobin := Some hb; parasiteCount := Some pc |}.

Definition dob_errors (env : Env) (fd : Data) : list string :=
  if negb (ToBoolean (dob fd)) then ["Date of birth is required"]
  else
    ((if SFltb (calculateAge env (ToString (dob fd))) (Z2F 0)
      then ["Date of birth cannot be in the future"] else []) ++
     (if SFltb (Z2F 120) (calculateAge env (ToString (dob fd)))
      then ["Please check the date of birth - age seems unrealistic"] else []))%list.

Definition anaemia_errors (fd : Data) : list string :=
  if negb (ToBoolean (anaemia fd)) then ["Please select anaemia status"] else [].

Definition haemoglobin_errors (fd : Data) : list string :=
  if negb (ToBoolean (haemoglobin fd)) then ["Haemoglobin level is required"]
  else if SFltb (parseFloat (ToString (haemoglobin fd))) (Z2F 20)
          || SFltb (Z2F 180) (parseFloat (ToString (haemoglobin fd)))
       then ["Haemoglobin must be between 20-180 g/L"] else [].

Definition parasite_errors (fd : Data) : list string :=
  if negb (ToBoolean (parasiteCount fd)) then ["Please select parasite count"] else [].

Definition utc_env (now : Z) : Env :=
  {| env_now := now; env_tza := fun _ => 0; env_parse_other := fun _ => None |}.

(** Local time five hours behind UTC. *)
Definition utc_minus_5 (now : Z) : Env :=
  {| env_now := now; env_tza := fun _ => -5 * 3600000; env_parse_other := fun _ => None |}.

(** 1 March 2024, 17:00 UTC. *)
Definition march_1_2024 : Z := MakeDay 2024 2 1 * msPerDay + 17 * 3600000.

(** 2 March 2024, 01:00 UTC, which is 1 March, 20:00, five hours behind UTC. *)
Definition march_2_2024_1am : Z := MakeDay 2024 2 2 * msPerDay + 3600000.

(** A calendar date: month 1 to 12, day within the month. *)
Definition calendar_date (y m d : Z) : Prop :=
  1 <= m <= 12 /\ 1 <= d <= DaysInMonth y (m - 1).

(** Local time is UTC or ahead of it, by less than a day. *)
Definition east_of_utc (env : Env) : Prop :=
  forall t, 0 <= env_tza env t < msPerDay.

(** The range of time values: 100 000 000 days on either side of the epoch. *)
Definition time_value (t : Z) : Prop :=
  - 8640000000000000 <= t <= 8640000000000000.

(** Today's date in local time: the year, the month (from 1) and the day. *)
Definition local_today (env : Env) : Z * Z * Z :=
  let t := LocalTime env (env_now env) in
  (YearFromTime t, MonthFromTime t + 1, DateFromTime t).

(** Whether the month and day [M], [D] come before [m], [d]. *)
Definition month_day_before (M D m d : Z) : bool :=
  (M <? m) || ((M =? m) && (D <? d)).

(** The age the contract describes, from today's date and the birth date. *)
Definition age_on (today birth : Z * Z * Z) : Z :=
  let '(Y, M, D) := today in
  let '(y, m, d) := birth in
  Y - y - (if month_day_before M D m d then 1 else 0).

(** Whether the date [birth] is after [today]. *)
Definition date_after (today birth : Z * Z * Z) : bool :=
  let '(Y, M, D) := today in
  let '(y, m, d) := birth in
  (Y <? y) || ((Y =? y) && month_day_before M D m d).

(** A field that is absent or empty. *)
Definition missing (v : option string) : bool :=
  match v with Some s => String.eqb s "" | None => true end.

(** The messages that the rules of the validator make applicable on the day
    [today], in the order of the fields.  The age is the calendar age
    [age_on] of the date that the field denotes; the haemoglobin is judged
    where the field is a whole number. *)
Definition applicable_errors (today : Z * Z * Z) (fd : Data) : list string :=
  ((if missing (dob fd) then ["Date of birth is required"]
    else match parse_date_only (ToString (dob fd)) with
         | Some birth =>
             (if age_on today birth <? 0
              then ["Date of birth cannot be in the future"] else []) ++
             (if 120 <? age_on today birth
              then ["Please check the date of birth - age seems unrealistic"] else [])
         | None => []
         end) ++
   (if missing (anaemia fd) then ["Please select anaemia status"] else []) ++
   (if missing (haemoglobin fd) then ["Haemoglobin level is required"]
    else match decimal_digits (ToString (haemoglobin fd)) 0 with
         | Some n =>
             if (n <? 20) || (180 <? n)
             then ["Haemoglobin must be between 20-180 g/L"] else []
         | None => []
         end) ++
   (if missing (parasiteCount fd) then ["Please select parasite count"] else []))%list.

(** The value of [risk] before the clamp. *)
Definition raw_risk (data : Data) : number :=
  let risk := Z2F 0 in
  let risk :=
    if SFltb (number_of_field (age data)) (Z2F 5) then add risk (Z2F 20)
    else if SFltb (Z2F 65) (number_of_field (age data)) then add risk (Z2F 15)
    else add risk (mul (number_of_field (age data)) lit_0_3) in
  let risk := if strict_eq (anaemia data) "yes" then add risk (Z2F 25) else risk in
  let hbFactor :=
    Math_max (Z2F 0) (mul (sub (Z2F 150) (ToNumber (haemoglobin data))) lit_0_2) in
  let risk := add risk hbFactor in
  if negb (strict_eq (parasiteCount data) "not-available")
  then add risk (mul (parseInt (ToString (parasiteCount data))) (Z2F 5))
  else risk.

(** The environment [env] with the clock at [t]. *)
Definition at_time (env : Env) (t : Z) : Env :=
  {| env_now := t; env_tza := env_tza env; env_parse_other := env_parse_other env |}.

(** The decimal numeral of an integer. *)
Definition integer_string (a : Z) : string :=
  if a <? 0 then "-" ++ ZToString (- a) else ZToString a.

(** The date of the time value [t]: year, month (from 1) and day. *)
Definition date_of (t : Z) : Z * Z * Z :=
  (YearFromTime t, MonthFromTime t + 1, DateFromTime t).

(** Local time differs from UTC by a day at most. *)
Definition offset_within_a_day (env : Env) : Prop :=
  forall t, - msPerDay <= env_tza env t <= msPerDay.

(** Local time is behind UTC, by a day at most. *)
Definition west_of_utc (env : Env) : Prop :=
  forall t, - msPerDay <= env_tza env t < 0.

(** The date of the day before [y]-[m]-[d]. *)
Definition day_before (y m d : Z) : Z * Z * Z :=
  date_of ((MakeDay y (m - 1) d - 1) * msPerDay).

Definition month_of (l n : Z) : Z :=
  if n <? 31 then 0 else if n <? 59 + l then 1 else if n <? 90 + l then 2
  else if n <? 120 + l then 3 else if n <? 151 + l then 4 else if n <? 181 + l then 5
  else if n <? 212 + l then 6 else if n <? 243 + l then 7 else if n <? 273 + l then 8
  else if n <? 304 + l then 9 else if n <? 334 + l then 10 else 11.

(** The string that the page gives the date input as its [max]. *)
Definition max_date (now : Z) : string :=
  match toISOString (Some now) with
  | Some iso => ToString_or_undefined (hd_error (split "T" iso))
  | None => ""
  end.

(** The offset from UTC is not less now than at the last midnight UTC; it
    is the same when it has not changed since. *)
Definition offset_not_decreased (env : Env) : Prop :=
  env_tza env (Day (env_now env) * msPerDay) <= env_tza env (env_now env).

(** The numeral of [n / 10]: the integer part, and the tenths if there are
    any. *)
Definition tenths_string (n : Z) : string :=
  ZToString (n / 10) ++ (if n mod 10 =? 0 then "" else "." ++ ZToString (n mod 10)).

Definition shown_ok (n : Z) : bool :=
  String.eqb (NumberToString (tenth n)) (tenths_string n).

Fixpoint contains (c : ascii) (s : string) : bool :=
  match s with
  | EmptyString => false
  | String a r => Ascii.eqb a c || contains c r
  end.

(** The tier of the score [n / 10]. *)
Definition tier_of_tenths (n : Z) : Tier :=
  if n <? 200 then Low else if n <? 500 then Moderate else High.

(** A page with nothing set. *)
Definition blank_page : Page :=
  {| dobInput_max := None;
     calculatedAge_textContent := "";
     calculatedAge_display := "";
     submitBtn_classList := ["submit-btn"];
     submitBtn_disabled := false;
     riskPercentage_textContent := "";
     riskPercentage_className := "";
     riskInterpretation_textContent := "";
     resultSection_classList := ["result-section"];
     effects := [] |}.

(** The form of a person born on 17 May 1990. *)
Definition example_form : FormData :=
  [("dob", "1990-05-17"); ("anaemia", "no"); ("haemoglobin", "120");
   ("parasite-count", "2")].

(** * Part III: rounding to nearest, as a function on integers *)

(** Round to nearest, ties to even, of [M / 2^n]. *)
Definition rne (M n : Z) : Z :=
  let q := M / 2 ^ n in
  match 2 * (M mod 2 ^ n) ?= 2 ^ n with
  | Lt => q
  | Eq => if Z.even q then q else q + 1
  | Gt => q + 1
  end.

(** The mantissa of the value [m * 2^e] on the grid of the multiples of
    [2^E]. *)
Definition round_grid (m e E : Z) : Z :=
  if E <=? e then m * 2 ^ (e - E) else rne m (E - e).

(** The float of mantissa [q] (at most [2^53], after a carry) and exponent
    [E]: the last steps of [binary_round_aux]. *)
Definition finish (s : bool) (q E : Z) : number :=
  let '(q1, E1) := if q =? 2 ^ 53 then (2 ^ 52, E + 1) else (q, E) in
  match q1 with
  | Z0 => S754_zero s
  | Zpos p => if E1 <=? 971 then S754_finite s p E1 else S754_infinity s
  | Zneg _ => S754_nan
  end.

Definition round_spec (s : bool) (m : positive) (e : Z) : number :=
  let E := fexp prec emax (Z.pos (digits2_pos m) + e) in
  finish s (round_grid (Z.pos m) e E) E.

(** The value of a finite number as a multiple of [2^-k]; the infinities are
    placed beyond every finite value, so that the order of the numbers is the
    order of the integers. *)
Definition ord (k : Z) (x : number) : Z :=
  match x with
  | S754_finite s m e => cond_Zopp s (Z.pos m * 2 ^ (e + k))
  | S754_infinity s => cond_Zopp s (2 ^ (1024 + k))
  | _ => 0
  end.

(** The rounded value of [m * 2^e], as a multiple of [2^-K]. *)
Definition rval (K : Z) (m : positive) (e : Z) : Z :=
  let E := fexp prec emax (Z.pos (digits2_pos m) + e) in
  round_grid (Z.pos m) e E * 2 ^ (E + K).

Definition RN (k v : Z) : number := binary_normalize prec emax v (- k) false.

(** [ord K (RN k v)] for a positive [v]: the rounded value, saturated. *)
Definition rnd (K k v : Z) : Z :=
  match v with
  | Z0 => 0
  | Z.pos p => Z.min (rval K p (- k)) (2 ^ (1024 + K))
  | Z.neg p => - Z.min (rval K p (- k)) (2 ^ (1024 + K))
  end.

(** [floor (x + 1/2)] as an integer. *)
Definition round_int (K : Z) (x : number) : Z :=
  (2 * ord K x + 2 ^ K) / 2 ^ (K + 1).

Fixpoint forall_upto (n : nat) (P : Z -> bool) : bool :=
  match n with
  | O => true
  | S k => P (Z.of_nat k) && forall_upto k P
  end.

Definition tenth_ok (n : Z) : bool :=
  valid_binary prec emax (tenth n) && is_finite (tenth n) && nonneg (tenth n)
  && SFleb (tenth n) (Z2F 100) && SFleb (tenth n) (tenth (n + 1)).

(** ** The total without rounding *)

(** The rational number that a finite Number stands for. *)
Definition exact_value (x : number) : Q :=
  match x with
  | S754_finite s m e => (inject_Z (cond_Zopp s (Z.pos m)) * 2 ^ e)%Q
  | _ => 0%Q
  end.

Definition exact_age (a : Z) : Q :=
  if a <? 5 then 20%Q else if 65 <? a then 15%Q else (inject_Z a * (3 # 10))%Q.

Definition exact_anaemia (yes : bool) : Q := if yes then 25%Q else 0%Q.

Definition exact_haemoglobin (h : Q) : Q := Qmax 0 ((150 - h) * (2 # 10)).

Definition exact_parasite (p : option Z) : Q :=
  match p with Some c => (inject_Z c * 5)%Q | None => 0%Q end.

(** The sum of the four parts, without any rounding. *)
Definition exact_total (a : Z) (yes : bool) (h : Q) (p : option Z) : Q :=
  (exact_age a + exact_anaemia yes + exact_haemoglobin h + exact_parasite p)%Q.

Definition exact_clamp (x : Q) : Q := Qmin 100 (Qmax 0 x).

(** The two roundings to one decimal that the specification allows, as a
    number of tenths. *)
Definition tenths_half_up (x : Q) : Z := Qfloor (x * 10 + (1 # 2)).

Definition tenths_half_even (x : Q) : Z :=
  let f := Qfloor (x * 10) in
  match (x * 10 - inject_Z f ?= 1 # 2)%Q with
  | Lt => f
  | Gt => f + 1
  | Eq => if Z.even f then f else f + 1
  end.

(** How far from a tie the exact total has to be for the binary arithmetic of
    the code to round it like the exact one. *)
Definition tolerance : Q := 1 # 10000000000000.

(** The validated input of age 18 with anaemia, haemoglobin 127.25 and three
    parasites: its exact total is 5.4 + 25 + 4.55 + 15 = 49.95. *)
Definition tie_input : Data := form_input 18 "yes" "127.25" "3".

Definition tie_total : Q :=
  exact_total 18 true (exact_value (StringToNumber "127.25")) (Some 3).

(** The validated input of age 5 without anaemia, haemoglobin 149.25 and no
    parasite: its exact total is 1.5 + 0.15 = 1.65. *)
Definition half_input : Data := form_input 5 "no" "149.25" "0".

(** Ten times the exact parts of the total: integers, but for the haemoglobin. *)
Definition tenths_age (a : Z) : Z :=
  if a <? 5 then 200 else if 65 <? a then 150 else 3 * a.

Definition tenths_anaemia (yes : bool) : Z := if yes then 250 else 0.

Definition tenths_parasite (p : option Z) : Z :=
  match p with Some c => 50 * c | None => 0 end.

(** Ten times the exact total, in multiples of [2^-k]. *)
Definition exact_units (k a : Z) (yes : bool) (h : number) (p : option Z) : Z :=
  (tenths_age a + tenths_anaemia yes + tenths_parasite p) * 2 ^ k
  + 2 * Z.max 0 (150 * 2 ^ k - ord k h).

(** * Part IV: binary64 arithmetic *)

(** *** Powers of two *)

Lemma pow2_pos (n : Z) : 0 <= n -> 0 < 2 ^ n.
Proof. intros; apply Z.pow_pos_nonneg; lia. Qed.

Lemma pow2_add (a b : Z) : 0 <= a -> 0 <= b -> 2 ^ (a + b) = 2 ^ a * 2 ^ b.
Proof. intros; apply Z.pow_add_r; lia. Qed.

Lemma pow2_le (a b : Z) : 0 <= a <= b -> 2 ^ a <= 2 ^ b.
Proof. intros; apply Z.pow_le_mono_r; lia. Qed.

Lemma pow2_lt (a b : Z) : 0 <= a < b -> 2 ^ a < 2 ^ b.
Proof. intros; apply Z.pow_lt_mono_r; lia. Qed.

Lemma pow2_succ (a : Z) : 0 <= a -> 2 ^ (a + 1) = 2 * 2 ^ a.
Proof. intros; rewrite pow2_add by lia; change (2 ^ 1) with 2; lia. Qed.

(** *** Number of binary digits *)

Lemma digits2_pos_bounds (m : positive) :
  2 ^ (Z.pos (digits2_pos m) - 1) <= Z.pos m < 2 ^ Z.pos (digits2_pos m).
Proof.
  induction m as [m IH|m IH|]; cbn [digits2_pos].
  - rewrite Pos2Z.inj_succ.
    replace (Z.succ (Z.pos (digits2_pos m)) - 1)
      with (Z.pos (digits2_pos m) - 1 + 1) by lia.
    replace (Z.succ (Z.pos (digits2_pos m)))
      with (Z.pos (digits2_pos m) + 1) by lia.
    rewrite !pow2_succ by lia. lia.
  - rewrite Pos2Z.inj_succ.
    replace (Z.succ (Z.pos (digits2_pos m)) - 1)
      with (Z.pos (digits2_pos m) - 1 + 1) by lia.
    replace (Z.succ (Z.pos (digits2_pos m)))
      with (Z.pos (digits2_pos m) + 1) by lia.
    rewrite !pow2_succ by lia. lia.
  - simpl. lia.
Qed.

Lemma digits2_unique (m : positive) (d : Z) :
  2 ^ (d - 1) <= Z.pos m < 2 ^ d -> Z.pos (digits2_pos m) = d.
Proof.
  intros [Hlo Hhi].
  pose proof (digits2_pos_bounds m) as [Blo Bhi].
  assert (Hd : 0 < d).
  { destruct (Z_lt_le_dec 0 d) as [|Hn]; [assumption|].
    destruct (Z.eq_dec d 0) as [->|]; [simpl in Hhi; lia|].
    rewrite Z.pow_neg_r in Hhi by lia. lia. }
  destruct (Z_lt_le_dec (Z.pos (digits2_pos m)) d) as [Hlt|Hge].
  - assert (2 ^ Z.pos (digits2_pos m) <= 2 ^ (d - 1)) by (apply pow2_le; lia).
    lia.
  - destruct (Z.eq_dec (Z.pos (digits2_pos m)) d) as [|Hne]; [assumption|].
    assert (2 ^ d <= 2 ^ (Z.pos (digits2_pos m) - 1)) by (apply pow2_le; lia).
    lia.
Qed.

Lemma digits2_shift (m : positive) (j : Z) (p : positive) :
  0 <= j -> Z.pos p = Z.pos m * 2 ^ j ->
  Z.pos (digits2_pos p) = Z.pos (digits2_pos m) + j.
Proof.
  intros Hj Hp. apply digits2_unique.
  pose proof (digits2_pos_bounds m) as [Blo Bhi].
  pose proof (pow2_pos j Hj).
  replace (Z.pos (digits2_pos m) + j - 1) with (Z.pos (digits2_pos m) - 1 + j) by lia.
  rewrite !pow2_add by lia. rewrite Hp. nia.
Qed.

Lemma digits2_mono (m1 m2 : positive) :
  Z.pos m1 <= Z.pos m2 -> Z.pos (digits2_pos m1) <= Z.pos (digits2_pos m2).
Proof.
  intros H.
  pose proof (digits2_pos_bounds m1) as [B1 _].
  pose proof (digits2_pos_bounds m2) as [_ B2].
  destruct (Z_lt_le_dec (Z.pos (digits2_pos m2)) (Z.pos (digits2_pos m1))); [|assumption].
  assert (2 ^ Z.pos (digits2_pos m2) <= 2 ^ (Z.pos (digits2_pos m1) - 1))
    by (apply pow2_le; lia).
  lia.
Qed.

(** *** The right shift with round and sticky bits *)

Lemma iter_pos_nat {A : Type} (f : A -> A) (p : positive) (x : A) :
  iter_pos f p x = Nat.iter (Pos.to_nat p) f x.
Proof.
  revert x; induction p as [p IH|p IH|]; intros x; cbn [iter_pos].
  - rewrite !IH, Pos2Nat.inj_xI.
    replace (2 * Pos.to_nat p)%nat with (Pos.to_nat p + Pos.to_nat p)%nat by lia.
    rewrite Nat.iter_succ_r, Nat.iter_add. reflexivity.
  - rewrite !IH, Pos2Nat.inj_xO.
    replace (2 * Pos.to_nat p)%nat with (Pos.to_nat p + Pos.to_nat p)%nat by lia.
    rewrite Nat.iter_add. reflexivity.
  - reflexivity.
Qed.

Lemma shr_1_nonneg (m : Z) (r s : bool) :
  0 <= m ->
  shr_1 (Build_shr_record m r s) = Build_shr_record (m / 2) (Z.odd m) (r || s).
Proof.
  intros Hm. rewrite <- Z.div2_div.
  destruct m as [|[p|p|]|p]; try reflexivity. lia.
Qed.

Lemma shr_iter_m (k : nat) (mrs : shr_record) :
  0 <= shr_m mrs ->
  shr_m (Nat.iter k shr_1 mrs) = shr_m mrs / 2 ^ Z.of_nat k.
Proof.
  intros Hm. induction k as [|k IH].
  - simpl. now rewrite Z.div_1_r.
  - rewrite Nat.iter_succ.
    destruct (Nat.iter k shr_1 mrs) as [m r s] eqn:E. cbn [shr_m] in IH.
    assert (0 <= m) by (rewrite IH; apply Z.div_pos; [lia|apply pow2_pos; lia]).
    rewrite shr_1_nonneg by assumption. cbn [shr_m].
    rewrite IH, Nat2Z.inj_succ, Z.pow_succ_r by lia.
    rewrite Z.div_div by (try apply pow2_pos; lia).
    f_equal; lia.
Qed.

Lemma shr_iter_loc (M : Z) (k : nat) :
  0 <= M ->
  let mrs := Nat.iter k shr_1 (Build_shr_record M false false) in
  exists t, 0 <= t < 2 ^ Z.of_nat k /\
    2 * (M mod 2 ^ Z.of_nat k) = (if shr_r mrs then 2 ^ Z.of_nat k else 0) + t /\
    shr_s mrs = negb (t =? 0).
Proof.
  intros HM. induction k as [|k IH]; cbn zeta.
  - exists 0. simpl. rewrite Z.mod_1_r. repeat split; lia.
  - cbn zeta in IH. destruct IH as (t & Ht & Hmod & Hs).
    pose proof (shr_iter_m k (Build_shr_record M false false) HM) as Hq.
    rewrite Nat.iter_succ.
    destruct (Nat.iter k shr_1 (Build_shr_record M false false)) as [m r s].
    cbn [shr_m shr_r shr_s] in *.
    assert (Hp : 0 < 2 ^ Z.of_nat k) by (apply pow2_pos; lia).
    assert (0 <= m) by (rewrite Hq; apply Z.div_pos; lia).
    rewrite shr_1_nonneg by assumption. cbn [shr_r shr_s].
    rewrite Nat2Z.inj_succ, Z.pow_succ_r by lia.
    exists ((if r then 2 ^ Z.of_nat k else 0) + t).
    replace (2 * 2 ^ Z.of_nat k) with (2 ^ Z.of_nat k * 2) by lia.
    rewrite Z.rem_mul_r by lia. rewrite <- Hq.
    rewrite Zmod_odd.
    repeat split.
    + destruct r; lia.
    + destruct r; lia.
    + destruct (Z.odd m); lia.
    + rewrite Hs. destruct r; simpl.
      * symmetry. apply negb_true_iff, Z.eqb_neq. lia.
      * reflexivity.
Qed.

Lemma shr_round (M : Z) (p : positive) :
  0 <= M ->
  let mrs := iter_pos shr_1 p (Build_shr_record M false false) in
  round_nearest_even (shr_m mrs) (loc_of_shr_record mrs) = rne M (Z.pos p).
Proof.
  intros HM. cbn zeta. rewrite iter_pos_nat.
  pose proof (shr_iter_m (Pos.to_nat p) (Build_shr_record M false false) HM) as Hq.
  destruct (shr_iter_loc M (Pos.to_nat p) HM) as (t & Ht & Hmod & Hs).
  rewrite positive_nat_Z in *.
  destruct (Nat.iter (Pos.to_nat p) shr_1 (Build_shr_record M false false)) as [m r s].
  cbn [shr_m shr_r shr_s] in *. unfold rne. rewrite <- Hq.
  destruct r, s; cbn [loc_of_shr_record round_nearest_even].
  - symmetry in Hs. apply negb_true_iff, Z.eqb_neq in Hs.
    replace (2 * (M mod 2 ^ Z.pos p) ?= 2 ^ Z.pos p) with Gt; [reflexivity|].
    symmetry. apply Z.compare_gt_iff. lia.
  - symmetry in Hs. apply negb_false_iff, Z.eqb_eq in Hs.
    replace (2 * (M mod 2 ^ Z.pos p) ?= 2 ^ Z.pos p) with Eq; [reflexivity|].
    symmetry. apply Z.compare_eq_iff. lia.
  - replace (2 * (M mod 2 ^ Z.pos p) ?= 2 ^ Z.pos p) with Lt; [reflexivity|].
    symmetry. apply Z.compare_lt_iff. lia.
  - replace (2 * (M mod 2 ^ Z.pos p) ?= 2 ^ Z.pos p) with Lt; [reflexivity|].
    symmetry. apply Z.compare_lt_iff. lia.
Qed.

(** *** Rounding to nearest even on a grid *)

Lemma rne_bounds (M n : Z) : M / 2 ^ n <= rne M n <= M / 2 ^ n + 1.
Proof.
  unfold rne. destruct (2 * (M mod 2 ^ n) ?= 2 ^ n); [destruct (Z.even _)| |]; lia.
Qed.

Lemma rne_exact (q n : Z) : 0 < n -> rne (q * 2 ^ n) n = q.
Proof.
  intros Hn. unfold rne. pose proof (pow2_pos n ltac:(lia)).
  rewrite Z.mod_mul by lia. rewrite Z.div_mul by lia.
  destruct (Z.compare_spec (2 * 0) (2 ^ n)); [lia|reflexivity|lia].
Qed.

Lemma rne_scale (M n j : Z) : 0 < n -> 0 <= j -> rne (M * 2 ^ j) (n + j) = rne M n.
Proof.
  intros Hn Hj. unfold rne.
  pose proof (pow2_pos n ltac:(lia)). pose proof (pow2_pos j Hj).
  rewrite pow2_add by lia.
  rewrite Z.div_mul_cancel_r, Z.mul_mod_distr_r by lia.
  destruct (Z.compare_spec (2 * (M mod 2 ^ n * 2 ^ j)) (2 ^ n * 2 ^ j));
    destruct (Z.compare_spec (2 * (M mod 2 ^ n)) (2 ^ n)); try reflexivity; nia.
Qed.

Lemma rne_mono (M1 M2 n : Z) : 0 < n -> M1 <= M2 -> rne M1 n <= rne M2 n.
Proof.
  intros Hn HM. pose proof (pow2_pos n ltac:(lia)) as Hp.
  assert (Hq : M1 / 2 ^ n <= M2 / 2 ^ n) by (apply Z.div_le_mono; lia).
  pose proof (rne_bounds M1 n). pose proof (rne_bounds M2 n).
  destruct (Z.eq_dec (M1 / 2 ^ n) (M2 / 2 ^ n)) as [Heq|]; [|lia].
  assert (Hr : M1 mod 2 ^ n <= M2 mod 2 ^ n).
  { pose proof (Z.div_mod M1 (2 ^ n) ltac:(lia)).
    pose proof (Z.div_mod M2 (2 ^ n) ltac:(lia)). nia. }
  unfold rne. rewrite Heq.
  destruct (Z.compare_spec (2 * (M1 mod 2 ^ n)) (2 ^ n));
    destruct (Z.compare_spec (2 * (M2 mod 2 ^ n)) (2 ^ n));
    try destruct (Z.even _); lia.
Qed.

Lemma div_pow2_lt (m d n : Z) :
  0 <= m < 2 ^ d -> 0 <= n <= d -> m / 2 ^ n < 2 ^ (d - n).
Proof.
  intros Hm Hn. pose proof (pow2_pos n ltac:(lia)).
  apply Z.div_lt_upper_bound; [lia|].
  rewrite <- pow2_add by lia. replace (n + (d - n)) with d by lia. lia.
Qed.

Lemma div_pow2_ge (m d n : Z) :
  2 ^ d <= m -> 0 <= n <= d -> 2 ^ (d - n) <= m / 2 ^ n.
Proof.
  intros Hm Hn. pose proof (pow2_pos n ltac:(lia)).
  apply Z.div_le_lower_bound; [lia|].
  rewrite <- pow2_add by lia. replace (n + (d - n)) with d by lia. lia.
Qed.

Lemma div_pow2_small (m d n : Z) : 0 <= m < 2 ^ d -> 0 <= d <= n -> m / 2 ^ n = 0.
Proof.
  intros Hm Hn. apply Z.div_small.
  assert (2 ^ d <= 2 ^ n) by (apply pow2_le; lia). lia.
Qed.

Lemma fexp_eq (e : Z) : fexp prec emax e = Z.max (e - 53) (-1074).
Proof. reflexivity. Qed.

Lemma Zdigits2_le53 (q : Z) : 0 <= q < 2 ^ 53 -> Zdigits2 q <= 53.
Proof.
  intros Hq. destruct q as [|p|p]; cbn [Zdigits2]; try lia.
  pose proof (digits2_pos_bounds p) as [Blo _].
  destruct (Z_lt_le_dec 53 (Z.pos (digits2_pos p))); [|assumption].
  assert (2 ^ 53 <= 2 ^ (Z.pos (digits2_pos p) - 1)) by (apply pow2_le; lia).
  lia.
Qed.

Lemma shr_fexp_renorm (q E : Z) :
  0 <= q <= 2 ^ 53 -> -1074 <= E ->
  shr_fexp prec emax q E loc_Exact =
  if q =? 2 ^ 53 then (Build_shr_record (2 ^ 52) false false, E + 1)
  else (Build_shr_record q false false, E).
Proof.
  intros Hq HE. unfold shr_fexp. cbn [shr_record_of_loc].
  destruct (Z.eqb_spec q (2 ^ 53)) as [->|Hne].
  - change (Zdigits2 (2 ^ 53)) with 54. rewrite fexp_eq.
    replace (Z.max (54 + E - 53) (-1074) - E) with 1 by lia.
    reflexivity.
  - pose proof (Zdigits2_le53 q ltac:(lia)). rewrite fexp_eq.
    destruct (Z.max (Zdigits2 q + E - 53) (-1074) - E) eqn:Hn; try reflexivity.
    lia.
Qed.

Lemma round_grid_le (m : positive) (e E : Z) :
  E = fexp prec emax (Z.pos (digits2_pos m) + e) ->
  0 <= round_grid (Z.pos m) e E <= 2 ^ 53.
Proof.
  intros HE. rewrite fexp_eq in HE. unfold round_grid.
  pose proof (digits2_pos_bounds m) as [Blo Bhi].
  destruct (Z.leb_spec E e).
  - pose proof (pow2_pos (e - E) ltac:(lia)). split; [lia|].
    assert (Z.pos m * 2 ^ (e - E) < 2 ^ (Z.pos (digits2_pos m) + (e - E))).
    { rewrite pow2_add by lia. nia. }
    assert (2 ^ (Z.pos (digits2_pos m) + (e - E)) <= 2 ^ 53) by (apply pow2_le; lia).
    lia.
  - pose proof (rne_bounds (Z.pos m) (E - e)).
    pose proof (pow2_pos (E - e) ltac:(lia)).
    assert (0 <= Z.pos m / 2 ^ (E - e)) by (apply Z.div_pos; lia).
    split; [lia|].
    destruct (Z_lt_le_dec (Z.pos (digits2_pos m)) (E - e)).
    + rewrite (div_pow2_small (Z.pos m) (Z.pos (digits2_pos m)) (E - e)) in * by lia.
      assert (2 ^ 0 <= 2 ^ 53) by (apply pow2_le; lia). simpl in *. lia.
    + pose proof (div_pow2_lt (Z.pos m) (Z.pos (digits2_pos m)) (E - e)
                    ltac:(lia) ltac:(lia)).
      assert (2 ^ (Z.pos (digits2_pos m) - (E - e)) <= 2 ^ 53) by (apply pow2_le; lia).
      lia.
Qed.

Lemma binary_round_aux_spec (s : bool) (m : positive) (e : Z) :
  e <= fexp prec emax (Z.pos (digits2_pos m) + e) ->
  binary_round_aux prec emax s (Z.pos m) e loc_Exact = round_spec s m e.
Proof.
  intros He. unfold round_spec.
  pose proof (round_grid_le m e _ eq_refl) as Hq.
  set (E := fexp prec emax (Z.pos (digits2_pos m) + e)) in *.
  assert (HE : -1074 <= E) by (unfold E; rewrite fexp_eq; lia).
  unfold binary_round_aux.
  assert (H1 : shr_fexp prec emax (Z.pos m) e loc_Exact =
               (if E <=? e then Build_shr_record (Z.pos m) false false
                else iter_pos shr_1 (Z.to_pos (E - e)) (Build_shr_record (Z.pos m) false false),
                E)).
  { unfold shr_fexp. cbn [Zdigits2 shr_record_of_loc]. fold E.
    destruct (Z.leb_spec E e).
    - replace (E - e) with 0 by lia. cbn [shr]. f_equal. lia.
    - destruct (E - e) eqn:Hn; try lia. cbn [shr Z.to_pos]. f_equal. lia. }
  rewrite H1.
  assert (H2 : round_nearest_even
                 (shr_m (if E <=? e then Build_shr_record (Z.pos m) false false
                         else iter_pos shr_1 (Z.to_pos (E - e))
                                (Build_shr_record (Z.pos m) false false)))
                 (loc_of_shr_record
                    (if E <=? e then Build_shr_record (Z.pos m) false false
                     else iter_pos shr_1 (Z.to_pos (E - e))
                            (Build_shr_record (Z.pos m) false false)))
               = round_grid (Z.pos m) e E).
  { unfold round_grid. destruct (Z.leb_spec E e).
    - replace (e - E) with 0 by lia. cbn. lia.
    - rewrite shr_round by lia. rewrite Z2Pos.id by lia. reflexivity. }
  rewrite H2, shr_fexp_renorm by assumption.
  unfold finish. destruct (round_grid (Z.pos m) e E =? 2 ^ 53); reflexivity.
Qed.

(** *** [binary_round] depends on the value only *)

Lemma round_grid_scale (m e E j : Z) :
  0 <= j -> round_grid (m * 2 ^ j) (e - j) E = round_grid m e E.
Proof.
  intros Hj. unfold round_grid.
  destruct (Z.leb_spec E (e - j)), (Z.leb_spec E e); try lia.
  - replace (e - E) with (j + (e - j - E)) by lia.
    rewrite pow2_add by lia. lia.
  - replace (m * 2 ^ j) with (m * 2 ^ (e - E) * 2 ^ (E - (e - j))).
    + apply rne_exact. lia.
    + rewrite <- Z.mul_assoc, <- pow2_add by lia. do 2 f_equal. lia.
  - replace (E - (e - j)) with (E - e + j) by lia.
    apply rne_scale; lia.
Qed.

Lemma round_spec_scale (s : bool) (m p : positive) (e j : Z) :
  0 <= j -> Z.pos p = Z.pos m * 2 ^ j ->
  round_spec s p (e - j) = round_spec s m e.
Proof.
  intros Hj Hp. unfold round_spec.
  rewrite (digits2_shift m j p Hj Hp).
  replace (Z.pos (digits2_pos m) + j + (e - j)) with (Z.pos (digits2_pos m) + e) by lia.
  rewrite Hp, round_grid_scale by assumption. reflexivity.
Qed.

Lemma shift_xO (m d : positive) : Z.pos (Pos.iter xO m d) = Z.pos m * 2 ^ Z.pos d.
Proof.
  induction d as [|d IH] using Pos.peano_ind.
  - cbn [Pos.iter]. rewrite Pos2Z.inj_xO. change (2 ^ 1) with 2. lia.
  - rewrite Pos.iter_succ, Pos2Z.inj_xO, IH, Pos2Z.inj_succ.
    rewrite Z.pow_succ_r by lia. lia.
Qed.

Lemma binary_round_spec (s : bool) (m : positive) (e : Z) :
  binary_round prec emax s m e = round_spec s m e.
Proof.
  unfold binary_round, shl_align.
  set (E := fexp prec emax (Z.pos (digits2_pos m) + e)).
  destruct (E - e) as [|d|d] eqn:Hd.
  - apply binary_round_aux_spec. fold E. lia.
  - apply binary_round_aux_spec. fold E. lia.
  - pose proof (shift_xO m d) as Hs.
    assert (HE : E = e - Z.pos d) by lia.
    rewrite binary_round_aux_spec.
    + rewrite HE. apply round_spec_scale; [lia|assumption].
    + rewrite (digits2_shift m (Z.pos d) _ ltac:(lia) Hs).
      replace (Z.pos (digits2_pos m) + Z.pos d + E) with (Z.pos (digits2_pos m) + e) by lia.
      fold E. lia.
Qed.

(** *** The result of rounding is a binary64 number *)

Lemma round_grid_normal (m : positive) (e E : Z) :
  E = fexp prec emax (Z.pos (digits2_pos m) + e) -> -1074 < E ->
  2 ^ 52 <= round_grid (Z.pos m) e E.
Proof.
  intros HE Hn. rewrite fexp_eq in HE. unfold round_grid.
  pose proof (digits2_pos_bounds m) as [Blo Bhi].
  destruct (Z.leb_spec E e).
  - pose proof (pow2_pos (e - E) ltac:(lia)).
    assert (2 ^ (Z.pos (digits2_pos m) - 1 + (e - E)) <= Z.pos m * 2 ^ (e - E)).
    { rewrite pow2_add by lia. nia. }
    replace (Z.pos (digits2_pos m) - 1 + (e - E)) with 52 in * by lia. assumption.
  - pose proof (rne_bounds (Z.pos m) (E - e)).
    pose proof (div_pow2_ge (Z.pos m) (Z.pos (digits2_pos m) - 1) (E - e)
                  ltac:(lia) ltac:(lia)).
    replace (Z.pos (digits2_pos m) - 1 - (E - e)) with 52 in * by lia. lia.
Qed.

Lemma bounded_iff (m : positive) (e : Z) :
  bounded prec emax m e = true <->
  Z.max (Z.pos (digits2_pos m) + e - 53) (-1074) = e /\ e <= 971.
Proof.
  unfold bounded, canonical_mantissa. rewrite fexp_eq.
  rewrite andb_true_iff, Z.eqb_eq, Z.leb_le. reflexivity.
Qed.

Lemma finish_valid (s : bool) (q E : Z) :
  0 <= q <= 2 ^ 53 -> -1074 <= E -> (E = -1074 \/ 2 ^ 52 <= q) ->
  valid_binary prec emax (finish s q E) = true.
Proof.
  intros Hq HE Hn. unfold finish.
  destruct (Z.eqb_spec q (2 ^ 53)) as [->|Hne].
  - change (2 ^ 52) with (Z.pos 4503599627370496).
    destruct (Z.leb_spec (E + 1) 971); [|reflexivity].
    cbn [valid_binary]. apply bounded_iff.
    change (Z.pos (digits2_pos 4503599627370496)) with 53. lia.
  - destruct q as [|p|p]; [reflexivity| |lia].
    destruct (Z.leb_spec E 971); [|reflexivity].
    cbn [valid_binary]. apply bounded_iff.
    destruct Hn as [->|Hn].
    + pose proof (Zdigits2_le53 (Z.pos p) ltac:(lia)) as Hd. cbn [Zdigits2] in Hd. lia.
    + rewrite (digits2_unique p 53) by (change (2 ^ (53 - 1)) with (2 ^ 52); lia). lia.
Qed.

Lemma round_spec_valid (s : bool) (m : positive) (e : Z) :
  valid_binary prec emax (round_spec s m e) = true.
Proof.
  unfold round_spec.
  pose proof (round_grid_le m e _ eq_refl).
  pose proof (round_grid_normal m e _ eq_refl).
  set (E := fexp prec emax (Z.pos (digits2_pos m) + e)) in *.
  assert (-1074 <= E) by (unfold E; rewrite fexp_eq; lia).
  apply finish_valid; try assumption.
  destruct (Z.eq_dec E (-1074)); [left; assumption|right; apply H0; lia].
Qed.

Lemma round_spec_exact (s : bool) (m : positive) (e : Z) :
  bounded prec emax m e = true -> round_spec s m e = S754_finite s m e.
Proof.
  intros Hb. apply bounded_iff in Hb. destruct Hb as [Hc He].
  unfold round_spec. rewrite fexp_eq, Hc.
  unfold round_grid. rewrite Z.leb_refl, Z.sub_diag, Z.mul_1_r.
  unfold finish.
  pose proof (digits2_pos_bounds m) as [_ Bhi].
  assert (2 ^ Z.pos (digits2_pos m) <= 2 ^ 53) by (apply pow2_le; lia).
  destruct (Z.eqb_spec (Z.pos m) (2 ^ 53)); [lia|].
  destruct (Z.leb_spec e 971); [reflexivity|lia].
Qed.

Lemma round_spec_opp (m : positive) (e : Z) :
  round_spec true m e = SFopp (round_spec false m e).
Proof.
  unfold round_spec, finish.
  destruct (_ =? 2 ^ 53).
  - change (2 ^ 52) with (Z.pos 4503599627370496).
    destruct (_ <=? 971); reflexivity.
  - destruct (round_grid _ _ _); try reflexivity.
    destruct (_ <=? 971); reflexivity.
Qed.

Lemma wf_finite_bounds (s : bool) (m : positive) (e k : Z) :
  wf (S754_finite s m e) -> 1074 <= k ->
  -1074 <= e <= 971 /\ Z.pos m < 2 ^ 53 /\
  (-1074 < e -> 2 ^ 52 <= Z.pos m) /\
  0 < Z.pos m * 2 ^ (e + k) < 2 ^ (1024 + k).
Proof.
  unfold wf. cbn [valid_binary]. rewrite bounded_iff. intros [Hc He] Hk.
  pose proof (digits2_pos_bounds m) as [Blo Bhi].
  assert (Hd : Z.pos (digits2_pos m) <= 53) by lia.
  assert (2 ^ Z.pos (digits2_pos m) <= 2 ^ 53) by (apply pow2_le; lia).
  assert (Hm : Z.pos m < 2 ^ 53) by lia.
  pose proof (pow2_pos (e + k) ltac:(lia)).
  assert (2 ^ 53 * 2 ^ (e + k) <= 2 ^ (1024 + k)).
  { rewrite <- pow2_add by lia. apply pow2_le. lia. }
  repeat split; try lia; try nia.
  intros Hn. replace (Z.pos (digits2_pos m)) with 53 in Blo by lia. exact Blo.
Qed.

Lemma ord_compare (k : Z) (x y : number) :
  1074 <= k -> wf x -> wf y -> is_nan x = false -> is_nan y = false ->
  SFcompare x y = Some (ord k x ?= ord k y).
Proof.
  intros Hk Hx Hy Nx Ny.
  assert (Hinf : 0 < 2 ^ (1024 + k)) by (apply pow2_pos; lia).
  assert (Hcmp : forall (c : comparison) (a b : Z),
             match c with Eq => a = b | Lt => a < b | Gt => a > b end ->
             Some c = Some (a ?= b)).
  { intros c a b H. f_equal. symmetry. destruct c;
      [apply Z.compare_eq_iff|apply Z.compare_lt_iff|apply Z.compare_gt_iff]; lia. }
  destruct x as [sx|sx| |sx mx ex], y as [sy|sy| |sy my ey]; try discriminate;
    try (pose proof (wf_finite_bounds _ _ _ k Hx Hk) as (Hex & Hmx & Hnx & Hvx));
    try (pose proof (wf_finite_bounds _ _ _ k Hy Hk) as (Hey & Hmy & Hny & Hvy));
    cbn [SFcompare ord];
    try (destruct sx; try destruct sy; cbn [cond_Zopp]; apply Hcmp; lia);
    try (destruct sy; cbn [cond_Zopp]; apply Hcmp; lia).
  - f_equal.
    assert (Hlex : forall m1 e1 m2 e2 : Z,
               -1074 <= e1 < e2 -> 0 < m1 < 2 ^ 53 -> 2 ^ 52 <= m2 ->
               m1 * 2 ^ (e1 + k) < m2 * 2 ^ (e2 + k)).
    { intros m1 e1 m2 e2 He Hm1 Hm2.
      replace (e2 + k) with (e1 + k + (e2 - e1)) by lia.
      rewrite (pow2_add (e1 + k) (e2 - e1)) by lia.
      pose proof (pow2_pos (e1 + k) ltac:(lia)).
      assert (2 ^ 1 <= 2 ^ (e2 - e1)) by (apply pow2_le; lia).
      change (2 ^ 1) with 2 in *.
      assert (m1 < m2 * 2 ^ (e2 - e1)) by nia. nia. }
    pose proof (pow2_pos (ex + k) ltac:(lia)).
    change (Pos.compare_cont Eq mx my) with (Z.pos mx ?= Z.pos my).
    destruct sx, sy; cbn [cond_Zopp]; symmetry.
    + destruct (Z.compare_spec ex ey) as [->|Hlt|Hgt].
      * destruct (Z.compare_spec (Z.pos mx) (Z.pos my)); cbn [CompOpp];
          [apply Z.compare_eq_iff|apply Z.compare_gt_iff|apply Z.compare_lt_iff]; nia.
      * apply Z.compare_gt_iff.
        pose proof (Hlex (Z.pos mx) ex (Z.pos my) ey). lia.
      * apply Z.compare_lt_iff.
        pose proof (Hlex (Z.pos my) ey (Z.pos mx) ex). lia.
    + apply Z.compare_lt_iff. lia.
    + apply Z.compare_gt_iff. lia.
    + destruct (Z.compare_spec ex ey) as [->|Hlt|Hgt].
      * destruct (Z.compare_spec (Z.pos mx) (Z.pos my));
          [apply Z.compare_eq_iff|apply Z.compare_lt_iff|apply Z.compare_gt_iff]; nia.
      * apply Z.compare_lt_iff.
        pose proof (Hlex (Z.pos mx) ex (Z.pos my) ey). lia.
      * apply Z.compare_gt_iff.
        pose proof (Hlex (Z.pos my) ey (Z.pos mx) ex). lia.
Qed.

Lemma SFleb_ord (k : Z) (x y : number) :
  1074 <= k -> wf x -> wf y -> is_nan x = false -> is_nan y = false ->
  SFleb x y = true <-> ord k x <= ord k y.
Proof.
  intros Hk Hx Hy Nx Ny. unfold SFleb.
  rewrite (ord_compare k x y) by assumption.
  destruct (Z.compare_spec (ord k x) (ord k y)); split; intros; try lia; try discriminate;
    reflexivity.
Qed.

Lemma SFltb_ord (k : Z) (x y : number) :
  1074 <= k -> wf x -> wf y -> is_nan x = false -> is_nan y = false ->
  SFltb x y = true <-> ord k x < ord k y.
Proof.
  intros Hk Hx Hy Nx Ny. unfold SFltb.
  rewrite (ord_compare k x y) by assumption.
  destruct (Z.compare_spec (ord k x) (ord k y)); split; intros; try lia; try discriminate;
    reflexivity.
Qed.

(** *** Rounding is monotone *)

Lemma pow2_mul_le (a b c : Z) : 0 <= a -> 0 <= b -> a + b <= c -> 2 ^ a * 2 ^ b <= 2 ^ c.
Proof. intros. rewrite <- pow2_add by lia. apply pow2_le. lia. Qed.

Lemma pow2_mul_ge (a b c : Z) : 0 <= a -> 0 <= b -> 0 <= c <= a + b -> 2 ^ c <= 2 ^ a * 2 ^ b.
Proof. intros. rewrite <- pow2_add by lia. apply pow2_le. lia. Qed.

Lemma ord_finish (K q E : Z) :
  1074 <= K -> 0 <= q <= 2 ^ 53 -> -1074 <= E -> (E = -1074 \/ 2 ^ 52 <= q) ->
  ord K (finish false q E) = Z.min (q * 2 ^ (E + K)) (2 ^ (1024 + K)).
Proof.
  intros HK Hq HE Hn. unfold finish.
  pose proof (pow2_pos (E + K) ltac:(lia)) as Hp.
  pose proof (pow2_pos (1024 + K) ltac:(lia)) as Hi.
  destruct (Z.eqb_spec q (2 ^ 53)) as [->|Hne].
  - change (2 ^ 52) with (Z.pos 4503599627370496).
    destruct (Z.leb_spec (E + 1) 971); cbn [ord cond_Zopp].
    + change (Z.pos 4503599627370496) with (2 ^ 52).
      replace (E + 1 + K) with (1 + (E + K)) by lia.
      rewrite (pow2_add 1 (E + K)) by lia. change (2 ^ 1) with 2.
      pose proof (pow2_mul_le 53 (E + K) (1024 + K) ltac:(lia) ltac:(lia) ltac:(lia)).
      lia.
    + pose proof (pow2_mul_ge 53 (E + K) (1024 + K) ltac:(lia) ltac:(lia) ltac:(lia)).
      lia.
  - destruct q as [|p|p]; [cbn [ord]; lia| |lia].
    destruct (Z.leb_spec E 971); cbn [ord cond_Zopp].
    + pose proof (pow2_mul_le 53 (E + K) (1024 + K) ltac:(lia) ltac:(lia) ltac:(lia)).
      nia.
    + pose proof (pow2_mul_ge 52 (E + K) (1024 + K) ltac:(lia) ltac:(lia) ltac:(lia)).
      nia.
Qed.

Lemma ord_round_spec (K : Z) (m : positive) (e : Z) :
  1074 <= K ->
  ord K (round_spec false m e) = Z.min (rval K m e) (2 ^ (1024 + K)).
Proof.
  intros HK. unfold round_spec, rval.
  pose proof (round_grid_le m e _ eq_refl).
  pose proof (round_grid_normal m e _ eq_refl) as Hn.
  set (E := fexp prec emax (Z.pos (digits2_pos m) + e)) in *.
  assert (-1074 <= E) by (unfold E; rewrite fexp_eq; lia).
  apply ord_finish; try assumption.
  destruct (Z.eq_dec E (-1074)); [left; assumption|right; apply Hn; lia].
Qed.

Lemma rval_mono (K : Z) (m1 m2 : positive) (e : Z) :
  1074 <= K -> Z.pos m1 <= Z.pos m2 -> rval K m1 e <= rval K m2 e.
Proof.
  intros HK Hm. unfold rval.
  pose proof (digits2_mono m1 m2 Hm) as Hd.
  pose proof (round_grid_le m1 e _ eq_refl) as H1.
  pose proof (round_grid_le m2 e _ eq_refl) as H2.
  pose proof (round_grid_normal m2 e _ eq_refl) as N2.
  set (E1 := fexp prec emax (Z.pos (digits2_pos m1) + e)) in *.
  set (E2 := fexp prec emax (Z.pos (digits2_pos m2) + e)) in *.
  assert (HE1 : -1074 <= E1) by (unfold E1; rewrite fexp_eq; lia).
  assert (HE : E1 <= E2) by (unfold E1, E2; rewrite !fexp_eq; lia).
  pose proof (pow2_pos (E1 + K) ltac:(lia)).
  destruct (Z.eq_dec E1 E2) as [Heq|Hne].
  - rewrite <- Heq in *.
    assert (round_grid (Z.pos m1) e E1 <= round_grid (Z.pos m2) e E1); [|nia].
    unfold round_grid. destruct (Z.leb_spec E1 e).
    + pose proof (pow2_pos (e - E1) ltac:(lia)). nia.
    + apply rne_mono; lia.
  - specialize (N2 ltac:(lia)).
    replace (E2 + K) with (E1 + K + (E2 - E1)) by lia.
    rewrite (pow2_add (E1 + K) (E2 - E1)) by lia.
    assert (2 ^ 1 <= 2 ^ (E2 - E1)) by (apply pow2_le; lia).
    change (2 ^ 1) with 2 in *.
    assert (round_grid (Z.pos m1) e E1 <= round_grid (Z.pos m2) e E2 * 2 ^ (E2 - E1)) by nia.
    nia.
Qed.

Lemma RN_pos (k : Z) (p : positive) : RN k (Z.pos p) = round_spec false p (- k).
Proof. apply binary_round_spec. Qed.

Lemma RN_neg (k : Z) (p : positive) : RN k (Z.neg p) = SFopp (round_spec false p (- k)).
Proof. unfold RN. cbn [binary_normalize]. now rewrite binary_round_spec, round_spec_opp. Qed.

Lemma SFopp_wf (x : number) : wf x -> wf (SFopp x).
Proof. destruct x; auto. Qed.

Lemma RN_wf (k v : Z) : wf (RN k v).
Proof.
  destruct v as [|p|p]; [reflexivity| |].
  - rewrite RN_pos. apply round_spec_valid.
  - rewrite RN_neg. apply SFopp_wf, round_spec_valid.
Qed.

Lemma round_spec_nonneg (m : positive) (e : Z) : nonneg (round_spec false m e) = true.
Proof.
  unfold round_spec. pose proof (round_grid_le m e _ eq_refl) as Hq.
  unfold finish. destruct (_ =? 2 ^ 53).
  - change (2 ^ 52) with (Z.pos 4503599627370496). destruct (_ <=? 971); reflexivity.
  - destruct (round_grid _ _ _); [reflexivity| |lia]. destruct (_ <=? 971); reflexivity.
Qed.

Lemma nonneg_not_nan (x : number) : nonneg x = true -> is_nan x = false.
Proof. destruct x; auto; discriminate. Qed.

Lemma SFopp_not_nan (x : number) : is_nan (SFopp x) = is_nan x.
Proof. destruct x; reflexivity. Qed.

Lemma RN_not_nan (k v : Z) : is_nan (RN k v) = false.
Proof.
  destruct v as [|p|p]; [reflexivity| |].
  - rewrite RN_pos. apply nonneg_not_nan, round_spec_nonneg.
  - rewrite RN_neg, SFopp_not_nan. apply nonneg_not_nan, round_spec_nonneg.
Qed.

Lemma RN_nonneg (k v : Z) : 0 <= v -> nonneg (RN k v) = true.
Proof.
  destruct v as [|p|p]; intros Hv; [reflexivity| |lia].
  rewrite RN_pos. apply round_spec_nonneg.
Qed.

Lemma ord_opp (K : Z) (x : number) : ord K (SFopp x) = - ord K x.
Proof.
  destruct x as [s|s| |s m e]; try reflexivity; destruct s;
    cbn [SFopp ord cond_Zopp negb]; lia.
Qed.

Lemma ord_nonneg (K : Z) (x : number) : 0 <= K -> nonneg x = true -> 0 <= ord K x.
Proof.
  intros HK Hx.
  destruct x as [s|s| |s m e]; try destruct s; try discriminate;
    cbn [ord cond_Zopp]; try lia;
    first [apply Z.pow_nonneg; lia
          |apply Z.mul_nonneg_nonneg; [lia|apply Z.pow_nonneg; lia]].
Qed.

Lemma ord_RN (K k v : Z) : 1074 <= K -> ord K (RN k v) = rnd K k v.
Proof.
  intros HK. destruct v as [|p|p]; [reflexivity| |].
  - rewrite RN_pos. now apply ord_round_spec.
  - rewrite RN_neg, ord_opp, ord_round_spec by assumption. reflexivity.
Qed.

Lemma rval_nonneg (K : Z) (m : positive) (e : Z) : 1074 <= K -> 0 <= rval K m e.
Proof.
  intros HK. unfold rval. pose proof (round_grid_le m e _ eq_refl).
  set (E := fexp prec emax (Z.pos (digits2_pos m) + e)) in *.
  assert (-1074 <= E) by (unfold E; rewrite fexp_eq; lia).
  pose proof (pow2_pos (E + K) ltac:(lia)). nia.
Qed.

Lemma rnd_mono (K k v1 v2 : Z) : 1074 <= K -> v1 <= v2 -> rnd K k v1 <= rnd K k v2.
Proof.
  intros HK Hv.
  pose proof (pow2_pos (1024 + K) ltac:(lia)).
  destruct v1 as [|p1|p1], v2 as [|p2|p2]; cbn [rnd]; try lia;
    try pose proof (rval_nonneg K p1 (- k) HK);
    try pose proof (rval_nonneg K p2 (- k) HK); try lia.
  - pose proof (rval_mono K p1 p2 (- k) HK ltac:(lia)). lia.
  - pose proof (rval_mono K p2 p1 (- k) HK ltac:(lia)). lia.
Qed.

Theorem RN_mono (k v1 v2 : Z) : v1 <= v2 -> SFleb (RN k v1) (RN k v2) = true.
Proof.
  intros Hv.
  apply (SFleb_ord 1074); try apply RN_wf; try apply RN_not_nan; try lia.
  rewrite !ord_RN by lia. apply rnd_mono; lia.
Qed.

Lemma RN_scale (k j v : Z) : 0 <= j -> RN (k + j) (v * 2 ^ j) = RN k v.
Proof.
  intros Hj. pose proof (pow2_pos j Hj) as Hp.
  destruct v as [|p|p].
  - reflexivity.
  - destruct (Z.pos p * 2 ^ j) as [|q|q] eqn:Hq; try lia.
    rewrite !RN_pos. replace (- (k + j)) with (- k - j) by lia.
    apply round_spec_scale; [assumption|lia].
  - destruct (Z.neg p * 2 ^ j) as [|q|q] eqn:Hq; try lia.
    rewrite !RN_neg. f_equal. replace (- (k + j)) with (- k - j) by lia.
    apply round_spec_scale; [assumption|lia].
Qed.

Lemma RN_exact (K : Z) (x : number) :
  1074 <= K -> wf x -> is_finite x = true -> is_zero x = false ->
  RN K (ord K x) = x.
Proof.
  intros HK Hx Hf Hz. destruct x as [s|s| |s m e]; try discriminate.
  pose proof (wf_finite_bounds s m e K Hx HK) as (He & _ & _ & Hv).
  cbn [ord].
  replace (cond_Zopp s (Z.pos m * 2 ^ (e + K)))
    with (cond_Zopp s (Z.pos m) * 2 ^ (e + K)) by (destruct s; cbn [cond_Zopp]; lia).
  replace K with (- e + (e + K)) at 1 by lia.
  rewrite RN_scale by lia.
  destruct s; cbn [cond_Zopp].
  - change (- Z.pos m) with (Z.neg m). rewrite RN_neg, Z.opp_involutive.
    rewrite round_spec_exact by exact Hx. reflexivity.
  - rewrite RN_pos, Z.opp_involutive. apply round_spec_exact. exact Hx.
Qed.

Lemma shl_align_fst (m : positive) (e e' : Z) :
  e' <= e -> Z.pos (fst (shl_align m e e')) = Z.pos m * 2 ^ (e - e').
Proof.
  intros He. unfold shl_align.
  destruct (e' - e) as [|d|d] eqn:Hd; try lia; cbn [fst].
  - replace (e - e') with 0 by lia. simpl. lia.
  - rewrite shift_xO. f_equal. f_equal. lia.
Qed.

Lemma ord_scaled (K : Z) (s : bool) (m : positive) (e : Z) :
  ord K (S754_finite s m e) = cond_Zopp s (Z.pos m) * 2 ^ (e + K).
Proof. destruct s; cbn [ord cond_Zopp]; lia. Qed.

Lemma add_aligned (K : Z) (sx sy : bool) (mx my : positive) (ex ey : Z) (sgn : Z) :
  1074 <= K -> -1074 <= ex -> -1074 <= ey ->
  (cond_Zopp sx (Z.pos (fst (shl_align mx ex (Z.min ex ey)))) +
   sgn * cond_Zopp sy (Z.pos (fst (shl_align my ey (Z.min ex ey))))) *
  2 ^ (Z.min ex ey + K) =
  ord K (S754_finite sx mx ex) + sgn * ord K (S754_finite sy my ey).
Proof.
  intros HK Hx Hy.
  rewrite !ord_scaled, !shl_align_fst by lia.
  set (z := Z.min ex ey).
  replace (2 ^ (ex + K)) with (2 ^ (ex - z) * 2 ^ (z + K))
    by (rewrite <- pow2_add by lia; f_equal; lia).
  replace (2 ^ (ey + K)) with (2 ^ (ey - z) * 2 ^ (z + K))
    by (rewrite <- pow2_add by lia; f_equal; lia).
  destruct sx, sy; cbn [cond_Zopp]; ring.
Qed.

Lemma SFadd_finite (K : Z) (x y : number) :
  1074 <= K -> wf x -> wf y -> is_finite x = true -> is_finite y = true ->
  is_zero x && is_zero y = false ->
  SFadd prec emax x y = RN K (ord K x + ord K y).
Proof.
  intros HK Hx Hy Fx Fy Hz.
  destruct x as [sx|sx| |sx mx ex], y as [sy|sy| |sy my ey]; try discriminate.
  - cbn [SFadd]. rewrite Z.add_0_l, RN_exact by (auto; lia). reflexivity.
  - cbn [SFadd]. change (ord K (S754_zero sy)) with 0.
    rewrite Z.add_0_r, RN_exact by (auto; lia). reflexivity.
  - pose proof (wf_finite_bounds _ _ _ K Hx HK) as (Hex & _).
    pose proof (wf_finite_bounds _ _ _ K Hy HK) as (Hey & _).
    cbn [SFadd].
    pose proof (add_aligned K sx sy mx my ex ey 1 HK ltac:(lia) ltac:(lia)) as Ha.
    rewrite !Z.mul_1_l in Ha. rewrite <- Ha.
    set (M := _ + _).
    transitivity (RN (- Z.min ex ey) M).
    { unfold RN. rewrite Z.opp_involutive. reflexivity. }
    rewrite <- (RN_scale (- Z.min ex ey) (Z.min ex ey + K) M) by lia.
    f_equal. lia.
Qed.

Lemma SFsub_finite (K : Z) (x y : number) :
  1074 <= K -> wf x -> wf y -> is_finite x = true -> is_finite y = true ->
  is_zero x && is_zero y = false ->
  SFsub prec emax x y = RN K (ord K x - ord K y).
Proof.
  intros HK Hx Hy Fx Fy Hz.
  destruct x as [sx|sx| |sx mx ex], y as [sy|sy| |sy my ey]; try discriminate.
  - cbn [SFsub]. rewrite Z.sub_0_l, <- ord_opp.
    rewrite RN_exact; auto; try lia.
  - cbn [SFsub]. change (ord K (S754_zero sy)) with 0.
    rewrite Z.sub_0_r, RN_exact by (auto; lia). reflexivity.
  - pose proof (wf_finite_bounds _ _ _ K Hx HK) as (Hex & _).
    pose proof (wf_finite_bounds _ _ _ K Hy HK) as (Hey & _).
    cbn [SFsub].
    pose proof (add_aligned K sx sy mx my ex ey (-1) HK ltac:(lia) ltac:(lia)) as Ha.
    replace (ord K (S754_finite sx mx ex) - ord K (S754_finite sy my ey))
      with (ord K (S754_finite sx mx ex) + -1 * ord K (S754_finite sy my ey)) by lia.
    rewrite <- Ha.
    set (M := _ + _ * _).
    transitivity (RN (- Z.min ex ey) M).
    { unfold RN. rewrite Z.opp_involutive. f_equal; try (unfold M; lia). }
    rewrite <- (RN_scale (- Z.min ex ey) (Z.min ex ey + K) M) by lia.
    f_equal. lia.
Qed.

Lemma digits2_mul (mx my : positive) :
  Z.pos (digits2_pos mx) + Z.pos (digits2_pos my) - 1 <= Z.pos (digits2_pos (mx * my)).
Proof.
  pose proof (digits2_pos_bounds mx) as [Bx _].
  pose proof (digits2_pos_bounds my) as [By _].
  pose proof (digits2_pos_bounds (mx * my)) as [_ Bxy].
  destruct (Z_lt_le_dec (Z.pos (digits2_pos (mx * my)))
              (Z.pos (digits2_pos mx) + Z.pos (digits2_pos my) - 1)); [|assumption].
  assert (2 ^ Z.pos (digits2_pos (mx * my))
          <= 2 ^ (Z.pos (digits2_pos mx) - 1 + (Z.pos (digits2_pos my) - 1)))
    by (apply pow2_le; lia).
  rewrite pow2_add in H by lia. rewrite Pos2Z.inj_mul in Bxy. nia.
Qed.

Lemma SFmul_finite (K : Z) (x y : number) :
  1074 <= K -> wf x -> wf y -> is_finite x = true -> is_finite y = true ->
  is_zero x = false -> is_zero y = false ->
  SFmul prec emax x y = RN (K + K) (ord K x * ord K y).
Proof.
  intros HK Hx Hy Fx Fy Zx Zy.
  destruct x as [sx|sx| |sx mx ex], y as [sy|sy| |sy my ey]; try discriminate.
  pose proof (wf_finite_bounds _ _ _ K Hx HK) as (Hex & _).
  pose proof (wf_finite_bounds _ _ _ K Hy HK) as (Hey & _).
  pose proof (digits2_mul mx my) as Hd.
  assert (Hcx := Hx). assert (Hcy := Hy).
  unfold wf in Hcx, Hcy. cbn [valid_binary] in Hcx, Hcy.
  apply bounded_iff in Hcx, Hcy.
  cbn [SFmul]. rewrite binary_round_aux_spec by (rewrite fexp_eq; lia).
  rewrite !ord_scaled.
  replace (cond_Zopp sx (Z.pos mx) * 2 ^ (ex + K) *
           (cond_Zopp sy (Z.pos my) * 2 ^ (ey + K)))
    with (cond_Zopp (xorb sx sy) (Z.pos (mx * my)) * 2 ^ (ex + ey + (K + K))).
  - replace (K + K) with (- (ex + ey) + (ex + ey + (K + K))) at 1 by lia.
    rewrite (RN_scale (- (ex + ey)) (ex + ey + (K + K))) by lia.
    destruct (xorb sx sy); cbn [cond_Zopp].
    + change (- Z.pos (mx * my)) with (Z.neg (mx * my)).
      rewrite RN_neg, Z.opp_involutive. apply round_spec_opp.
    + rewrite RN_pos, Z.opp_involutive. reflexivity.
  - replace (ex + ey + (K + K)) with (ex + K + (ey + K)) by lia.
    rewrite pow2_add by lia. rewrite Pos2Z.inj_mul.
    destruct sx, sy; cbn [xorb cond_Zopp]; lia.
Qed.

(** * Part V: the operations of the program *)

(** ** Facts about the operations on numbers *)

Section Scale.

(** Values are measured in multiples of [2^-K], for any [K] that makes every
    finite number an integer. *)
Variable K : Z.
Hypothesis HK : 1074 <= K.

Lemma Z2F_RN (n : Z) : Z2F n = RN 0 n.
Proof. reflexivity. Qed.

Lemma Z2F_wf (n : Z) : wf (Z2F n).
Proof. rewrite Z2F_RN. apply RN_wf. Qed.

Lemma Z2F_not_nan (n : Z) : is_nan (Z2F n) = false.
Proof. rewrite Z2F_RN. apply RN_not_nan. Qed.

Lemma rval_exact (k : Z) (p : positive) :
  0 <= k <= 1074 -> Z.pos p < 2 ^ 53 ->
  rval K p (- k) = Z.pos p * 2 ^ (K - k).
Proof.
  intros Hk Hp. unfold rval. rewrite fexp_eq.
  pose proof (Zdigits2_le53 (Z.pos p) ltac:(lia)) as Hd. cbn [Zdigits2] in Hd.
  set (E := Z.max (Z.pos (digits2_pos p) + - k - 53) (-1074)).
  assert (HE : -1074 <= E <= - k) by (unfold E; lia).
  unfold round_grid. destruct (Z.leb_spec E (- k)); [|lia].
  rewrite <- Z.mul_assoc, <- pow2_add by lia. do 2 f_equal. lia.
Qed.

Lemma rnd_exact (k v : Z) :
  0 <= k <= 1074 -> - 2 ^ 53 < v < 2 ^ 53 ->
  rnd K k v = v * 2 ^ (K - k).
Proof.
  intros Hk Hv.
  assert (Hsat : forall p, Z.pos p < 2 ^ 53 ->
            Z.min (rval K p (- k)) (2 ^ (1024 + K)) = Z.pos p * 2 ^ (K - k)).
  { intros p Hp. rewrite rval_exact by assumption.
    pose proof (pow2_pos (K - k) ltac:(lia)).
    pose proof (pow2_mul_le 53 (K - k) (1024 + K) ltac:(lia) ltac:(lia) ltac:(lia)).
    nia. }
  destruct v as [|p|p]; cbn [rnd].
  - reflexivity.
  - apply Hsat. lia.
  - rewrite Hsat by lia. lia.
Qed.

Lemma ord_Z2F (n : Z) : - 2 ^ 53 < n < 2 ^ 53 -> ord K (Z2F n) = n * 2 ^ K.
Proof.
  intros Hn. rewrite Z2F_RN, ord_RN by lia.
  rewrite rnd_exact by lia. now rewrite Z.sub_0_r.
Qed.

Lemma finite_of_ord (x : number) :
  is_nan x = false -> - 2 ^ (1024 + K) < ord K x < 2 ^ (1024 + K) ->
  is_finite x = true.
Proof.
  intros Hn Ho. destruct x as [s|s| |s m e]; try reflexivity; try discriminate.
  destruct s; cbn [ord cond_Zopp] in Ho; lia.
Qed.

Lemma Z2F_finite (n : Z) : - 2 ^ 53 < n < 2 ^ 53 -> is_finite (Z2F n) = true.
Proof.
  intros Hn. apply finite_of_ord; [apply Z2F_not_nan|].
  rewrite ord_Z2F by assumption.
  pose proof (pow2_pos K ltac:(lia)).
  pose proof (pow2_mul_le 54 K (1024 + K) ltac:(lia) ltac:(lia) ltac:(lia)).
  nia.
Qed.

Lemma is_zero_ord (x : number) :
  wf x -> is_finite x = true -> (is_zero x = true <-> ord K x = 0).
Proof.
  intros Hx Hf. destruct x as [s|s| |s m e]; try discriminate.
  - split; reflexivity.
  - pose proof (wf_finite_bounds s m e K Hx HK) as (_ & _ & _ & Hv).
    split; [discriminate|]. destruct s; cbn [ord cond_Zopp]; lia.
Qed.

Lemma Z2F_compare (a b : Z) :
  - 2 ^ 53 < a < 2 ^ 53 -> - 2 ^ 53 < b < 2 ^ 53 ->
  SFcompare (Z2F a) (Z2F b) = Some (a ?= b).
Proof.
  intros Ha Hb.
  rewrite (ord_compare K) by (try apply Z2F_wf; try apply Z2F_not_nan; lia).
  rewrite !ord_Z2F by assumption. f_equal.
  pose proof (pow2_pos K ltac:(lia)).
  destruct (Z.compare_spec a b); [apply Z.compare_eq_iff|apply Z.compare_lt_iff
                                 |apply Z.compare_gt_iff]; nia.
Qed.

Lemma Z2F_ltb (a b : Z) :
  - 2 ^ 53 < a < 2 ^ 53 -> - 2 ^ 53 < b < 2 ^ 53 -> SFltb (Z2F a) (Z2F b) = (a <? b).
Proof.
  intros Ha Hb. unfold SFltb, Z.ltb. rewrite Z2F_compare by assumption. reflexivity.
Qed.

Lemma Z2F_eqb (a b : Z) :
  - 2 ^ 53 < a < 2 ^ 53 -> - 2 ^ 53 < b < 2 ^ 53 -> SFeqb (Z2F a) (Z2F b) = (a =? b).
Proof.
  intros Ha Hb. unfold SFeqb. rewrite Z2F_compare by assumption.
  destruct (Z.compare_spec a b); symmetry;
    [apply Z.eqb_eq|apply Z.eqb_neq|apply Z.eqb_neq]; lia.
Qed.

Lemma Z2F_sub (a b : Z) :
  - 2 ^ 52 < a < 2 ^ 52 -> - 2 ^ 52 < b < 2 ^ 52 -> sub (Z2F a) (Z2F b) = Z2F (a - b).
Proof.
  intros Ha Hb. unfold sub.
  destruct (is_zero (Z2F a) && is_zero (Z2F b)) eqn:Hz.
  - apply andb_true_iff in Hz. destruct Hz as [Hza Hzb].
    apply (is_zero_ord) in Hza, Hzb;
      try apply Z2F_wf; try apply Z2F_finite; try lia.
    rewrite ord_Z2F in Hza, Hzb by lia.
    pose proof (pow2_pos K ltac:(lia)).
    assert (a = 0) by nia. assert (b = 0) by nia. subst. reflexivity.
  - rewrite (SFsub_finite K); try apply Z2F_wf; try apply Z2F_finite; try lia; try assumption.
    rewrite !ord_Z2F by lia.
    replace (a * 2 ^ K - b * 2 ^ K) with ((a - b) * 2 ^ K) by lia.
    rewrite Z2F_RN. apply (RN_scale 0 K). lia.
Qed.

(** *** Order facts that need no arithmetic *)

Lemma SFleb_not_nan (x y : number) :
  SFleb x y = true -> is_nan x = false /\ is_nan y = false.
Proof. destruct x, y; try discriminate; auto. Qed.

Lemma SFleb_pinf (x : number) : is_nan x = false -> SFleb x (S754_infinity false) = true.
Proof. destruct x as [s|[|]| |s m e]; try discriminate; reflexivity. Qed.

Lemma SFleb_ninf (x : number) : is_nan x = false -> SFleb (S754_infinity true) x = true.
Proof. destruct x as [s|[|]| |s m e]; try discriminate; reflexivity. Qed.

Lemma nonneg_cases (x : number) :
  nonneg x = true -> is_finite x = true \/ x = S754_infinity false.
Proof. destruct x as [s|[|]| |s m e]; try discriminate; auto. Qed.

Lemma not_nan_cases (x : number) :
  is_nan x = false ->
  is_finite x = true \/ x = S754_infinity false \/ x = S754_infinity true.
Proof. destruct x as [s|[|]| |s m e]; try discriminate; auto. Qed.

Lemma finite_not_nan (x : number) : is_finite x = true -> is_nan x = false.
Proof. destruct x; try discriminate; reflexivity. Qed.

Lemma ord_lt_inf (x : number) :
  wf x -> is_finite x = true ->
  - 2 ^ (1024 + K) < ord K x < 2 ^ (1024 + K).
Proof.
  intros Hx Hf. pose proof (pow2_pos (1024 + K) ltac:(lia)).
  destruct x as [s|s| |s m e]; try discriminate; [cbn [ord]; lia|].
  pose proof (wf_finite_bounds s m e K Hx HK) as (_ & _ & _ & Hv).
  destruct s; cbn [ord cond_Zopp]; lia.
Qed.

(** Below a finite number there are finite numbers and negative infinity. *)
Lemma SFleb_finite_r (x y : number) :
  wf x -> wf y -> SFleb x y = true -> is_finite y = true ->
  is_finite x = true \/ x = S754_infinity true.
Proof.
  intros Hx Hy Hle Hf. destruct (SFleb_not_nan _ _ Hle) as [Nx Ny].
  destruct (not_nan_cases x Nx) as [|[ -> | -> ]]; auto.
  apply (SFleb_ord K) in Hle; auto; try lia.
  pose proof (ord_lt_inf y Hy Hf). cbn [ord cond_Zopp] in Hle. lia.
Qed.

Lemma SFleb_finite_l (x y : number) :
  wf x -> wf y -> SFleb x y = true -> is_finite x = true ->
  is_finite y = true \/ y = S754_infinity false.
Proof.
  intros Hx Hy Hle Hf. destruct (SFleb_not_nan _ _ Hle) as [Nx Ny].
  destruct (not_nan_cases y Ny) as [|[ -> | -> ]]; auto.
  apply (SFleb_ord K) in Hle; auto; try lia.
  pose proof (ord_lt_inf x Hx Hf). cbn [ord cond_Zopp] in Hle. lia.
Qed.

Lemma SFleb_trans (x y z : number) :
  wf x -> wf y -> wf z -> SFleb x y = true -> SFleb y z = true -> SFleb x z = true.
Proof.
  intros Hx Hy Hz Hxy Hyz.
  destruct (SFleb_not_nan _ _ Hxy) as [Nx Ny].
  destruct (SFleb_not_nan _ _ Hyz) as [_ Nz].
  apply (SFleb_ord K) in Hxy, Hyz; auto; try lia.
  apply (SFleb_ord K); auto; lia.
Qed.

Lemma SFleb_refl (x : number) : wf x -> is_nan x = false -> SFleb x x = true.
Proof. intros Hx Nx. apply (SFleb_ord K); auto; lia. Qed.

Lemma SFltb_ord_b (x y : number) :
  wf x -> wf y -> is_nan x = false -> is_nan y = false ->
  SFltb x y = (ord K x <? ord K y).
Proof.
  intros Hx Hy Nx Ny. unfold SFltb, Z.ltb. now rewrite (ord_compare K x y).
Qed.

Lemma SFleb_ord_b (x y : number) :
  wf x -> wf y -> is_nan x = false -> is_nan y = false ->
  SFleb x y = (ord K x <=? ord K y).
Proof.
  intros Hx Hy Nx Ny. unfold SFleb, Z.leb. rewrite (ord_compare K x y) by assumption.
  destruct (ord K x ?= ord K y); reflexivity.
Qed.

Lemma ord_shift (j : Z) (x : number) :
  0 <= j -> wf x -> ord (K + j) x = ord K x * 2 ^ j.
Proof.
  intros Hj Hx. destruct x as [s|s| |s m e]; try reflexivity.
  - cbn [ord]. replace (1024 + (K + j)) with (1024 + K + j) by lia.
    rewrite pow2_add by lia. destruct s; cbn [cond_Zopp]; lia.
  - pose proof (wf_finite_bounds s m e K Hx HK) as (He & _).
    cbn [ord]. replace (e + (K + j)) with (e + K + j) by lia.
    rewrite pow2_add by lia. destruct s; cbn [cond_Zopp]; lia.
Qed.

Lemma rnd_shift (j k v : Z) :
  0 <= j -> rnd (K + j) k v = rnd K k v * 2 ^ j.
Proof.
  intros Hj. rewrite <- !ord_RN by lia. apply ord_shift; auto. apply RN_wf.
Qed.

(** *** Addition *)

Lemma add_finite_ord (x y : number) :
  wf x -> wf y -> is_finite x = true -> is_finite y = true ->
  wf (add x y) /\ is_nan (add x y) = false /\
  ord K (add x y) = rnd K K (ord K x + ord K y).
Proof.
  intros Hx Hy Fx Fy. unfold add.
  destruct (is_zero x && is_zero y) eqn:Hz.
  - destruct x as [sx| | |], y as [sy| | |]; try discriminate.
    destruct sx, sy; repeat split.
  - rewrite (SFadd_finite K) by assumption.
    repeat split; [apply RN_wf|apply RN_not_nan|apply ord_RN; lia].
Qed.

Lemma add_nonneg (x y : number) :
  wf x -> wf y -> nonneg x = true -> nonneg y = true ->
  wf (add x y) /\ nonneg (add x y) = true.
Proof.
  intros Hx Hy Nx Ny. unfold add.
  destruct (nonneg_cases x Nx) as [Fx | ->], (nonneg_cases y Ny) as [Fy | ->].
  - destruct (is_zero x && is_zero y) eqn:Hz.
    + destruct x as [[|]| | |], y as [[|]| | |]; try discriminate. split; reflexivity.
    + rewrite (SFadd_finite K) by assumption. split; [apply RN_wf|].
      apply RN_nonneg.
      pose proof (ord_nonneg K x ltac:(lia) Nx).
      pose proof (ord_nonneg K y ltac:(lia) Ny). lia.
  - destruct x as [[|]| | |[|]]; try discriminate; split; reflexivity.
  - destruct y as [[|]| | |[|]]; try discriminate; split; reflexivity.
  - split; reflexivity.
Qed.

Lemma nonneg_finite_le (x y : number) :
  wf x -> wf y -> nonneg x = true -> SFleb x y = true -> is_finite y = true ->
  is_finite x = true.
Proof.
  intros Hx Hy Nx Hle Fy.
  destruct (SFleb_finite_r x y Hx Hy Hle Fy) as [| ->]; [assumption|discriminate].
Qed.

Lemma add_mono (x1 x2 y1 y2 : number) :
  wf x1 -> wf x2 -> wf y1 -> wf y2 ->
  nonneg x1 = true -> nonneg x2 = true -> nonneg y1 = true -> nonneg y2 = true ->
  SFleb x1 x2 = true -> SFleb y1 y2 = true ->
  SFleb (add x1 y1) (add x2 y2) = true.
Proof.
  intros Wx1 Wx2 Wy1 Wy2 Nx1 Nx2 Ny1 Ny2 Hx Hy.
  destruct (add_nonneg x1 y1 Wx1 Wy1 Nx1 Ny1) as [W1 N1].
  destruct (nonneg_cases x2 Nx2) as [Fx2| ->], (nonneg_cases y2 Ny2) as [Fy2| ->].
  - pose proof (nonneg_finite_le x1 x2 Wx1 Wx2 Nx1 Hx Fx2) as Fx1.
    pose proof (nonneg_finite_le y1 y2 Wy1 Wy2 Ny1 Hy Fy2) as Fy1.
    destruct (add_finite_ord x1 y1 Wx1 Wy1 Fx1 Fy1) as (Wa & Na & Oa).
    destruct (add_finite_ord x2 y2 Wx2 Wy2 Fx2 Fy2) as (Wb & Nb & Ob).
    apply (SFleb_ord K); auto; try lia.
    rewrite Oa, Ob. apply rnd_mono; [lia|].
    apply (SFleb_ord K) in Hx, Hy; auto using finite_not_nan; lia.
  - replace (add x2 (S754_infinity false)) with (S754_infinity false)
      by (destruct x2 as [[|]|[|]| |[|]]; try discriminate; reflexivity).
    apply SFleb_pinf, nonneg_not_nan, N1.
  - replace (add (S754_infinity false) y2) with (S754_infinity false)
      by (destruct y2 as [[|]|[|]| |[|]]; try discriminate; reflexivity).
    apply SFleb_pinf, nonneg_not_nan, N1.
  - apply SFleb_pinf, nonneg_not_nan, N1.
Qed.

(** *** Multiplication by a positive finite constant *)

Section MulConst.

Variable c : number.
Hypothesis c_wf : wf c.
Hypothesis c_finite : is_finite c = true.
Hypothesis c_pos : 0 < ord K c.

Lemma c_not_zero : is_zero c = false.
Proof.
  destruct (is_zero c) eqn:Hz; [|reflexivity].
  apply (is_zero_ord) in Hz; auto; lia.
Qed.

Lemma mul_const_ord (x : number) :
  wf x -> is_finite x = true ->
  wf (mul x c) /\ is_nan (mul x c) = false /\
  ord (K + K) (mul x c) = rnd (K + K) (K + K) (ord K x * ord K c).
Proof.
  intros Hx Fx. unfold mul. pose proof c_not_zero as Hz.
  destruct (is_zero x) eqn:Hzx.
  - destruct x as [sx| | |]; try discriminate.
    destruct c as [|sc| |sc mc ec]; try discriminate. repeat split.
  - rewrite (SFmul_finite K) by assumption.
    repeat split; [apply RN_wf|apply RN_not_nan|apply ord_RN; lia].
Qed.

Lemma mul_const_inf (s : bool) : mul (S754_infinity s) c = S754_infinity s.
Proof.
  pose proof c_pos as Hp.
  destruct c as [|sc| |[|] mc ec]; try discriminate; cbn [ord cond_Zopp] in Hp;
    try lia; destruct s; reflexivity.
Qed.

Lemma mul_const_wf (x : number) : wf x -> wf (mul x c).
Proof.
  intros Hx. destruct x as [sx|sx| |sx mx ex] eqn:E.
  - apply mul_const_ord; auto.
  - rewrite mul_const_inf. reflexivity.
  - reflexivity.
  - apply mul_const_ord; auto.
Qed.

Lemma mul_const_not_nan (x : number) : wf x -> is_nan x = false -> is_nan (mul x c) = false.
Proof.
  intros Hx Nx. destruct (not_nan_cases x Nx) as [Fx|[ -> | -> ]].
  - apply mul_const_ord; auto.
  - now rewrite mul_const_inf.
  - now rewrite mul_const_inf.
Qed.

Lemma mul_const_nonneg (x : number) : wf x -> nonneg x = true -> nonneg (mul x c) = true.
Proof.
  intros Hx Nx. destruct (nonneg_cases x Nx) as [Fx| ->].
  - unfold mul. pose proof c_not_zero as Hz. destruct (is_zero x) eqn:Hzx.
    + destruct x as [[|]| | |]; try discriminate.
      pose proof c_pos as Hp.
      destruct c as [|sc| |[|] mc ec]; try discriminate; cbn [ord cond_Zopp] in Hp;
        try lia; reflexivity.
    + rewrite (SFmul_finite K) by assumption. apply RN_nonneg.
      pose proof (ord_nonneg K x ltac:(lia) Nx). nia.
  - now rewrite mul_const_inf.
Qed.

Lemma mul_const_mono (x1 x2 : number) :
  wf x1 -> wf x2 -> SFleb x1 x2 = true -> SFleb (mul x1 c) (mul x2 c) = true.
Proof.
  intros W1 W2 Hle. destruct (SFleb_not_nan _ _ Hle) as [N1 N2].
  pose proof (mul_const_not_nan x1 W1 N1) as M1.
  pose proof (mul_const_not_nan x2 W2 N2) as M2.
  destruct (not_nan_cases x2 N2) as [F2|[ -> | -> ]].
  - destruct (SFleb_finite_r x1 x2 W1 W2 Hle F2) as [F1| ->].
    + destruct (mul_const_ord x1 W1 F1) as (Wa & Na & Oa).
      destruct (mul_const_ord x2 W2 F2) as (Wb & Nb & Ob).
      apply (SFleb_ord (K + K)); auto; try lia.
      rewrite Oa, Ob. apply rnd_mono; [lia|].
      apply (SFleb_ord K) in Hle; auto; try lia. nia.
    + rewrite mul_const_inf. now apply SFleb_ninf.
  - rewrite mul_const_inf. now apply SFleb_pinf.
  - destruct (not_nan_cases x1 N1) as [F1|[ -> | -> ]].
    + apply (SFleb_ord K) in Hle; auto; try lia.
      pose proof (ord_lt_inf x1 W1 F1). cbn [ord cond_Zopp] in Hle. lia.
    + discriminate.
    + rewrite mul_const_inf. reflexivity.
Qed.

End MulConst.

(** *** Subtraction from a finite constant *)

Lemma sub_finite_ord (x y : number) :
  wf x -> wf y -> is_finite x = true -> is_finite y = true ->
  wf (sub x y) /\ is_nan (sub x y) = false /\
  ord K (sub x y) = rnd K K (ord K x - ord K y).
Proof.
  intros Hx Hy Fx Fy. unfold sub.
  destruct (is_zero x && is_zero y) eqn:Hz.
  - destruct x as [sx| | |], y as [sy| | |]; try discriminate.
    destruct sx, sy; repeat split.
  - rewrite (SFsub_finite K) by assumption.
    repeat split; [apply RN_wf|apply RN_not_nan|apply ord_RN; lia].
Qed.

Lemma sub_const_inf (c : number) (s : bool) :
  is_finite c = true -> sub c (S754_infinity s) = S754_infinity (negb s).
Proof. destruct c; try discriminate; reflexivity. Qed.

Lemma sub_const_not_nan (c y : number) :
  wf c -> wf y -> is_finite c = true -> is_nan y = false ->
  wf (sub c y) /\ is_nan (sub c y) = false.
Proof.
  intros Hc Hy Fc Ny. destruct (not_nan_cases y Ny) as [Fy|[ -> | -> ]].
  - destruct (sub_finite_ord c y Hc Hy Fc Fy) as (W & N & _). auto.
  - rewrite sub_const_inf by assumption. split; reflexivity.
  - rewrite sub_const_inf by assumption. split; reflexivity.
Qed.

Lemma sub_const_mono (c y1 y2 : number) :
  wf c -> is_finite c = true -> wf y1 -> wf y2 ->
  SFleb y1 y2 = true -> SFleb (sub c y2) (sub c y1) = true.
Proof.
  intros Hc Fc W1 W2 Hle. destruct (SFleb_not_nan _ _ Hle) as [N1 N2].
  destruct (sub_const_not_nan c y1 Hc W1 Fc N1) as [Wa Na].
  destruct (sub_const_not_nan c y2 Hc W2 Fc N2) as [Wb Nb].
  destruct (not_nan_cases y2 N2) as [F2|[ -> | -> ]].
  - destruct (SFleb_finite_r y1 y2 W1 W2 Hle F2) as [F1| ->].
    + destruct (sub_finite_ord c y1 Hc W1 Fc F1) as (_ & _ & Oa).
      destruct (sub_finite_ord c y2 Hc W2 Fc F2) as (_ & _ & Ob).
      apply (SFleb_ord K); auto; try lia.
      rewrite Oa, Ob. apply rnd_mono; [lia|].
      apply (SFleb_ord K) in Hle; auto; lia.
    + rewrite (sub_const_inf c true) by assumption. now apply SFleb_pinf.
  - rewrite (sub_const_inf c false) by assumption. now apply SFleb_ninf.
  - destruct (not_nan_cases y1 N1) as [F1|[ -> | -> ]].
    + apply (SFleb_ord K) in Hle; auto; try lia.
      pose proof (ord_lt_inf y1 W1 F1). cbn [ord cond_Zopp] in Hle. lia.
    + discriminate.
    + apply SFleb_refl; assumption.
Qed.

(** *** Math.max(0, x), the clamp and Math.round *)

Lemma pos_ord_nonneg (x : number) : wf x -> 0 < ord K x -> nonneg x = true.
Proof.
  intros Hx Ho. destruct x as [s|s| |s m e]; cbn [ord] in Ho; try lia.
  - destruct s; [|reflexivity]. cbn [cond_Zopp] in Ho.
    pose proof (pow2_pos (1024 + K) ltac:(lia)). lia.
  - pose proof (wf_finite_bounds s m e K Hx HK) as (_ & _ & _ & Hv).
    destruct s; [|reflexivity]. cbn [cond_Zopp] in Ho. lia.
Qed.

Lemma Math_max_0 (x : number) :
  is_nan x = false ->
  Math_max (Z2F 0) x = if SFltb (Z2F 0) x then x else Z2F 0.
Proof.
  intros Nx. unfold Math_max. rewrite Nx. change (Z2F 0) with (S754_zero false).
  destruct x as [s|s| |s m e]; reflexivity.
Qed.

Lemma max0_spec (x : number) :
  wf x -> is_nan x = false ->
  wf (Math_max (Z2F 0) x) /\ nonneg (Math_max (Z2F 0) x) = true /\
  ord K (Math_max (Z2F 0) x) = Z.max 0 (ord K x).
Proof.
  intros Hx Nx. rewrite Math_max_0 by assumption.
  destruct (SFltb (Z2F 0) x) eqn:Hlt.
  - apply (SFltb_ord K) in Hlt; auto using Z2F_wf, Z2F_not_nan; try lia.
    change (ord K (Z2F 0)) with 0 in Hlt.
    repeat split; [assumption|now apply pos_ord_nonneg|lia].
  - assert (~ ord K (Z2F 0) < ord K x) as Hge.
    { intros H. apply (SFltb_ord K) in H; auto using Z2F_wf, Z2F_not_nan; try lia.
      congruence. }
    change (ord K (Z2F 0)) with 0 in *.
    repeat split. lia.
Qed.

Lemma max0_mono (x1 x2 : number) :
  wf x1 -> wf x2 -> SFleb x1 x2 = true ->
  SFleb (Math_max (Z2F 0) x1) (Math_max (Z2F 0) x2) = true.
Proof.
  intros W1 W2 Hle. destruct (SFleb_not_nan _ _ Hle) as [N1 N2].
  destruct (max0_spec x1 W1 N1) as (Wa & Na & Oa).
  destruct (max0_spec x2 W2 N2) as (Wb & Nb & Ob).
  apply (SFleb_ord K); auto using nonneg_not_nan.
  apply (SFleb_ord K) in Hle; auto. lia.
Qed.

Lemma positive_ord (c : number) :
  wf c -> is_finite c = true -> nonneg c = true -> is_zero c = false -> 0 < ord K c.
Proof.
  intros Wc Fc Nc Zc. destruct c as [s|s| |[|] m e]; try discriminate.
  pose proof (wf_finite_bounds false m e K Wc HK) as (_ & _ & _ & Hv).
  cbn [ord cond_Zopp]. lia.
Qed.

Lemma Math_min_100 (y : number) :
  is_nan y = false ->
  Math_min (Z2F 100) y = if SFltb y (Z2F 100) then y else Z2F 100.
Proof.
  intros Ny. unfold Math_min. rewrite Ny.
  change (Z2F 100) with (S754_finite false 7036874417766400 (-46)).
  destruct y as [s|s| |s m e]; reflexivity.
Qed.

Lemma clamp_spec (x : number) :
  wf x -> is_nan x = false ->
  wf (clamp x) /\ nonneg (clamp x) = true /\ is_finite (clamp x) = true /\
  ord K (clamp x) = Z.min (100 * 2 ^ K) (Z.max 0 (ord K x)).
Proof.
  intros Hx Nx. unfold clamp.
  destruct (max0_spec x Hx Nx) as (Wy & Ny & Oy).
  set (y := Math_max (Z2F 0) x) in *.
  pose proof (nonneg_not_nan y Ny) as Nn.
  rewrite Math_min_100 by assumption.
  assert (H100 : ord K (Z2F 100) = 100 * 2 ^ K) by (apply ord_Z2F; lia).
  destruct (SFltb y (Z2F 100)) eqn:Hlt.
  - apply (SFltb_ord K) in Hlt; auto using Z2F_wf, Z2F_not_nan; try lia.
    repeat split; try assumption; [|lia].
    apply finite_of_ord; [assumption|].
    pose proof (ord_nonneg K y ltac:(lia) Ny).
    pose proof (ord_lt_inf (Z2F 100) (Z2F_wf 100) (Z2F_finite 100 ltac:(lia))).
    lia.
  - assert (~ ord K y < ord K (Z2F 100)) as Hge.
    { intros H. apply (SFltb_ord K) in H; auto using Z2F_wf, Z2F_not_nan; try lia.
      congruence. }
    repeat split; try apply Z2F_wf; try reflexivity. lia.
Qed.

Lemma Math_round_nonneg (x : number) :
  wf x -> is_finite x = true -> nonneg x = true -> Math_round x = Z2F (round_int K x).
Proof.
  intros Hx Fx Nx. destruct x as [[|]|s| |[|] m e]; try discriminate.
  - unfold round_int. cbn [ord Math_round]. rewrite Z.div_small; [reflexivity|].
    pose proof (pow2_pos K ltac:(lia)). rewrite pow2_succ by lia. lia.
  - pose proof (wf_finite_bounds false m e K Hx HK) as (He & _).
    pose proof (pow2_pos (e + K) ltac:(lia)) as Hp.
    unfold round_int. cbn [Math_round ord cond_Zopp].
    destruct (Z.leb_spec 0 e).
    + replace ((2 * (Z.pos m * 2 ^ (e + K)) + 2 ^ K) / 2 ^ (K + 1))
        with (Z.pos m * 2 ^ e).
      * rewrite Z2F_RN, <- (RN_scale 0 K) by lia.
        replace (Z.pos m * 2 ^ e * 2 ^ K) with (ord K (S754_finite false m e)).
        -- symmetry. apply RN_exact; auto; lia.
        -- cbn [ord cond_Zopp]. rewrite pow2_add by lia. lia.
      * rewrite (pow2_add e K), (pow2_succ K) by lia.
        pose proof (pow2_pos K ltac:(lia)).
        replace (2 * (Z.pos m * (2 ^ e * 2 ^ K)) + 2 ^ K)
          with ((2 * (Z.pos m * 2 ^ e) + 1) * 2 ^ K) by lia.
        rewrite Z.div_mul_cancel_r by lia.
        apply Z.div_unique with (r := 1); lia.
    + replace ((2 * (Z.pos m * 2 ^ (e + K)) + 2 ^ K) / 2 ^ (K + 1))
        with ((2 * Z.pos m + 2 ^ (- e)) / 2 ^ (- e + 1)).
      * destruct (Z.eqb_spec ((2 * Z.pos m + 2 ^ (- e)) / 2 ^ (- e + 1)) 0) as [->|];
          reflexivity.
      * replace (2 ^ K) with (2 ^ (- e) * 2 ^ (e + K))
          by (rewrite <- pow2_add by lia; f_equal; lia).
        replace (2 ^ (K + 1)) with (2 ^ (- e + 1) * 2 ^ (e + K))
          by (rewrite <- pow2_add by lia; f_equal; lia).
        pose proof (pow2_pos (- e + 1) ltac:(lia)).
        replace (2 * (Z.pos m * 2 ^ (e + K)) + 2 ^ (- e) * 2 ^ (e + K))
          with ((2 * Z.pos m + 2 ^ (- e)) * 2 ^ (e + K)) by lia.
        rewrite Z.div_mul_cancel_r by lia. reflexivity.
Qed.

Lemma round_int_mono (x y : number) :
  ord K x <= ord K y -> round_int K x <= round_int K y.
Proof.
  intros H. unfold round_int. apply Z.div_le_mono; [|lia].
  apply pow2_pos. lia.
Qed.

Lemma round_int_bounds (x : number) (n : Z) :
  0 <= n -> 0 <= ord K x <= n * 2 ^ K -> 0 <= round_int K x <= n.
Proof.
  intros Hn H. unfold round_int. pose proof (pow2_pos K ltac:(lia)) as Hp.
  rewrite pow2_succ by lia. split.
  - apply Z.div_pos; lia.
  - assert ((2 * ord K x + 2 ^ K) / (2 * 2 ^ K) < n + 1); [|lia].
    apply Z.div_lt_upper_bound; [lia|]. nia.
Qed.

End Scale.

Lemma forall_upto_spec (n : nat) (P : Z -> bool) :
  forall_upto n P = true -> forall z, 0 <= z < Z.of_nat n -> P z = true.
Proof.
  induction n as [|k IH]; intros H z Hz; [lia|].
  cbn [forall_upto] in H. apply andb_true_iff in H. destruct H as [Hk Hr].
  destruct (Z.eq_dec z (Z.of_nat k)) as [->|]; [assumption|].
  apply IH; [assumption|lia].
Qed.

Lemma tenths_ok : forall_upto 1001 tenth_ok = true.
Proof. vm_compute. reflexivity. Qed.

Lemma tenth_spec (n : Z) :
  0 <= n <= 1000 ->
  wf (tenth n) /\ is_finite (tenth n) = true /\ nonneg (tenth n) = true /\
  SFleb (tenth n) (Z2F 100) = true /\ SFleb (tenth n) (tenth (n + 1)) = true.
Proof.
  intros Hn. pose proof (forall_upto_spec 1001 tenth_ok tenths_ok n ltac:(lia)) as H.
  unfold tenth_ok in H. rewrite !andb_true_iff in H. unfold wf. tauto.
Qed.

Lemma scale_ok : 1074 <= 1074.
Proof. lia. Qed.

Lemma tenth_mono (n1 n2 : Z) :
  0 <= n1 <= n2 -> n2 <= 1000 -> SFleb (tenth n1) (tenth n2) = true.
Proof.
  intros H1 H2. replace n2 with (n1 + Z.of_nat (Z.to_nat (n2 - n1))) in * by lia.
  induction (Z.to_nat (n2 - n1)) as [|k IH].
  - rewrite Z.add_0_r. destruct (tenth_spec n1 ltac:(lia)) as (W & F & _).
    apply (SFleb_refl _ scale_ok); auto using finite_not_nan.
  - rewrite Nat2Z.inj_succ in *.
    apply (SFleb_trans _ scale_ok) with (y := tenth (n1 + Z.of_nat k)).
    + apply tenth_spec; lia.
    + apply tenth_spec; lia.
    + apply tenth_spec; lia.
    + apply IH; lia.
    + replace (n1 + Z.succ (Z.of_nat k)) with (n1 + Z.of_nat k + 1) by lia.
      apply tenth_spec; lia.
Qed.

Section Rounding.

Variable K : Z.
Hypothesis HK : 1074 <= K.

Lemma ord_ten : ord K (Z2F 10) = 10 * 2 ^ K.
Proof. apply (ord_Z2F K HK). lia. Qed.

Lemma ten_pos : 0 < ord K (Z2F 10).
Proof. rewrite ord_ten. pose proof (pow2_pos K ltac:(lia)). lia. Qed.

Lemma nonneg_ge_0 (y : number) : wf y -> nonneg y = true -> SFleb (Z2F 0) y = true.
Proof.
  intros Wy Ny. apply (SFleb_ord K); auto using Z2F_wf, Z2F_not_nan, nonneg_not_nan.
  change (ord K (Z2F 0)) with 0. apply ord_nonneg; [lia|assumption].
Qed.

(** Ten times a clamped total, and its rounding to an integer. *)
Lemma times_ten_clamp (x : number) :
  wf x -> is_nan x = false ->
  let y := mul (clamp x) (Z2F 10) in
  wf y /\ is_finite y = true /\ nonneg y = true /\ (0 <= round_int K y <= 1000) /\
  round1 (clamp x) = tenth (round_int K y).
Proof.
  intros Wx Nx y.
  destruct (clamp_spec K HK x Wx Nx) as (Wc & Nc & Fc & Oc).
  pose proof (mul_const_wf K HK (Z2F 10) (Z2F_wf 10) (Z2F_finite K HK 10 ltac:(lia))
                ten_pos (clamp x) Wc) as Wy.
  pose proof (mul_const_nonneg K HK (Z2F 10) (Z2F_wf 10) (Z2F_finite K HK 10 ltac:(lia))
                ten_pos (clamp x) Wc Nc) as Ny.
  fold y in Wy, Ny.
  assert (Hle : SFleb y (Z2F 1000) = true).
  { change (Z2F 1000) with (mul (Z2F 100) (Z2F 10)). unfold y.
    apply (mul_const_mono K HK (Z2F 10) (Z2F_wf 10) (Z2F_finite K HK 10 ltac:(lia))
             ten_pos (clamp x) (Z2F 100) Wc (Z2F_wf 100)).
    apply (SFleb_ord K); auto using Z2F_wf, Z2F_not_nan, nonneg_not_nan.
    rewrite (ord_Z2F K HK) by lia. lia. }
  assert (Fy : is_finite y = true).
  { apply (nonneg_finite_le K HK y (Z2F 1000)); auto using Z2F_wf. }
  assert (Hn : 0 <= round_int K y <= 1000).
  { apply (round_int_bounds K HK); [lia|].
    apply (SFleb_ord K) in Hle; auto using Z2F_wf, Z2F_not_nan, nonneg_not_nan.
    rewrite (ord_Z2F K HK) in Hle by lia.
    pose proof (ord_nonneg K y ltac:(lia) Ny). lia. }
  repeat split; try assumption; try lia.
  unfold round1. fold y. rewrite (Math_round_nonneg K HK) by assumption. reflexivity.
Qed.

Lemma times_ten_clamp_mono (x1 x2 : number) :
  wf x1 -> wf x2 -> SFleb x1 x2 = true ->
  round_int K (mul (clamp x1) (Z2F 10)) <= round_int K (mul (clamp x2) (Z2F 10)).
Proof.
  intros W1 W2 Hle. destruct (SFleb_not_nan _ _ Hle) as [N1 N2].
  destruct (clamp_spec K HK x1 W1 N1) as (Wc1 & Nc1 & Fc1 & Oc1).
  destruct (clamp_spec K HK x2 W2 N2) as (Wc2 & Nc2 & Fc2 & Oc2).
  destruct (times_ten_clamp x1 W1 N1) as (Wy1 & Fy1 & Ny1 & _).
  destruct (times_ten_clamp x2 W2 N2) as (Wy2 & Fy2 & Ny2 & _).
  apply (round_int_mono K HK).
  apply (SFleb_ord K); auto using finite_not_nan.
  apply (mul_const_mono K HK (Z2F 10) (Z2F_wf 10) (Z2F_finite K HK 10 ltac:(lia))
           ten_pos (clamp x1) (clamp x2) Wc1 Wc2).
  apply (SFleb_ord K); auto using finite_not_nan.
  apply (SFleb_ord K) in Hle; auto. lia.
Qed.

Lemma Math_round_half (n : Z) :
  0 <= n < 2 ^ 51 -> Math_round (half n) = Z2F (n + 1).
Proof.
  intros Hn. change (half n) with (RN 1 (2 * n + 1)).
  assert (Ho : ord K (RN 1 (2 * n + 1)) = (2 * n + 1) * 2 ^ (K - 1)).
  { rewrite ord_RN by lia. apply (rnd_exact K HK); lia. }
  pose proof (pow2_pos (K - 1) ltac:(lia)) as Hp.
  assert (HK2 : 2 ^ K = 2 * 2 ^ (K - 1)).
  { replace K with (K - 1 + 1) at 1 by lia. apply pow2_succ. lia. }
  assert (Hnn : nonneg (RN 1 (2 * n + 1)) = true) by (apply RN_nonneg; lia).
  assert (Hf : is_finite (RN 1 (2 * n + 1)) = true).
  { apply (finite_of_ord K); [apply RN_not_nan|]. rewrite Ho.
    pose proof (pow2_mul_le 53 (K - 1) (1024 + K) ltac:(lia) ltac:(lia) ltac:(lia)).
    nia. }
  rewrite (Math_round_nonneg K HK) by (auto using RN_wf).
  f_equal. unfold round_int. rewrite Ho, pow2_succ, HK2 by lia.
  replace (2 * ((2 * n + 1) * 2 ^ (K - 1)) + 2 * 2 ^ (K - 1))
    with ((n + 1) * (2 * (2 * 2 ^ (K - 1)))) by lia.
  apply Z.div_mul. lia.
Qed.

Lemma clamp_range (x : number) :
  wf x -> is_nan x = false ->
  SFleb (Z2F 0) (clamp x) = true /\ SFleb (clamp x) (Z2F 100) = true.
Proof.
  intros Wx Nx. destruct (clamp_spec K HK x Wx Nx) as (Wc & Nc & Fc & Oc).
  split; apply (SFleb_ord K); auto using Z2F_wf, Z2F_not_nan, finite_not_nan.
  - change (ord K (Z2F 0)) with 0. lia.
  - rewrite (ord_Z2F K HK) by lia. lia.
Qed.

End Rounding.

(** The rounded, clamped total is one of the numbers [0.0, 0.1, ..., 100.0]. *)
Lemma round1_clamp_range (x : number) :
  wf x -> is_nan x = false ->
  wf (round1 (clamp x)) /\ is_finite (round1 (clamp x)) = true /\
  SFleb (Z2F 0) (round1 (clamp x)) = true /\
  SFleb (round1 (clamp x)) (Z2F 100) = true.
Proof.
  intros Wx Nx.
  destruct (times_ten_clamp 1074 scale_ok x Wx Nx) as (_ & _ & _ & Hn & ->).
  destruct (tenth_spec _ Hn) as (W & F & N & H100 & _).
  repeat split; try assumption. now apply (nonneg_ge_0 1074 scale_ok).
Qed.

Lemma round1_clamp_mono (x1 x2 : number) :
  wf x1 -> wf x2 -> SFleb x1 x2 = true ->
  SFleb (round1 (clamp x1)) (round1 (clamp x2)) = true.
Proof.
  intros W1 W2 Hle. destruct (SFleb_not_nan _ _ Hle) as [N1 N2].
  destruct (times_ten_clamp 1074 scale_ok x1 W1 N1) as (_ & _ & _ & Hn1 & ->).
  destruct (times_ten_clamp 1074 scale_ok x2 W2 N2) as (_ & _ & _ & Hn2 & ->).
  pose proof (times_ten_clamp_mono 1074 scale_ok x1 x2 W1 W2 Hle).
  apply tenth_mono; lia.
Qed.

Lemma add_0_l (x : number) : nonneg x = true -> add (Z2F 0) x = x.
Proof. destruct x as [[|]|[|]| |[|] m e]; try discriminate; reflexivity. Qed.

Lemma add_0_r (x : number) : nonneg x = true -> add x (Z2F 0) = x.
Proof. destruct x as [[|]|[|]| |[|] m e]; try discriminate; reflexivity. Qed.

Lemma binary_normalize_wf (v e : Z) : wf (binary_normalize prec emax v e false).
Proof. replace e with (- - e) by lia. apply (RN_wf (- e) v). Qed.

Lemma ratio_to_number_wf (neg : bool) (p : Z) (q : positive) : wf (ratio_to_number neg p q).
Proof.
  unfold ratio_to_number. destruct p; try reflexivity.
  destruct (Z.div_eucl _ _) as [d r]. apply binary_normalize_wf.
Qed.

Lemma decimal_value_wf (neg : bool) (m e : Z) : wf (decimal_value neg m e).
Proof. unfold decimal_value. destruct (0 <=? e); apply ratio_to_number_wf. Qed.

Lemma StringToNumber_wf (s : string) : wf (StringToNumber s).
Proof.
  unfold StringToNumber. destruct (skip_ws s) as [|c t]; [reflexivity|].
  destruct (scan_nondecimal _) as [[v r]|].
  - destruct (all_ws r); [apply Z2F_wf|reflexivity].
  - destruct (scan_sign _) as [neg t1].
    destruct (scan_unsigned t1) as [[[[inf m] e] r]|]; [|reflexivity].
    destruct (all_ws r); [|reflexivity].
    destruct inf; [reflexivity|apply decimal_value_wf].
Qed.

Lemma parseFloat_wf (s : string) : wf (parseFloat s).
Proof.
  unfold parseFloat. destruct (scan_sign _) as [neg t1].
  destruct (scan_unsigned t1) as [[[[inf m] e] r]|]; [|reflexivity].
  destruct inf; [reflexivity|apply decimal_value_wf].
Qed.

(** ** Strings of digits *)

Lemma digit_of_decimal (c : ascii) :
  (48 <=? code c) && (code c <=? 57) = true -> digit_of 10 c = Some (code c - 48).
Proof.
  intros H. unfold digit_of. rewrite H.
  apply andb_true_iff in H. destruct H as [H1 H2]. apply Z.leb_le in H1, H2.
  destruct (Z.ltb_spec (code c - 48) 10); [reflexivity|lia].
Qed.

Lemma scan_digits_decimal (s : string) (acc k n : Z) :
  decimal_digits s acc = Some n ->
  scan_digits 10 s acc k = (n, k + Z.of_nat (String.length s), "").
Proof.
  revert acc k. induction s as [|c r IH]; intros acc k H; cbn [decimal_digits] in H.
  - injection H as ->. cbn. now rewrite Z.add_0_r.
  - destruct ((48 <=? code c) && (code c <=? 57)) eqn:Hc; [|discriminate].
    cbn [scan_digits String.length]. rewrite (digit_of_decimal c Hc).
    rewrite (IH _ (k + 1) H). f_equal. f_equal. lia.
Qed.

Lemma decimal_digits_nonneg (s : string) (acc n : Z) :
  decimal_digits s acc = Some n -> 0 <= acc -> 0 <= n.
Proof.
  revert acc. induction s as [|c r IH]; intros acc H Ha; cbn [decimal_digits] in H.
  - injection H as ->. assumption.
  - destruct ((48 <=? code c) && (code c <=? 57)) eqn:Hc; [|discriminate].
    apply andb_true_iff in Hc. destruct Hc as [H1 H2]. apply Z.leb_le in H1, H2.
    apply (IH _ H). lia.
Qed.

Lemma denotes_nonneg (s : string) (n : Z) : denotes s n -> 0 <= n.
Proof. intros [_ H]. apply (decimal_digits_nonneg s 0 n H). lia. Qed.

Lemma denotes_head (s : string) (n : Z) :
  denotes s n ->
  exists c r, s = String c r /\ (48 <=? code c) && (code c <=? 57) = true.
Proof.
  intros [Hne H]. destruct s as [|c r]; [congruence|].
  exists c, r. split; [reflexivity|]. cbn [decimal_digits] in H.
  destruct ((48 <=? code c) && (code c <=? 57)); [reflexivity|discriminate].
Qed.

Lemma parseInt_denotes (s : string) (n : Z) : denotes s n -> parseInt s = Z2F n.
Proof.
  intros Hd. destruct (denotes_head s n Hd) as (c & r & -> & Hc).
  destruct Hd as [_ Hv].
  assert (Hcode : 48 <= code c <= 57).
  { apply andb_true_iff in Hc. destruct Hc as [H1 H2]. apply Z.leb_le in H1, H2. lia. }
  unfold parseInt.
  assert (Hws : skip_ws (String c r) = String c r).
  { cbn [skip_ws]. unfold is_ws.
    destruct (Z.leb_spec 9 (code c)), (Z.leb_spec (code c) 13),
      (Z.eqb_spec (code c) 32), (Z.eqb_spec (code c) 160); try lia; reflexivity. }
  rewrite Hws.
  assert (Hsign : scan_sign (String c r) = (false, String c r)).
  { unfold scan_sign.
    destruct c as [[|] [|] [|] [|] [|] [|] [|] [|]]; try reflexivity;
      unfold code in Hcode; cbn in Hcode; lia. }
  rewrite Hsign.
  assert (Hradix :
    match String c r with
    | String "0" (String c' r') =>
        if Ascii.eqb c' "x" || Ascii.eqb c' "X" then (16, r') else (10, String c r)
    | _ => (10, String c r)
    end = (10, String c r)).
  { destruct c as [[|] [|] [|] [|] [|] [|] [|] [|]]; try reflexivity.
    destruct r as [|c' r']; [reflexivity|].
    cbn [decimal_digits] in Hv.
    destruct ((48 <=? code "0") && (code "0" <=? 57)); [|discriminate].
    cbn [decimal_digits] in Hv.
    destruct ((48 <=? code c') && (code c' <=? 57)) eqn:Hc'; [|discriminate].
    apply andb_true_iff in Hc'. destruct Hc' as [H1 H2]. apply Z.leb_le in H1, H2.
    destruct (Ascii.eqb_spec c' "x") as [->|]; [unfold code in H2; cbn in H2; lia|].
    destruct (Ascii.eqb_spec c' "X") as [->|]; [unfold code in H2; cbn in H2; lia|].
    reflexivity. }
  rewrite Hradix.
  rewrite (scan_digits_decimal _ 0 0 n Hv).
  cbn [String.length].
  destruct (Z.eqb_spec (0 + Z.of_nat (S (String.length r))) 0); [lia|].
  destruct (Z.eqb_spec n 0) as [->|]; reflexivity.
Qed.

Lemma denotes_not_sentinel (s : string) (n : Z) :
  denotes s n -> String.eqb s "not-available" = false.
Proof.
  intros Hd. destruct (denotes_head s n Hd) as (c & r & -> & Hc).
  apply String.eqb_neq. intros H. injection H as -> _. discriminate Hc.
Qed.

(** ** The parts of the total *)

Lemma lit_0_3_pos : 0 < ord 1074 lit_0_3.
Proof. apply (positive_ord 1074 scale_ok); reflexivity. Qed.

Lemma lit_0_2_pos : 0 < ord 1074 lit_0_2.
Proof. apply (positive_ord 1074 scale_ok); reflexivity. Qed.

Lemma five_pos : 0 < ord 1074 (Z2F 5).
Proof. apply (positive_ord 1074 scale_ok); reflexivity. Qed.

Lemma Z2F_nonneg (n : Z) : 0 <= n -> nonneg (Z2F n) = true.
Proof. intros Hn. rewrite Z2F_RN. now apply RN_nonneg. Qed.

Lemma age_part_ok (a : Z) :
  0 <= a -> wf (age_part a) /\ nonneg (age_part a) = true.
Proof.
  intros Ha. unfold age_part.
  destruct (a <? 5); [split; reflexivity|].
  destruct (65 <? a); [split; reflexivity|]. split.
  - apply (mul_const_wf 1074 scale_ok lit_0_3 eq_refl eq_refl lit_0_3_pos), Z2F_wf.
  - apply (mul_const_nonneg 1074 scale_ok lit_0_3 eq_refl eq_refl lit_0_3_pos);
      [apply Z2F_wf|now apply Z2F_nonneg].
Qed.

Lemma anaemia_part_ok (yes : bool) :
  wf (anaemia_part yes) /\ nonneg (anaemia_part yes) = true.
Proof. destruct yes; split; reflexivity. Qed.

Lemma hb_scaled_ok (h : number) :
  wf h -> is_nan h = false ->
  wf (mul (sub (Z2F 150) h) lit_0_2) /\ is_nan (mul (sub (Z2F 150) h) lit_0_2) = false.
Proof.
  intros Wh Nh.
  destruct (sub_const_not_nan 1074 scale_ok (Z2F 150) h (Z2F_wf 150) Wh eq_refl Nh)
    as [Wd Nd].
  split.
  - now apply (mul_const_wf 1074 scale_ok lit_0_2 eq_refl eq_refl lit_0_2_pos).
  - now apply (mul_const_not_nan 1074 scale_ok lit_0_2 eq_refl eq_refl lit_0_2_pos).
Qed.

Lemma hb_part_ok (h : number) :
  wf h -> is_nan h = false -> wf (hb_part h) /\ nonneg (hb_part h) = true.
Proof.
  intros Wh Nh. destruct (hb_scaled_ok h Wh Nh) as [Wt Nt].
  destruct (max0_spec 1074 scale_ok _ Wt Nt) as (W & N & _). auto.
Qed.

Lemma hb_part_mono (h1 h2 : number) :
  wf h1 -> wf h2 -> SFleb h1 h2 = true -> SFleb (hb_part h2) (hb_part h1) = true.
Proof.
  intros W1 W2 Hle. destruct (SFleb_not_nan _ _ Hle) as [N1 N2].
  destruct (sub_const_not_nan 1074 scale_ok (Z2F 150) h1 (Z2F_wf 150) W1 eq_refl N1)
    as [Wd1 _].
  destruct (sub_const_not_nan 1074 scale_ok (Z2F 150) h2 (Z2F_wf 150) W2 eq_refl N2)
    as [Wd2 _].
  destruct (hb_scaled_ok h1 W1 N1) as [Wt1 _].
  destruct (hb_scaled_ok h2 W2 N2) as [Wt2 _].
  apply (max0_mono 1074 scale_ok); try assumption.
  apply (mul_const_mono 1074 scale_ok lit_0_2 eq_refl eq_refl lit_0_2_pos);
    try assumption.
  apply (sub_const_mono 1074 scale_ok (Z2F 150) h1 h2 (Z2F_wf 150) eq_refl);
    assumption.
Qed.

Lemma parasite_part_ok (p : option Z) :
  (forall n, p = Some n -> 0 <= n) ->
  wf (parasite_part p) /\ nonneg (parasite_part p) = true.
Proof.
  intros Hp. destruct p as [n|]; [|split; reflexivity].
  specialize (Hp n eq_refl). cbn [parasite_part]. split.
  - apply (mul_const_wf 1074 scale_ok (Z2F 5) eq_refl eq_refl five_pos), Z2F_wf.
  - apply (mul_const_nonneg 1074 scale_ok (Z2F 5) eq_refl eq_refl five_pos);
      [apply Z2F_wf|now apply Z2F_nonneg].
Qed.

Lemma parasite_part_mono (n1 n2 : Z) :
  n1 <= n2 -> SFleb (parasite_part (Some n1)) (parasite_part (Some n2)) = true.
Proof.
  intros Hn. cbn [parasite_part].
  apply (mul_const_mono 1074 scale_ok (Z2F 5) eq_refl eq_refl five_pos);
    try apply Z2F_wf.
  rewrite !Z2F_RN. now apply RN_mono.
Qed.

Lemma total_ok (a : Z) (yes : bool) (h : number) (p : option Z) :
  0 <= a -> wf h -> is_nan h = false -> (forall n, p = Some n -> 0 <= n) ->
  wf (total a yes h p) /\ nonneg (total a yes h p) = true.
Proof.
  intros Ha Wh Nh Hp. unfold total.
  destruct (age_part_ok a Ha) as [W1 N1].
  destruct (anaemia_part_ok yes) as [W2 N2].
  destruct (hb_part_ok h Wh Nh) as [W3 N3].
  destruct (parasite_part_ok p Hp) as [W4 N4].
  destruct (add_nonneg 1074 scale_ok _ _ W1 W2 N1 N2) as [W12 N12].
  destruct (add_nonneg 1074 scale_ok _ _ W12 W3 N12 N3) as [W123 N123].
  apply (add_nonneg 1074 scale_ok); assumption.
Qed.

(** ** The code against the specification's score *)

Lemma validated_haemoglobin (data : Data) (a : Z) (yes : bool) (h : number) (p : option Z) :
  validated data a yes h p -> ToNumber (haemoglobin data) = h /\ wf h /\ is_nan h = false.
Proof.
  intros V. destruct (v_haemoglobin _ _ _ _ _ V) as (s & Hs & <-).
  rewrite Hs. cbn [ToNumber]. repeat split.
  - apply StringToNumber_wf.
  - destruct (v_haemoglobin_range _ _ _ _ _ V) as [_ H].
    apply (SFleb_not_nan _ _ H).
Qed.

Lemma validated_count (data : Data) (a : Z) (yes : bool) (h : number) (p : option Z) :
  validated data a yes h p -> forall n, p = Some n -> 0 <= n.
Proof.
  intros V n ->. pose proof (v_count _ _ _ _ _ V) as Hc. inversion Hc; subst.
  eapply denotes_nonneg; eassumption.
Qed.

Lemma clamped_risk_validated (data : Data) (a : Z) (yes : bool) (h : number) (p : option Z) :
  validated data a yes h p -> clamped_risk data = clamp (total a yes h p).
Proof.
  intros V. destruct (validated_haemoglobin _ _ _ _ _ V) as (Hh & Wh & Nh).
  pose proof (v_age_range _ _ _ _ _ V) as Ha.
  destruct (age_part_ok a ltac:(lia)) as [W1 N1].
  destruct (anaemia_part_ok yes) as [W2 N2].
  destruct (hb_part_ok h Wh Nh) as [W3 N3].
  destruct (add_nonneg 1074 scale_ok _ _ W1 W2 N1 N2) as [W12 N12].
  destruct (add_nonneg 1074 scale_ok _ _ W12 W3 N12 N3) as [W123 N123].
  unfold clamped_risk, clamp, total. f_equal. f_equal.
  rewrite (v_age _ _ _ _ _ V), (v_anaemia _ _ _ _ _ V), Hh. cbn [number_of_field].
  rewrite !(Z2F_ltb 1074 scale_ok) by lia.
  fold (hb_part h).
  assert (Hage : (if a <? 5 then add (Z2F 0) (Z2F 20)
                  else if 65 <? a then add (Z2F 0) (Z2F 15)
                  else add (Z2F 0) (mul (Z2F a) lit_0_3)) = age_part a).
  { unfold age_part in *. destruct (a <? 5); [reflexivity|].
    destruct (65 <? a); [reflexivity|]. now apply add_0_l. }
  rewrite Hage.
  assert (Hana : (if strict_eq (Some (if yes then "yes" else "no")) "yes"
                  then add (age_part a) (Z2F 25) else age_part a)
                 = add (age_part a) (anaemia_part yes)).
  { destruct yes; cbn [strict_eq anaemia_part]; [reflexivity|].
    symmetry. now apply add_0_r. }
  rewrite Hana.
  pose proof (v_count _ _ _ _ _ V) as Hc. inversion Hc as [Hpc Hp|s n Hd Hpc Hp].
  - cbn [strict_eq parasite_part negb]. simpl String.eqb. cbn [negb].
    symmetry. now apply add_0_r.
  - cbn [strict_eq ToString parasite_part].
    rewrite (denotes_not_sentinel s n Hd). cbn [negb].
    rewrite (parseInt_denotes s n Hd). reflexivity.
Qed.

Lemma calculateRisk_validated (data : Data) (a : Z) (yes : bool) (h : number) (p : option Z) :
  validated data a yes h p -> calculateRisk data = score a yes h p.
Proof.
  intros V. unfold calculateRisk, score, round1.
  now rewrite (clamped_risk_validated data a yes h p V).
Qed.

(** * Part VI: calendar dates *)

Lemma DayFromYear_succ (y : Z) : DayFromYear (y + 1) = DayFromYear y + 365 + leap y.
Proof.
  unfold DayFromYear, leap.
  destruct (Z.eqb_spec (y mod 4) 0), (Z.eqb_spec (y mod 100) 0), (Z.eqb_spec (y mod 400) 0);
    cbn [negb andb orb]; Z.div_mod_to_equations; lia.
Qed.

Lemma YearFromDay_spec (d : Z) :
  DayFromYear (YearFromDay d) <= d < DayFromYear (YearFromDay d + 1).
Proof.
  unfold YearFromDay.
  set (y := 1970 + 400 * d / 146097).
  assert (Hy : DayFromYear (y - 1) <= d < DayFromYear (y + 2)).
  { unfold DayFromYear, y. Z.div_mod_to_equations. lia. }
  destruct (Z.ltb_spec d (DayFromYear y)).
  - replace (y - 1 + 1) with y by lia. lia.
  - destruct (Z.leb_spec (DayFromYear (y + 1)) d).
    + replace (y + 1 + 1) with (y + 2) by lia. lia.
    + lia.
Qed.

Lemma DayFromYear_mono (y1 y2 : Z) : y1 <= y2 -> DayFromYear y1 <= DayFromYear y2.
Proof. intros H. unfold DayFromYear. Z.div_mod_to_equations. lia. Qed.

Lemma YearFromDay_unique (d y : Z) :
  DayFromYear y <= d < DayFromYear (y + 1) -> YearFromDay d = y.
Proof.
  intros Hd. pose proof (YearFromDay_spec d) as Hs.
  destruct (Z_lt_le_dec (YearFromDay d) y) as [Hlt|Hge].
  - pose proof (DayFromYear_mono (YearFromDay d + 1) y ltac:(lia)). lia.
  - destruct (Z.eq_dec (YearFromDay d) y) as [|Hne]; [assumption|].
    pose proof (DayFromYear_mono (y + 1) (YearFromDay d) ltac:(lia)). lia.
Qed.

Lemma leap_01 (y : Z) : leap y = 0 \/ leap y = 1.
Proof. unfold leap. destruct (_ && _); auto. Qed.

Lemma month_cases (m : Z) :
  0 <= m <= 11 ->
  m = 0 \/ m = 1 \/ m = 2 \/ m = 3 \/ m = 4 \/ m = 5 \/ m = 6 \/ m = 7 \/ m = 8 \/
  m = 9 \/ m = 10 \/ m = 11.
Proof. lia. Qed.

Ltac each_month m H :=
  destruct (month_cases m H)
    as [->|[->|[->|[->|[->|[->|[->|[->|[->|[->|[->| ->]]]]]]]]]]].

Lemma day_in_year (l m d : Z) :
  (l = 0 \/ l = 1) -> 0 <= m <= 11 ->
  1 <= d <= match m with 1 => 28 + l | 3 | 5 | 8 | 10 => 30 | _ => 31 end ->
  0 <= month_start l m + d - 1 < 365 + l.
Proof.
  intros Hl Hm Hd. each_month m Hm; cbn [month_start] in *; lia.
Qed.

Lemma month_of_day_in_year (l m d : Z) :
  (l = 0 \/ l = 1) -> 0 <= m <= 11 ->
  1 <= d <= match m with 1 => 28 + l | 3 | 5 | 8 | 10 => 30 | _ => 31 end ->
  let n := month_start l m + d - 1 in
  (if n <? 31 then 0 else if n <? 59 + l then 1 else if n <? 90 + l then 2
   else if n <? 120 + l then 3 else if n <? 151 + l then 4 else if n <? 181 + l then 5
   else if n <? 212 + l then 6 else if n <? 243 + l then 7 else if n <? 273 + l then 8
   else if n <? 304 + l then 9 else if n <? 334 + l then 10 else 11) = m.
Proof.
  intros Hl Hm Hd n. subst n.
  each_month m Hm; cbn [month_start] in *;
    repeat match goal with
           | |- context [?a <? ?b] => destruct (Z.ltb_spec a b); try lia
           end.
Qed.

Lemma time_of_calendar_date (y m d off : Z) :
  calendar_date y m d -> 0 <= off < msPerDay ->
  let t := MakeDay y (m - 1) d * msPerDay + off in
  YearFromTime t = y /\ MonthFromTime t = m - 1 /\ DateFromTime t = d.
Proof.
  intros [Hm Hd] Hoff t. unfold DaysInMonth in Hd.
  assert (Hm0 : 0 <= m - 1 <= 11) by lia.
  assert (Hday : Day t = MakeDay y (m - 1) d).
  { unfold Day, t. unfold msPerDay in *. Z.div_mod_to_equations. lia. }
  pose proof (day_in_year (leap y) (m - 1) d (leap_01 y) Hm0 Hd) as Hrange.
  assert (Hyear : YearFromTime t = y).
  { unfold YearFromTime. rewrite Hday. apply YearFromDay_unique.
    rewrite DayFromYear_succ. unfold MakeDay. lia. }
  assert (Hdwy : DayWithinYear t = month_start (leap y) (m - 1) + d - 1).
  { unfold DayWithinYear. rewrite Hyear, Hday. unfold MakeDay. lia. }
  assert (Hmonth : MonthFromTime t = m - 1).
  { unfold MonthFromTime, InLeapYear. rewrite Hdwy, Hyear.
    apply (month_of_day_in_year (leap y) (m - 1) d (leap_01 y) Hm0 Hd). }
  repeat split; try assumption.
  unfold DateFromTime, InLeapYear. rewrite Hmonth, Hdwy, Hyear. lia.
Qed.

Lemma digit_of_range (c : ascii) (v : Z) : digit_of 10 c = Some v -> 0 <= v <= 9.
Proof.
  unfold digit_of. intros H.
  destruct ((48 <=? code c) && (code c <=? 57)) eqn:H1.
  - apply andb_true_iff in H1. destruct H1 as [Ha Hb]. apply Z.leb_le in Ha, Hb.
    destruct (Z.ltb_spec (code c - 48) 10); [|discriminate]. injection H as <-. lia.
  - destruct ((97 <=? code c) && (code c <=? 122)) eqn:H2.
    + apply andb_true_iff in H2. destruct H2 as [Ha Hb]. apply Z.leb_le in Ha, Hb.
      destruct (Z.ltb_spec (code c - 87) 10); [lia|discriminate].
    + destruct ((65 <=? code c) && (code c <=? 90)) eqn:H3.
      * apply andb_true_iff in H3. destruct H3 as [Ha Hb]. apply Z.leb_le in Ha, Hb.
        destruct (Z.ltb_spec (code c - 55) 10); [lia|discriminate].
      * rewrite Z.ltb_irrefl in H. discriminate.
Qed.

Lemma parse_date_only_range (s : string) (y m d : Z) :
  parse_date_only s = Some (y, m, d) -> 0 <= y <= 9999 /\ calendar_date y m d.
Proof.
  unfold parse_date_only. intros H.
  repeat match type of H with
         | context [match ?x with _ => _ end] =>
             first [is_var x; destruct x | destruct x eqn:?]; try discriminate
         end.
  match type of H with
  | Some (?a, ?b, ?c) = _ =>
      assert (Hy : y = a) by congruence; assert (Hm : m = b) by congruence;
      assert (Hd : d = c) by congruence
  end.
  clear H. subst y m d.
  repeat match goal with
         | E : digit_of 10 _ = Some _ |- _ => apply digit_of_range in E
         end.
  repeat match goal with
         | E : (_ && _) = true |- _ => apply andb_true_iff in E; destruct E
         end.
  repeat match goal with
         | E : (_ <=? _) = true |- _ => apply Z.leb_le in E
         end.
  unfold calendar_date. lia.
Qed.

Lemma YearFromDay_bounds (d : Z) :
  - 100000001 <= d <= 100000001 -> - 300000 < YearFromDay d < 300000.
Proof.
  intros H. unfold YearFromDay.
  destruct (_ <? _); [|destruct (_ <=? _)]; Z.div_mod_to_equations; lia.
Qed.

Lemma month_date_bounds (l n : Z) :
  0 <= n < 365 + l -> (l = 0 \/ l = 1) ->
  let mo := if n <? 31 then 0 else if n <? 59 + l then 1 else if n <? 90 + l then 2
            else if n <? 120 + l then 3 else if n <? 151 + l then 4
            else if n <? 181 + l then 5 else if n <? 212 + l then 6
            else if n <? 243 + l then 7 else if n <? 273 + l then 8
            else if n <? 304 + l then 9 else if n <? 334 + l then 10 else 11 in
  0 <= mo <= 11 /\ 1 <= n - month_start l mo + 1 <= 31.
Proof.
  intros Hn Hl mo. subst mo.
  repeat match goal with
         | |- context [?a <? ?b] => destruct (Z.ltb_spec a b)
         end; cbn [month_start]; lia.
Qed.

Lemma local_date_bounds (t : Z) :
  - 8640000000000000 <= t <= 8640000000000000 + msPerDay ->
  - 300000 < YearFromTime t < 300000 /\
  0 <= MonthFromTime t <= 11 /\ 1 <= DateFromTime t <= 31.
Proof.
  intros Ht. split.
  - apply YearFromDay_bounds. unfold Day, msPerDay in *. Z.div_mod_to_equations. lia.
  - unfold MonthFromTime, DateFromTime, MonthFromTime.
    apply month_date_bounds; [|apply leap_01].
    unfold DayWithinYear, InLeapYear, YearFromTime.
    pose proof (YearFromDay_spec (Day t)) as Hs. rewrite DayFromYear_succ in Hs. lia.
Qed.

Section Calendar.

Variable env : Env.
Hypothesis Heast : east_of_utc env.
Hypothesis Hnow : time_value (env_now env).

Lemma local_today_bounds :
  - 8640000000000000 <= LocalTime env (env_now env) <= 8640000000000000 + msPerDay.
Proof.
  unfold LocalTime. pose proof (Heast (env_now env)). unfold time_value in Hnow. lia.
Qed.

Lemma calculateAge_east (s : string) (y m d : Z) :
  parse_date_only s = Some (y, m, d) ->
  calculateAge env s = Z2F (age_on (local_today env) (y, m, d)).
Proof.
  intros Hs. destruct (parse_date_only_range s y m d Hs) as [Hy Hcal].
  pose proof Hcal as [Hm Hd].
  assert (Hd31 : d <= 31).
  { unfold DaysInMonth in Hd. pose proof (leap_01 y).
    destruct (m - 1) as [|[[[[]|[]|]|[[]|[]|]|]|[[[]|[]|]|[[]|[]|]|]|]|]; lia. }
  destruct (time_of_calendar_date y m d _ Hcal
              (Heast (MakeDay y (m - 1) d * msPerDay))) as (Hby & Hbm & Hbd).
  destruct (local_date_bounds _ local_today_bounds) as (HY & HM & HD).
  unfold calculateAge, Date_now, Date_parse, age_on, local_today, month_day_before.
  rewrite Hs. cbn [getFullYear getMonth getDate].
  change (LocalTime env (MakeDay y (m - 1) d * msPerDay))
    with (MakeDay y (m - 1) d * msPerDay + env_tza env (MakeDay y (m - 1) d * msPerDay)).
  rewrite Hby, Hbm, Hbd.
  set (t := LocalTime env (env_now env)) in *.
  rewrite !(Z2F_sub 1074 scale_ok) by lia.
  rewrite !(Z2F_ltb 1074 scale_ok), (Z2F_eqb 1074 scale_ok) by lia.
  replace (MonthFromTime t - (m - 1) <? 0) with (MonthFromTime t + 1 <? m)
    by (destruct (Z.ltb_spec (MonthFromTime t + 1) m),
                 (Z.ltb_spec (MonthFromTime t - (m - 1)) 0); lia || reflexivity).
  replace (MonthFromTime t - (m - 1) =? 0) with (MonthFromTime t + 1 =? m)
    by (destruct (Z.eqb_spec (MonthFromTime t + 1) m),
                 (Z.eqb_spec (MonthFromTime t - (m - 1)) 0); lia || reflexivity).
  destruct (_ || _); f_equal; lia.
Qed.

Lemma calculateAge_future (s : string) (y m d : Z) :
  parse_date_only s = Some (y, m, d) ->
  date_after (local_today env) (y, m, d) = true ->
  SFltb (calculateAge env s) (Z2F 0) = true /\
  SFltb (Z2F 120) (calculateAge env s) = false.
Proof.
  intros Hs Hafter. rewrite (calculateAge_east s y m d Hs).
  destruct (parse_date_only_range s y m d Hs) as [Hy _].
  destruct (local_date_bounds _ local_today_bounds) as (HY & _).
  unfold date_after, age_on, local_today in *.
  set (t := LocalTime env (env_now env)) in *.
  assert (Hneg : - 400000 <
                 YearFromTime t - y -
                 (if month_day_before (MonthFromTime t + 1) (DateFromTime t) m d
                  then 1 else 0) < 0).
  { apply orb_true_iff in Hafter. destruct Hafter as [H|H].
    - apply Z.ltb_lt in H. destruct (month_day_before _ _ _ _); lia.
    - apply andb_true_iff in H. destruct H as [H1 H2]. apply Z.eqb_eq in H1.
      rewrite H2. lia. }
  rewrite !(Z2F_ltb 1074 scale_ok) by lia.
  split; [apply Z.ltb_lt|apply Z.ltb_ge]; lia.
Qed.

End Calendar.

Lemma parse_date_only_nonempty (s : string) (y m d : Z) :
  parse_date_only s = Some (y, m, d) -> String.eqb s "" = false.
Proof. destruct s; [discriminate|reflexivity]. Qed.

(** * Part VII: the claims *)

Lemma classify_cases (K : Z) (x : number) :
  1074 <= K -> wf x -> is_nan x = false ->
  (in_low x = true /\ in_moderate x = false /\ in_high x = false) \/
  (in_low x = false /\ in_moderate x = true /\ in_high x = false) \/
  (in_low x = false /\ in_moderate x = false /\ in_high x = true).
Proof.
  intros HK Wx Nx. unfold in_low, in_moderate, in_high.
  rewrite !(SFltb_ord_b K HK), !(SFleb_ord_b K HK)
    by auto using Z2F_wf, Z2F_not_nan.
  rewrite !(ord_Z2F K HK) by lia.
  pose proof (pow2_pos K ltac:(lia)).
  destruct (Z.ltb_spec (ord K x) (20 * 2 ^ K)), (Z.leb_spec (20 * 2 ^ K) (ord K x)),
    (Z.ltb_spec (ord K x) (50 * 2 ^ K)), (Z.leb_spec (50 * 2 ^ K) (ord K x));
    cbn [andb]; auto; lia.
Qed.

(** ** The score and its tier *)

Lemma validated_example :
  validated (form_input 40 "no" "160" "0") 40 false (Z2F 160) (Some 0).
Proof.
  constructor; cbn [form_input age anaemia haemoglobin parasiteCount].
  - reflexivity.
  - lia.
  - reflexivity.
  - exists "160". split; reflexivity.
  - split; reflexivity.
  - constructor. split; [discriminate|reflexivity].
Defined.

(** C5: on a validated input the result is a finite number in [[0, 100]],
    and so is the clamped total before the rounding. *)
Theorem calculateRisk_range (data : Data) (a : Z) (yes : bool) (h : number) (p : option Z) :
  validated data a yes h p ->
  is_finite (calculateRisk data) = true /\
  SFleb (Z2F 0) (calculateRisk data) = true /\
  SFleb (calculateRisk data) (Z2F 100) = true /\
  SFleb (Z2F 0) (clamped_risk data) = true /\
  SFleb (clamped_risk data) (Z2F 100) = true.
Proof.
  intros V. destruct (validated_haemoglobin _ _ _ _ _ V) as (_ & Wh & Nh).
  pose proof (v_age_range _ _ _ _ _ V) as Ha.
  destruct (total_ok a yes h p ltac:(lia) Wh Nh (validated_count _ _ _ _ _ V)) as [Wt Nt].
  pose proof (nonneg_not_nan _ Nt) as Nn.
  rewrite (calculateRisk_validated _ _ _ _ _ V), (clamped_risk_validated _ _ _ _ _ V).
  unfold score.
  destruct (round1_clamp_range _ Wt Nn) as (_ & F & L & U).
  destruct (clamp_range 1074 scale_ok _ Wt Nn) as [L' U'].
  auto.
Qed.

Lemma calculateRisk_range_witness :
  is_finite (calculateRisk (form_input 40 "no" "160" "0")) = true /\
  SFleb (Z2F 0) (calculateRisk (form_input 40 "no" "160" "0")) = true /\
  SFleb (calculateRisk (form_input 40 "no" "160" "0")) (Z2F 100) = true /\
  SFleb (Z2F 0) (clamped_risk (form_input 40 "no" "160" "0")) = true /\
  SFleb (clamped_risk (form_input 40 "no" "160" "0")) (Z2F 100) = true.
Proof.
  exact (calculateRisk_range _ _ _ _ _ validated_example).
Defined.

(** C6: with age, anaemia and haemoglobin fixed, the score does not decrease
    when the parasite count grows. *)
Theorem calculateRisk_mono_parasite
    (data1 data2 : Data) (a : Z) (yes : bool) (h : number) (p1 p2 : Z) :
  validated data1 a yes h (Some p1) -> validated data2 a yes h (Some p2) ->
  p1 <= p2 ->
  SFleb (calculateRisk data1) (calculateRisk data2) = true.
Proof.
  intros V1 V2 Hp. destruct (validated_haemoglobin _ _ _ _ _ V1) as (_ & Wh & Nh).
  pose proof (v_age_range _ _ _ _ _ V1) as Ha.
  rewrite (calculateRisk_validated _ _ _ _ _ V1), (calculateRisk_validated _ _ _ _ _ V2).
  destruct (total_ok a yes h (Some p1) ltac:(lia) Wh Nh (validated_count _ _ _ _ _ V1))
    as [W1 N1].
  destruct (total_ok a yes h (Some p2) ltac:(lia) Wh Nh (validated_count _ _ _ _ _ V2))
    as [W2 N2].
  apply round1_clamp_mono; try assumption.
  destruct (age_part_ok a ltac:(lia)) as [Wa Na].
  destruct (anaemia_part_ok yes) as [Wb Nb].
  destruct (hb_part_ok h Wh Nh) as [Wc Nc].
  destruct (add_nonneg 1074 scale_ok _ _ Wa Wb Na Nb) as [Wab Nab].
  destruct (add_nonneg 1074 scale_ok _ _ Wab Wc Nab Nc) as [Wabc Nabc].
  destruct (parasite_part_ok (Some p1) (validated_count _ _ _ _ _ V1)) as [Wp1 Np1].
  destruct (parasite_part_ok (Some p2) (validated_count _ _ _ _ _ V2)) as [Wp2 Np2].
  unfold total. apply (add_mono 1074 scale_ok); try assumption.
  - apply (SFleb_refl 1074 scale_ok); auto using nonneg_not_nan.
  - now apply parasite_part_mono.
Qed.

Lemma validated_example_4 :
  validated (form_input 40 "no" "160" "4") 40 false (Z2F 160) (Some 4).
Proof.
  constructor; cbn [form_input age anaemia haemoglobin parasiteCount].
  - reflexivity.
  - lia.
  - reflexivity.
  - exists "160". split; reflexivity.
  - split; reflexivity.
  - constructor. split; [discriminate|reflexivity].
Defined.

Lemma calculateRisk_mono_parasite_witness :
  SFleb (calculateRisk (form_input 40 "no" "160" "0"))
        (calculateRisk (form_input 40 "no" "160" "4")) = true.
Proof.
  apply (calculateRisk_mono_parasite _ _ _ _ _ _ _ validated_example validated_example_4).
  lia.
Defined.

(** C7: with age, anaemia and parasite count fixed, the score does not
    increase when the haemoglobin grows, up to 150. *)
Theorem calculateRisk_mono_haemoglobin
    (data1 data2 : Data) (a : Z) (yes : bool) (h1 h2 : number) (p : option Z) :
  validated data1 a yes h1 p -> validated data2 a yes h2 p ->
  SFleb h1 h2 = true -> SFleb h2 (Z2F 150) = true ->
  SFleb (calculateRisk data2) (calculateRisk data1) = true.
Proof.
  intros V1 V2 Hh _.
  destruct (validated_haemoglobin _ _ _ _ _ V1) as (_ & Wh1 & Nh1).
  destruct (validated_haemoglobin _ _ _ _ _ V2) as (_ & Wh2 & Nh2).
  pose proof (v_age_range _ _ _ _ _ V1) as Ha.
  pose proof (validated_count _ _ _ _ _ V1) as Hp.
  rewrite (calculateRisk_validated _ _ _ _ _ V1), (calculateRisk_validated _ _ _ _ _ V2).
  destruct (total_ok a yes h1 p ltac:(lia) Wh1 Nh1 Hp) as [W1 N1].
  destruct (total_ok a yes h2 p ltac:(lia) Wh2 Nh2 Hp) as [W2 N2].
  apply round1_clamp_mono; try assumption.
  destruct (age_part_ok a ltac:(lia)) as [Wa Na].
  destruct (anaemia_part_ok yes) as [Wb Nb].
  destruct (hb_part_ok h1 Wh1 Nh1) as [Wc1 Nc1].
  destruct (hb_part_ok h2 Wh2 Nh2) as [Wc2 Nc2].
  destruct (add_nonneg 1074 scale_ok _ _ Wa Wb Na Nb) as [Wab Nab].
  destruct (add_nonneg 1074 scale_ok _ _ Wab Wc1 Nab Nc1) as [Wabc1 Nabc1].
  destruct (add_nonneg 1074 scale_ok _ _ Wab Wc2 Nab Nc2) as [Wabc2 Nabc2].
  destruct (parasite_part_ok p Hp) as [Wp Np].
  unfold total. apply (add_mono 1074 scale_ok); try assumption.
  - apply (add_mono 1074 scale_ok); try assumption.
    + apply (SFleb_refl 1074 scale_ok); auto using nonneg_not_nan.
    + now apply hb_part_mono.
  - apply (SFleb_refl 1074 scale_ok); auto using nonneg_not_nan.
Qed.

Lemma validated_example_100 :
  validated (form_input 40 "no" "100" "0") 40 false (Z2F 100) (Some 0).
Proof.
  constructor; cbn [form_input age anaemia haemoglobin parasiteCount].
  - reflexivity.
  - lia.
  - reflexivity.
  - exists "100". split; reflexivity.
  - split; reflexivity.
  - constructor. split; [discriminate|reflexivity].
Defined.

Lemma validated_example_150 :
  validated (form_input 40 "no" "150" "0") 40 false (Z2F 150) (Some 0).
Proof.
  constructor; cbn [form_input age anaemia haemoglobin parasiteCount].
  - reflexivity.
  - lia.
  - reflexivity.
  - exists "150". split; reflexivity.
  - split; reflexivity.
  - constructor. split; [discriminate|reflexivity].
Defined.

Lemma calculateRisk_mono_haemoglobin_witness :
  SFleb (calculateRisk (form_input 40 "no" "150" "0"))
        (calculateRisk (form_input 40 "no" "100" "0")) = true.
Proof.
  apply (calculateRisk_mono_haemoglobin _ _ _ _ _ _ _ validated_example_100
           validated_example_150); reflexivity.
Defined.

(** C8: the three worked examples: 15.0 and Low, 75.0 and High, 12.0 and
    Low. *)
Theorem worked_examples :
  calculateRisk (form_input 70 "no" "150" "not-available") = Z2F 15 /\
  getRiskInterpretation (Z2F 15) = interpretation_of Low /\
  calculateRisk (form_input 3 "yes" "100" "4") = Z2F 75 /\
  getRiskInterpretation (Z2F 75) = interpretation_of High /\
  calculateRisk (form_input 40 "no" "160" "0") = Z2F 12 /\
  getRiskInterpretation (Z2F 12) = interpretation_of Low.
Proof. repeat split; vm_compute; reflexivity. Qed.

(** C10: when ten times the clamped total is exactly [n + 1/2], the result
    is the Number of [(n + 1) / 10]: a tie goes up. *)
Theorem round_half_up (data : Data) (n : Z) :
  0 <= n < 1000 ->
  mul (clamped_risk data) (Z2F 10) = half n ->
  calculateRisk data = tenth (n + 1).
Proof.
  intros Hn Hmul. unfold calculateRisk. rewrite Hmul.
  rewrite (Math_round_half 1074 scale_ok) by lia. reflexivity.
Qed.

Lemma round_half_up_witness :
  calculateRisk (form_input 5 "no" "149.25" "0") = tenth 17.
Proof.
  apply (round_half_up (form_input 5 "no" "149.25" "0") 16); [lia|].
  vm_compute. reflexivity.
Defined.

(** C2: the classifier gives each range its tier and label, and on
    [[0, 100]] exactly one of the three ranges holds. *)
Theorem classifier_partition (x : number) :
  wf x ->
  (in_low x = true -> getRiskInterpretation x = interpretation_of Low) /\
  (in_moderate x = true -> getRiskInterpretation x = interpretation_of Moderate) /\
  (in_high x = true -> getRiskInterpretation x = interpretation_of High) /\
  (SFleb (Z2F 0) x = true -> SFleb x (Z2F 100) = true ->
   (in_low x = true /\ in_moderate x = false /\ in_high x = false) \/
   (in_low x = false /\ in_moderate x = true /\ in_high x = false) \/
   (in_low x = false /\ in_moderate x = false /\ in_high x = true)).
Proof.
  intros Wx.
  assert (Hcode : getRiskInterpretation x =
                  if in_low x then interpretation_of Low
                  else if SFltb x (Z2F 50) then interpretation_of Moderate
                  else interpretation_of High) by reflexivity.
  destruct (is_nan x) eqn:Nx.
  - destruct x; try discriminate. repeat split; try discriminate.
  - pose proof (classify_cases 1074 x scale_ok Wx Nx) as Hc.
    repeat split; try (intros; exact Hc).
    + intros A. now rewrite Hcode, A.
    + intros B. destruct Hc as [(A & B' & C)|[(A & _ & C)|(A & B' & C)]]; try congruence.
      rewrite Hcode, A. unfold in_moderate in B.
      apply andb_true_iff in B. destruct B as [_ B]. now rewrite B.
    + intros C. destruct Hc as [(A & B & C')|[(A & B & C')|(A & B & _)]]; try congruence.
      rewrite Hcode, A. unfold in_moderate in B.
      assert (H20 : SFleb (Z2F 20) x = true).
      { rewrite (SFleb_ord_b 1074 scale_ok) by auto using Z2F_wf, Z2F_not_nan.
        unfold in_low in A.
        rewrite (SFltb_ord_b 1074 scale_ok) in A by auto using Z2F_wf, Z2F_not_nan.
        apply Z.leb_le. apply Z.ltb_ge in A. exact A. }
      rewrite H20 in B. cbn [andb] in B. now rewrite B.
Qed.

Lemma classifier_partition_witness :
  wf (Z2F 12) /\ in_low (Z2F 12) = true /\
  getRiskInterpretation (Z2F 12) = interpretation_of Low.
Proof.
  split; [reflexivity|]. split; [reflexivity|].
  exact (proj1 (classifier_partition (Z2F 12) eq_refl) eq_refl).
Defined.

Ltac step_validateForm :=
  repeat (cbn [st_form st_errors push app];
          match goal with
          | |- context [if ?b then _ else _] =>
              lazymatch b with
              | context [if _ then _ else _] => fail
              | _ => destruct b
              end
          end);
  cbn [st_form st_errors push app]; try reflexivity.

Lemma validateForm_fields (env : Env) (fd : Data) :
  validateForm env fd =
  (dob_errors env fd ++ anaemia_errors fd ++ haemoglobin_errors fd
   ++ parasite_errors fd)%list.
Proof.
  unfold validateForm, validateForm_run, dob_errors, anaemia_errors,
    haemoglobin_errors, parasite_errors.
  step_validateForm.
Qed.

Lemma validateForm_keeps_input (env : Env) (fd : Data) :
  st_form (validateForm_run env fd) = fd.
Proof. unfold validateForm_run. step_validateForm. Qed.

(** C9: a non-empty haemoglobin field that parses to NaN gets no haemoglobin
    message, and with the other fields in order the input is accepted. *)
Theorem nan_haemoglobin_accepted (env : Env) (fd : Data) (s : string) :
  haemoglobin fd = Some s -> s <> "" -> is_nan (parseFloat s) = true ->
  haemoglobin_errors fd = [] /\
  ~ In "Haemoglobin must be between 20-180 g/L" (validateForm env fd) /\
  ~ In "Haemoglobin level is required" (validateForm env fd) /\
  (dob_errors env fd = [] -> ToBoolean (anaemia fd) = true ->
   ToBoolean (parasiteCount fd) = true -> validateForm env fd = []).
Proof.
  intros Hs Hne Hnan.
  assert (Hh : haemoglobin_errors fd = []).
  { unfold haemoglobin_errors. rewrite Hs. cbn [ToBoolean ToString].
    destruct (String.eqb_spec s ""); [contradiction|]. cbn [negb].
    destruct (parseFloat s); try discriminate. reflexivity. }
  assert (Hnot : forall msg,
             msg = "Haemoglobin must be between 20-180 g/L" \/
             msg = "Haemoglobin level is required" ->
             ~ In msg (validateForm env fd)).
  { intros msg Hmsg. rewrite validateForm_fields, Hh.
    unfold dob_errors, anaemia_errors, parasite_errors.
    repeat match goal with
           | |- context [if ?b then _ else _] => destruct b
           end; cbn [app In]; destruct Hmsg as [-> | ->]; intuition discriminate. }
  repeat split; auto.
  intros Hd Ha Hp. rewrite validateForm_fields, Hd, Hh.
  unfold anaemia_errors, parasite_errors. rewrite Ha, Hp. reflexivity.
Qed.

Lemma nan_haemoglobin_accepted_witness :
  validateForm (utc_env march_1_2024)
    {| dob := Some "1990-05-17"; age := None; anaemia := Some "no";
       haemoglobin := Some "abc"; parasiteCount := Some "2" |} = [].
Proof.
  refine (proj2 (proj2 (proj2 (nan_haemoglobin_accepted (utc_env march_1_2024)
    {| dob := Some "1990-05-17"; age := None; anaemia := Some "no";
       haemoglobin := Some "abc"; parasiteCount := Some "2" |} "abc"
    eq_refl _ eq_refl))) _ _ _); [discriminate|vm_compute; reflexivity..].
Defined.

(** X1: where local time is UTC or ahead of it by less than a day,
    [calculateAge] on a date [y]-[m]-[d] of the date input returns the
    difference of the years, less one exactly when today's local month and
    day come before [m] and [d]. *)
Theorem calculateAge_calendar (env : Env) (s : string) (y m d : Z) :
  east_of_utc env -> time_value (env_now env) ->
  parse_date_only s = Some (y, m, d) ->
  calculateAge env s =
    Z2F (age_on (local_today env) (y, m, d)).
Proof. intros He Hn Hs. apply (calculateAge_east env He Hn s y m d Hs). Qed.

Lemma utc_env_east (now : Z) : east_of_utc (utc_env now).
Proof. intros t. cbn. unfold msPerDay. lia. Qed.

Lemma march_1_2024_time_value : time_value march_1_2024.
Proof. unfold time_value. vm_compute. split; discriminate. Qed.

Lemma calculateAge_calendar_witness :
  calculateAge (utc_env march_1_2024) "2000-03-02" = Z2F 23.
Proof.
  exact (calculateAge_calendar (utc_env march_1_2024) "2000-03-02" 2000 3 2
           (utc_env_east march_1_2024) march_1_2024_time_value eq_refl).
Defined.

(** X2: where local time is UTC or ahead of it by less than a day, a date
    of birth after today's local date gets a negative age, and
    [validateForm], the other fields being in order, returns the one message
    that the date cannot be in the future. *)
Theorem future_date_rejected (env : Env) (fd : Data) (s : string) (y m d : Z) :
  east_of_utc env -> time_value (env_now env) ->
  dob fd = Some s -> parse_date_only s = Some (y, m, d) ->
  date_after (local_today env) (y, m, d) = true ->
  anaemia_errors fd = [] -> haemoglobin_errors fd = [] -> parasite_errors fd = [] ->
  SFltb (calculateAge env s) (Z2F 0) = true /\
  validateForm env fd = ["Date of birth cannot be in the future"].
Proof.
  intros He Hn Hdob Hs Hafter Ha Hh Hp.
  destruct (calculateAge_future env He Hn s y m d Hs Hafter) as [Hneg Hold].
  split; [assumption|].
  rewrite validateForm_fields, Ha, Hh, Hp. unfold dob_errors.
  rewrite Hdob. cbn [ToBoolean ToString].
  rewrite (parse_date_only_nonempty s y m d Hs), Hneg, Hold. reflexivity.
Qed.

Lemma future_date_rejected_witness :
  SFltb (calculateAge (utc_env march_1_2024) "2024-03-02") (Z2F 0) = true /\
  validateForm (utc_env march_1_2024)
    {| dob := Some "2024-03-02"; age := Some (Z2F (-1)); anaemia := Some "no";
       haemoglobin := Some "120"; parasiteCount := Some "0" |} =
    ["Date of birth cannot be in the future"].
Proof.
  exact (future_date_rejected (utc_env march_1_2024)
           {| dob := Some "2024-03-02"; age := Some (Z2F (-1)); anaemia := Some "no";
              haemoglobin := Some "120"; parasiteCount := Some "0" |}
           "2024-03-02" 2024 3 2
           (utc_env_east march_1_2024) march_1_2024_time_value eq_refl eq_refl eq_refl
           eq_refl eq_refl eq_refl).
Defined.

(** X3: an input that [validateForm] accepts can score NaN: the haemoglobin
    field [abc] passes the range check, and [calculateRisk] then returns
    NaN, which is in none of the three ranges of the classifier;
    [getRiskInterpretation] gives it the text of its last branch. *)
Theorem accepted_input_scores_nan :
  validateForm (utc_env march_1_2024)
    {| dob := Some "1990-05-17"; age := Some (Z2F 33); anaemia := Some "no";
       haemoglobin := Some "abc"; parasiteCount := Some "2" |} = [] /\
  calculateAge (utc_env march_1_2024) "1990-05-17" = Z2F 33 /\
  is_nan (calculateRisk
    {| dob := Some "1990-05-17"; age := Some (Z2F 33); anaemia := Some "no";
       haemoglobin := Some "abc"; parasiteCount := Some "2" |}) = true /\
  in_low (calculateRisk
    {| dob := Some "1990-05-17"; age := Some (Z2F 33); anaemia := Some "no";
       haemoglobin := Some "abc"; parasiteCount := Some "2" |}) = false /\
  in_moderate (calculateRisk
    {| dob := Some "1990-05-17"; age := Some (Z2F 33); anaemia := Some "no";
       haemoglobin := Some "abc"; parasiteCount := Some "2" |}) = false /\
  in_high (calculateRisk
    {| dob := Some "1990-05-17"; age := Some (Z2F 33); anaemia := Some "no";
       haemoglobin := Some "abc"; parasiteCount := Some "2" |}) = false /\
  getRiskInterpretation (calculateRisk
    {| dob := Some "1990-05-17"; age := Some (Z2F 33); anaemia := Some "no";
       haemoglobin := Some "abc"; parasiteCount := Some "2" |}) = interpretation_of High.
Proof. repeat split; vm_compute; reflexivity. Qed.

(** C3, at the failing inputs: five hours behind UTC, at 20:00 on 1 March
    2024, with the anaemia and haemoglobin fields empty.  For the birth date
    2 March 2024, a day ahead, three messages are applicable and
    [validateForm] returns two: the message for the future date is not among
    them.  For the birth date 2 March 1903 the age is 120, the date is a valid
    one and two messages are applicable; [validateForm] returns three, the
    first one for an age above 120.  The input is left as it was. *)
Theorem validateForm_not_all_applicable :
  local_today (utc_minus_5 march_2_2024_1am) = (2024, 3, 1) /\
  applicable_errors (local_today (utc_minus_5 march_2_2024_1am))
    {| dob := Some "2024-03-02"; age := None; anaemia := Some "";
       haemoglobin := Some ""; parasiteCount := Some "0" |}
  = ["Date of birth cannot be in the future"; "Please select anaemia status";
     "Haemoglobin level is required"] /\
  validateForm (utc_minus_5 march_2_2024_1am)
    {| dob := Some "2024-03-02"; age := None; anaemia := Some "";
       haemoglobin := Some ""; parasiteCount := Some "0" |}
  = ["Please select anaemia status"; "Haemoglobin level is required"] /\
  age_on (local_today (utc_minus_5 march_2_2024_1am)) (1903, 3, 2) = 120 /\
  applicable_errors (local_today (utc_minus_5 march_2_2024_1am))
    {| dob := Some "1903-03-02"; age := None; anaemia := Some "";
       haemoglobin := Some ""; parasiteCount := Some "0" |}
  = ["Please select anaemia status"; "Haemoglobin level is required"] /\
  validateForm (utc_minus_5 march_2_2024_1am)
    {| dob := Some "1903-03-02"; age := None; anaemia := Some "";
       haemoglobin := Some ""; parasiteCount := Some "0" |}
  = ["Please check the date of birth - age seems unrealistic";
     "Please select anaemia status"; "Haemoglobin level is required"] /\
  st_form (validateForm_run (utc_minus_5 march_2_2024_1am)
    {| dob := Some "2024-03-02"; age := None; anaemia := Some "";
       haemoglobin := Some ""; parasiteCount := Some "0" |})
  = {| dob := Some "2024-03-02"; age := None; anaemia := Some "";
       haemoglobin := Some ""; parasiteCount := Some "0" |}.
Proof. repeat split; vm_compute; reflexivity. Qed.

(** C4, at the failing input: five hours behind UTC, at 20:00 on 1 March
    2024, the birth date 2 March 2024 is a day ahead and gets the age 0,
    which is not negative, and no message from [validateForm]; the birth date
    2 March 2000 gets the age 24, not decremented, although today's month and
    day come before the birthday and the contract's age is 23. *)
Theorem future_birth_date_accepted :
  local_today (utc_minus_5 march_2_2024_1am) = (2024, 3, 1) /\
  date_after (local_today (utc_minus_5 march_2_2024_1am)) (2024, 3, 2) = true /\
  calculateAge (utc_minus_5 march_2_2024_1am) "2024-03-02" = Z2F 0 /\
  SFltb (calculateAge (utc_minus_5 march_2_2024_1am) "2024-03-02") (Z2F 0) = false /\
  validateForm (utc_minus_5 march_2_2024_1am)
    {| dob := Some "2024-03-02"; age := Some (Z2F 0); anaemia := Some "no";
       haemoglobin := Some "120"; parasiteCount := Some "0" |} = [] /\
  age_on (local_today (utc_minus_5 march_2_2024_1am)) (2000, 3, 2) = 23 /\
  calculateAge (utc_minus_5 march_2_2024_1am) "2000-03-02" = Z2F 24.
Proof. repeat split; vm_compute; reflexivity. Qed.

(** * Part VIII: the rest of the program *)

Lemma clamped_risk_raw (data : Data) : clamped_risk data = clamp (raw_risk data).
Proof. reflexivity. Qed.

Lemma is_nan_eq (x : number) : is_nan x = true -> x = NaN.
Proof. destruct x; try discriminate. reflexivity. Qed.

Lemma add_nan_l (y : number) : add NaN y = NaN.
Proof. reflexivity. Qed.

Lemma add_nan_r (x : number) : add x NaN = NaN.
Proof. destruct x; reflexivity. Qed.

Lemma add_wf (x y : number) : wf x -> wf y -> wf (add x y).
Proof.
  intros Hx Hy.
  destruct (is_finite x) eqn:Fx; [destruct (is_finite y) eqn:Fy|].
  - apply (add_finite_ord 1074 scale_ok x y Hx Hy Fx Fy).
  - destruct x as [sx|sx| |sx mx ex], y as [sy|sy| |sy my ey]; try discriminate; reflexivity.
  - destruct x as [sx|sx| |sx mx ex], y as [sy|sy| |sy my ey]; try discriminate; try reflexivity;
      destruct sx, sy; reflexivity.
Qed.

Lemma sub_const_wf (c y : number) : wf c -> is_finite c = true -> wf y -> wf (sub c y).
Proof.
  intros Hc Fc Hy. destruct (is_nan y) eqn:Ny.
  - apply is_nan_eq in Ny. subst y. destruct c; reflexivity.
  - apply (sub_const_not_nan 1074 scale_ok c y Hc Hy Fc Ny).
Qed.

Lemma Math_max_wf (a b : number) : wf a -> wf b -> wf (Math_max a b).
Proof.
  intros Ha Hb. unfold Math_max. destruct (is_nan a || is_nan b); [reflexivity|].
  destruct a as [[]| | |], b as [[]| | |]; try assumption;
    match goal with |- context [if ?c then _ else _] => destruct c end; assumption.
Qed.

Lemma parseInt_wf (s : string) : wf (parseInt s).
Proof.
  unfold parseInt.
  destruct (scan_sign (skip_ws s)) as [neg t1].
  match goal with |- context [let '(_, _) := ?p in _] => destruct p as [radix t2] end.
  destruct (scan_digits radix t2 0 0) as [[v n] r].
  destruct (n =? 0); [reflexivity|]. destruct (v =? 0); [reflexivity|].
  apply binary_normalize_wf.
Qed.

Lemma raw_risk_wf (data : Data) : wf (number_of_field (age data)) -> wf (raw_risk data).
Proof.
  intros Ha. unfold raw_risk.
  assert (W3 : wf lit_0_3) by reflexivity.
  assert (W2 : wf lit_0_2) by reflexivity.
  assert (Hage : wf (if SFltb (number_of_field (age data)) (Z2F 5) then add (Z2F 0) (Z2F 20)
                     else if SFltb (Z2F 65) (number_of_field (age data))
                          then add (Z2F 0) (Z2F 15)
                          else add (Z2F 0) (mul (number_of_field (age data)) lit_0_3))).
  { destruct (SFltb _ _); [reflexivity|]. destruct (SFltb _ _); [reflexivity|].
    apply add_wf; [reflexivity|].
    apply (mul_const_wf 1074 scale_ok lit_0_3 W3 eq_refl lit_0_3_pos _ Ha). }
  set (r1 := if SFltb (number_of_field (age data)) (Z2F 5) then _ else _) in *.
  assert (Han : wf (if strict_eq (anaemia data) "yes" then add r1 (Z2F 25) else r1)).
  { destruct (strict_eq _ _); [apply add_wf; [assumption|reflexivity]|assumption]. }
  set (r2 := if strict_eq (anaemia data) "yes" then _ else _) in *.
  assert (Hhb : wf (Math_max (Z2F 0)
                      (mul (sub (Z2F 150) (ToNumber (haemoglobin data))) lit_0_2))).
  { apply Math_max_wf; [reflexivity|].
    apply (mul_const_wf 1074 scale_ok lit_0_2 W2 eq_refl lit_0_2_pos).
    apply sub_const_wf; [reflexivity|reflexivity|].
    unfold ToNumber. destruct (haemoglobin data); [apply StringToNumber_wf|reflexivity]. }
  destruct (negb _); apply add_wf; try assumption.
  - apply add_wf; assumption.
  - apply (mul_const_wf 1074 scale_ok (Z2F 5) eq_refl eq_refl five_pos _ (parseInt_wf _)).
Qed.

Lemma round1_nan : round1 NaN = NaN.
Proof. reflexivity. Qed.

Lemma clamp_nan : clamp NaN = NaN.
Proof. reflexivity. Qed.

Lemma calculateRisk_raw (data : Data) : calculateRisk data = round1 (clamp (raw_risk data)).
Proof. reflexivity. Qed.

Lemma calculateRisk_any (data : Data) :
  wf (number_of_field (age data)) ->
  (is_nan (raw_risk data) = true /\ calculateRisk data = NaN) \/
  (is_nan (raw_risk data) = false /\
   exists n, 0 <= n <= 1000 /\ calculateRisk data = tenth n).
Proof.
  intros Ha. rewrite calculateRisk_raw.
  destruct (is_nan (raw_risk data)) eqn:Hn.
  - left. split; [reflexivity|]. apply is_nan_eq in Hn. rewrite Hn. reflexivity.
  - right. split; [reflexivity|].
    destruct (times_ten_clamp 1074 scale_ok _ (raw_risk_wf data Ha) Hn)
      as (_ & _ & _ & Hr & He).
    eexists. split; [exact Hr|exact He].
Qed.

(** ** NaN in, NaN out *)

Lemma mul_nan_l (c : number) : mul NaN c = NaN.
Proof. reflexivity. Qed.

Lemma sub_nan_r (c : number) : sub c NaN = NaN.
Proof. destruct c; reflexivity. Qed.

Lemma Math_max_nan_r (a : number) : Math_max a NaN = NaN.
Proof. unfold Math_max. rewrite orb_true_r. reflexivity. Qed.

Lemma raw_risk_nan (data : Data) :
  is_nan (number_of_field (age data)) = true \/
  is_nan (ToNumber (haemoglobin data)) = true \/
  (strict_eq (parasiteCount data) "not-available" = false /\
   is_nan (parseInt (ToString (parasiteCount data))) = true) ->
  raw_risk data = NaN.
Proof.
  unfold raw_risk. intros [H|[H|[Hs H]]].
  - apply is_nan_eq in H. rewrite H.
    change (SFltb NaN (Z2F 5)) with false. change (SFltb (Z2F 65) NaN) with false.
    cbn iota. rewrite mul_nan_l, add_nan_r.
    replace (if strict_eq (anaemia data) "yes" then add NaN (Z2F 25) else NaN) with NaN
      by (destruct (strict_eq _ _); reflexivity).
    rewrite add_nan_l. destruct (negb _); reflexivity.
  - apply is_nan_eq in H. rewrite H, sub_nan_r, mul_nan_l, Math_max_nan_r, add_nan_r.
    destruct (negb _); reflexivity.
  - apply is_nan_eq in H. rewrite Hs, H. cbn [negb]. rewrite mul_nan_l, add_nan_r.
    reflexivity.
Qed.

(** ** Saturation *)

Lemma same_ord (K : Z) (x y : number) :
  1074 <= K -> wf x -> wf y -> is_finite x = true -> is_finite y = true ->
  is_zero x = false -> is_zero y = false ->
  ord K x = ord K y -> x = y.
Proof.
  intros HK Wx Wy Fx Fy Zx Zy H.
  rewrite <- (RN_exact K x), <- (RN_exact K y) by auto.
  now rewrite H.
Qed.

Lemma clamp_above_at (K : Z) (x : number) :
  1074 <= K -> wf x -> SFleb (Z2F 100) x = true -> clamp x = Z2F 100.
Proof.
  intros HK Wx Hx. destruct (SFleb_not_nan _ _ Hx) as [_ Nx].
  destruct (clamp_spec K HK x Wx Nx) as (Wc & Nc & Fc & Oc).
  apply (SFleb_ord K) in Hx; [|assumption|reflexivity|assumption|reflexivity|assumption].
  rewrite (ord_Z2F K HK) in Hx by lia.
  pose proof (pow2_pos K ltac:(lia)) as HP.
  assert (Ho : ord K (clamp x) = ord K (Z2F 100)).
  { rewrite Oc, (ord_Z2F K HK) by lia. lia. }
  apply (same_ord K); try assumption; try reflexivity.
  destruct (is_zero (clamp x)) eqn:Hz; [|reflexivity].
  apply (is_zero_ord K HK _ Wc Fc) in Hz.
  rewrite Hz, (ord_Z2F K HK) in Ho by lia. lia.
Qed.

Lemma clamp_above (x : number) :
  wf x -> SFleb (Z2F 100) x = true -> clamp x = Z2F 100.
Proof. apply (clamp_above_at 1074 x scale_ok). Qed.

Lemma total_saturated (a : Z) (yes : bool) (h : number) (n : Z) :
  0 <= a -> wf h -> is_nan h = false -> 20 <= n ->
  wf (total a yes h (Some n)) /\ SFleb (Z2F 100) (total a yes h (Some n)) = true.
Proof.
  intros Ha Wh Nh Hn.
  destruct (age_part_ok a Ha) as [Wa Na].
  destruct (anaemia_part_ok yes) as [Wb Nb].
  destruct (hb_part_ok h Wh Nh) as [Wc Nc].
  destruct (add_nonneg 1074 scale_ok _ _ Wa Wb Na Nb) as [Wab Nab].
  destruct (add_nonneg 1074 scale_ok _ _ Wab Wc Nab Nc) as [Wabc Nabc].
  assert (Hp : forall k, Some n = Some k -> 0 <= k) by (intros k [= <-]; lia).
  destruct (parasite_part_ok (Some n) Hp) as [Wp Np].
  split; [apply add_wf; assumption|].
  unfold total.
  change (Z2F 100) with (add (Z2F 0) (parasite_part (Some 20))).
  apply (add_mono 1074 scale_ok); try assumption; try reflexivity.
  - apply (nonneg_ge_0 1074 scale_ok); assumption.
  - apply parasite_part_mono. assumption.
Qed.

Lemma sub_wf (x y : number) : wf x -> wf y -> wf (sub x y).
Proof.
  intros Hx Hy.
  destruct (is_finite x) eqn:Fx; [destruct (is_finite y) eqn:Fy|].
  - apply (sub_finite_ord 1074 scale_ok x y Hx Hy Fx Fy).
  - destruct x as [sx|sx| |sx mx ex], y as [sy|sy| |sy my ey]; try discriminate; reflexivity.
  - destruct x as [sx|sx| |sx mx ex], y as [sy|sy| |sy my ey]; try discriminate; try reflexivity;
      destruct sx, sy; reflexivity.
Qed.

Lemma getFullYear_wf (env : Env) (d : Date) : wf (getFullYear env d).
Proof. destruct d; [apply Z2F_wf|reflexivity]. Qed.

Lemma calculateAge_wf (env : Env) (s : string) : wf (calculateAge env s).
Proof.
  unfold calculateAge. destruct (_ || _).
  - apply sub_wf; [apply sub_wf; apply getFullYear_wf|apply Z2F_wf].
  - apply sub_wf; apply getFullYear_wf.
Qed.

Lemma calculateAge_invalid (env : Env) (s : string) :
  Date_parse env s = None -> calculateAge env s = NaN.
Proof.
  intros H. unfold calculateAge. rewrite H. cbn [getFullYear getMonth getDate].
  rewrite !sub_nan_r. reflexivity.
Qed.

Lemma not_below_and_above_at (K : Z) (x : number) (a b : Z) :
  1074 <= K ->
  wf x -> - 2 ^ 53 < a < 2 ^ 53 -> - 2 ^ 53 < b < 2 ^ 53 -> a <= b ->
  SFltb x (Z2F a) = true -> SFltb (Z2F b) x = false.
Proof.
  intros HK Wx Ha Hb Hab H.
  destruct (is_nan x) eqn:Nx; [apply is_nan_eq in Nx; subst x; discriminate H|].
  rewrite (SFltb_ord_b K HK) in H |- * by auto using Z2F_wf, Z2F_not_nan.
  rewrite (ord_Z2F K HK) in H |- * by assumption.
  apply Z.ltb_lt in H. apply Z.ltb_ge.
  pose proof (pow2_pos K ltac:(lia)). nia.
Qed.

Lemma not_below_and_above (x : number) (a b : Z) :
  wf x -> - 2 ^ 53 < a < 2 ^ 53 -> - 2 ^ 53 < b < 2 ^ 53 -> a <= b ->
  SFltb x (Z2F a) = true -> SFltb (Z2F b) x = false.
Proof. apply (not_below_and_above_at 1074 x a b scale_ok). Qed.

Lemma dob_errors_length (env : Env) (fd : Data) : (List.length (dob_errors env fd) <= 1)%nat.
Proof.
  unfold dob_errors. destruct (negb _); [cbn [List.length]; lia|].
  destruct (SFltb (calculateAge env _) (Z2F 0)) eqn:H.
  - rewrite (not_below_and_above _ 0 120 (calculateAge_wf env _)) by (assumption || lia).
    cbn [List.length app]. lia.
  - destruct (SFltb (Z2F 120) _); cbn [List.length app]; lia.
Qed.

(** ** Decimal digits *)

Lemma append_assoc (a b c : string) : (a ++ b) ++ c = a ++ (b ++ c).
Proof. induction a as [|x a IH]; cbn [append]; [reflexivity|now rewrite IH]. Qed.

Lemma append_nil_r (a : string) : a ++ "" = a.
Proof. induction a as [|x a IH]; cbn [append]; [reflexivity|now rewrite IH]. Qed.

Lemma digits_of_S (f : nat) (n : Z) (acc : string) :
  digits_of (S f) n acc =
  if n <? 10 then String (digit_char (n mod 10)) acc
  else digits_of f (n / 10) (String (digit_char (n mod 10)) acc).
Proof. reflexivity. Qed.

Lemma digits_of_acc (f : nat) (n : Z) (acc : string) :
  digits_of f n acc = digits_of f n "" ++ acc.
Proof.
  revert n acc. induction f as [|f IH]; intros n acc; cbn [digits_of]; [reflexivity|].
  destruct (n <? 10); [reflexivity|].
  rewrite (IH _ (String _ acc)), (IH _ (String _ "")), append_assoc. reflexivity.
Qed.

Lemma digits_of_fuel (f1 f2 : nat) (n : Z) (acc : string) :
  0 <= n < 10 ^ Z.of_nat (S f1) -> n < 10 ^ Z.of_nat (S f2) ->
  digits_of (S f1) n acc = digits_of (S f2) n acc.
Proof.
  revert f2 n acc. induction f1 as [|f1 IH]; intros f2 n acc H1 H2.
  - cbn [digits_of]. change (10 ^ Z.of_nat 1) with 10 in H1.
    destruct (Z.ltb_spec n 10); [reflexivity|lia].
  - cbn [digits_of]. destruct (Z.ltb_spec n 10) as [|Hn]; [reflexivity|].
    destruct f2 as [|f2].
    + change (10 ^ Z.of_nat 1) with 10 in H2. lia.
    + apply (IH f2 (n / 10)).
      * rewrite Nat2Z.inj_succ, Z.pow_succ_r in H1 by lia.
        split; [apply Z.div_pos; lia|apply Z.div_lt_upper_bound; lia].
      * rewrite Nat2Z.inj_succ, Z.pow_succ_r in H2 by lia.
        apply Z.div_lt_upper_bound; lia.
Qed.

Lemma lt_pow10_log2 (n : Z) : 0 <= n -> n < 10 ^ Z.of_nat (S (Z.to_nat (Z.log2 n))).
Proof.
  intros Hn. destruct (Z.eq_dec n 0) as [->|Hz]; [reflexivity|].
  pose proof (Z.log2_nonneg n). pose proof (Z.log2_spec n ltac:(lia)) as [_ Hu].
  rewrite Nat2Z.inj_succ, Z2Nat.id by assumption.
  apply Z.lt_le_trans with (1 := Hu).
  apply Z.pow_le_mono_l. lia.
Qed.

Lemma ZToString_fuel (f : nat) (n : Z) :
  0 <= n < 10 ^ Z.of_nat (S f) -> digits_of (S f) n "" = ZToString n.
Proof.
  intros H. unfold ZToString. apply digits_of_fuel; [assumption|].
  apply lt_pow10_log2. lia.
Qed.

Lemma ZToString_step (t d : Z) :
  0 < t -> 0 <= d <= 9 ->
  ZToString (10 * t + d) = ZToString t ++ String (digit_char d) "".
Proof.
  intros Ht Hd.
  pose proof (lt_pow10_log2 t ltac:(lia)) as Hb.
  set (f := Z.to_nat (Z.log2 t)) in *.
  rewrite <- (ZToString_fuel (S f) (10 * t + d)).
  - rewrite digits_of_S. destruct (Z.ltb_spec (10 * t + d) 10); [lia|].
    replace ((10 * t + d) / 10) with t
      by (Z.div_mod_to_equations; lia).
    replace ((10 * t + d) mod 10) with d
      by (Z.div_mod_to_equations; lia).
    rewrite digits_of_acc. reflexivity.
  - rewrite Nat2Z.inj_succ, Z.pow_succ_r by lia. lia.
Qed.

Lemma ZToString_mul10 (t : Z) : 0 < t -> ZToString (10 * t) = ZToString t ++ "0".
Proof.
  intros Ht. rewrite <- (Z.add_0_r (10 * t)). apply (ZToString_step t 0); lia.
Qed.

Lemma ZToString_pow10 (s : Z) (j : nat) :
  0 < s -> ZToString (s * 10 ^ Z.of_nat j) = ZToString s ++ zeros j.
Proof.
  intros Hs. induction j as [|j IH].
  - rewrite Z.mul_1_r. cbn [zeros]. now rewrite append_nil_r.
  - rewrite Nat2Z.inj_succ, Z.pow_succ_r by lia.
    replace (s * (10 * 10 ^ Z.of_nat j)) with (10 * (s * 10 ^ Z.of_nat j)) by lia.
    rewrite ZToString_mul10 by (pose proof (Z.pow_pos_nonneg 10 (Z.of_nat j)); nia).
    rewrite IH, append_assoc. f_equal.
    clear. induction j as [|j IH]; [reflexivity|]. cbn [zeros append]. now rewrite IH.
Qed.

Lemma count_digits_le (f : nat) (n d : Z) :
  1 <= d -> n < 10 ^ d -> 1 <= count_digits f n <= d.
Proof.
  revert n d. induction f as [|f IH]; intros n d Hd Hn; cbn [count_digits]; [lia|].
  destruct (Z.ltb_spec n 10); [lia|].
  assert (2 <= d).
  { destruct (Z.eq_dec d 1) as [->|]; [change (10 ^ 1) with 10 in Hn; lia|lia]. }
  assert (n / 10 < 10 ^ (d - 1)).
  { apply Z.div_lt_upper_bound; [lia|].
    rewrite <- Z.pow_succ_r by lia. now replace (Z.succ (d - 1)) with d by lia. }
  specialize (IH (n / 10) (d - 1) ltac:(lia) ltac:(assumption)). lia.
Qed.

(** ** The string of an integer *)

Lemma decimal_value_int (c j : Z) :
  0 <= c -> 0 <= j -> decimal_value false c j = Z2F (c * 10 ^ j).
Proof.
  intros Hc Hj. unfold decimal_value.
  destruct (Z.leb_spec 0 j); [|lia].
  pose proof (Z.pow_pos_nonneg 10 j ltac:(lia) Hj).
  unfold ratio_to_number. destruct (c * 10 ^ j) as [|v|v] eqn:Hv; [reflexivity| |lia].
  assert (Hp : 2 ^ 1076 = 2 * 2 ^ 1075) by reflexivity.
  rewrite Z2F_RN, <- (RN_scale 0 1076 (Z.pos v)) by lia. rewrite Hp. clear Hp.
  generalize (2 ^ 1075). intros P.
  assert (Hd : Z.div_eucl (Z.pos v * P) 1 = (Z.pos v * P, 0)).
  { pose proof (Z.div_eucl_eq (Z.pos v * P) 1 ltac:(lia)) as He.
    pose proof (Z.mod_pos_bound (Z.pos v * P) 1 ltac:(lia)) as Hm.
    unfold Z.modulo in Hm.
    destruct (Z.div_eucl (Z.pos v * P) 1) as [d r]. f_equal; lia. }
  rewrite Hd. cbn [Z.eqb cond_Zopp].
  unfold RN. f_equal. lia.
Qed.

Lemma pow10_le (i j : Z) : 0 <= i <= j -> 10 ^ i <= 10 ^ j.
Proof. intros H. apply Z.pow_le_mono_r; lia. Qed.

Lemma pow10_15 : 10 ^ 15 < 2 ^ 50.
Proof. reflexivity. Qed.

Lemma candidate_int (a q n k : Z) :
  0 < a < 2 ^ 52 -> 0 < q -> 0 <= n - k <= 15 ->
  candidate (Z2F a) (a * q) q n k =
  if a mod 10 ^ (n - k) =? 0 then Some (a / 10 ^ (n - k), n) else None.
Proof.
  intros Ha Hq Hj. unfold candidate.
  set (j := n - k) in *.
  destruct (Z.leb_spec 0 j); [|lia].
  pose proof (Z.pow_pos_nonneg 10 j ltac:(lia) ltac:(lia)) as Hp.
  pose proof (pow10_le j 15 ltac:(lia)) as Hp15. pose proof pow10_15 as H15.
  replace (a * q / (q * 10 ^ j)) with (a / 10 ^ j)
    by (rewrite (Z.mul_comm q), Z.div_mul_cancel_r; lia).
  pose proof (Z.div_mod a (10 ^ j) ltac:(lia)) as Hdm.
  pose proof (Z.mod_pos_bound a (10 ^ j) Hp) as Hm.
  assert (Hlo : 0 <= a / 10 ^ j) by (apply Z.div_pos; lia).
  rewrite !decimal_value_int by lia.
  rewrite !(Z2F_eqb 1074 scale_ok) by nia.
  destruct (Z.eqb_spec (a mod 10 ^ j) 0) as [Hz|Hz].
  - destruct (Z.eqb_spec (a / 10 ^ j * 10 ^ j) a); [|lia].
    destruct (Z.eqb_spec ((a / 10 ^ j + 1) * 10 ^ j) a); [lia|reflexivity].
  - destruct (Z.eqb_spec (a / 10 ^ j * 10 ^ j) a); [lia|].
    destruct (Z.eqb_spec ((a / 10 ^ j + 1) * 10 ^ j) a); [lia|reflexivity].
Qed.

Lemma shortest_int (a q n : Z) (fuel : nat) (k : Z) :
  0 < a < 2 ^ 52 -> 0 < q -> 1 <= k <= n -> n <= 16 ->
  n - k < Z.of_nat fuel ->
  exists s k', shortest fuel (Z2F a) (a * q) q n k = (s, n, k') /\
               k <= k' <= n /\ 0 < s /\ s * 10 ^ (n - k') = a.
Proof.
  intros Ha Hq. revert k. induction fuel as [|fuel IH]; intros k Hk Hn Hf; [lia|].
  cbn [shortest]. rewrite candidate_int by lia.
  pose proof (Z.pow_pos_nonneg 10 (n - k) ltac:(lia) ltac:(lia)) as Hp.
  destruct (Z.eqb_spec (a mod 10 ^ (n - k)) 0) as [Hz|Hz].
  - exists (a / 10 ^ (n - k)), k. split; [reflexivity|]. split; [lia|].
    pose proof (Z.div_mod a (10 ^ (n - k)) ltac:(lia)) as Hdm.
    split; [|lia].
    destruct (Z.eq_dec (a / 10 ^ (n - k)) 0) as [E|E]; [rewrite E in Hdm; lia|].
    pose proof (Z.div_pos a (10 ^ (n - k)) ltac:(lia) Hp). lia.
  - assert (k < n).
    { destruct (Z.eq_dec k n) as [->|]; [|lia].
      rewrite Z.sub_diag, Z.mod_1_r in Hz. lia. }
    destruct (IH (k + 1) ltac:(lia) Hn ltac:(lia)) as (s & k' & E & Hk' & Hs).
    exists s, k'. split; [exact E|]. split; [lia|exact Hs].
Qed.

Lemma Z2F_shape_at (K : Z) (a : Z) :
  1074 <= K -> 0 < a < 2 ^ 53 ->
  exists m e, Z2F a = S754_finite false m e /\
    (if 0 <=? e then (Z.pos m * 2 ^ e, 1) else (Z.pos m, 2 ^ (- e)))
      = (a * (if 0 <=? e then 1 else 2 ^ (- e)), if 0 <=? e then 1 else 2 ^ (- e)) /\
    0 < (if 0 <=? e then 1 else 2 ^ (- e)).
Proof.
  intros HK Ha.
  pose proof (Z2F_wf a) as W.
  pose proof (Z2F_finite K HK a ltac:(lia)) as Fi.
  pose proof (ord_Z2F K HK a ltac:(lia)) as Ho.
  pose proof (pow2_pos K ltac:(lia)) as HP.
  destruct (Z2F a) as [s|s| |s m e]; try discriminate.
  - cbn [ord] in Ho. nia.
  - exists m, e.
    destruct (wf_finite_bounds s m e K W HK) as (He & _ & _ & Hv).
    cbn [ord] in Ho. destruct s; cbn [cond_Zopp] in Ho; [nia|].
    split; [reflexivity|].
    destruct (Z.leb_spec 0 e).
    + split; [|lia]. f_equal. rewrite (pow2_add e K) in Ho by lia.
      set (P := 2 ^ K) in *. clearbody P.
      rewrite Z.mul_1_r. apply (Z.mul_reg_r _ _ P); [lia|]. rewrite <- Ho. ring.
    + pose proof (pow2_pos (- e) ltac:(lia)). split; [|lia]. f_equal.
      replace (a * 2 ^ K) with (a * 2 ^ (- e + (e + K))) in Ho by (f_equal; f_equal; lia).
      rewrite (pow2_add (- e) (e + K)) in Ho by lia.
      pose proof (pow2_pos (e + K) ltac:(lia)).
      set (P := 2 ^ (e + K)) in *. clearbody P.
      apply (Z.mul_reg_r _ _ P); [lia|]. rewrite Ho. ring.
Qed.

Lemma Z2F_shape (a : Z) :
  0 < a < 2 ^ 53 ->
  exists m e, Z2F a = S754_finite false m e /\
    (if 0 <=? e then (Z.pos m * 2 ^ e, 1) else (Z.pos m, 2 ^ (- e)))
      = (a * (if 0 <=? e then 1 else 2 ^ (- e)), if 0 <=? e then 1 else 2 ^ (- e)) /\
    0 < (if 0 <=? e then 1 else 2 ^ (- e)).
Proof. apply (Z2F_shape_at 1074 a scale_ok). Qed.

Lemma NumberToString_pos (a : Z) : 0 < a < 2 ^ 52 -> NumberToString (Z2F a) = ZToString a.
Proof.
  intros Ha. destruct (Z2F_shape a ltac:(lia)) as (m & e & E & Hpq & Hq).
  unfold NumberToString. rewrite E, <- E, Hpq. clear Hpq.
  set (q := if 0 <=? e then 1 else 2 ^ (- e)) in *. clearbody q.
  unfold decimal_exponent.
  destruct (Z.leb_spec q (a * q)); [|nia].
  rewrite Z.div_mul by lia.
  assert (Hd : a < 10 ^ 16) by (assert (2 ^ 52 < 10 ^ 16) by reflexivity; lia).
  pose proof (count_digits_le 400 a 16 ltac:(lia) Hd) as Hn.
  set (n := count_digits 400 a) in *. clearbody n.
  destruct (shortest_int a q n 17 1 Ha Hq ltac:(lia) ltac:(lia) ltac:(lia))
    as (s & k & Es & Hk & Hs & Hv).
  rewrite Es. cbn [append]. unfold decimal_string.
  destruct (Z.leb_spec k n); [|lia]. destruct (Z.leb_spec n 21); [|lia].
  cbn [andb]. rewrite <- Hv.
  set (j := Z.to_nat (n - k)). replace (n - k) with (Z.of_nat j) by (subst j; lia).
  now rewrite ZToString_pow10.
Qed.

Lemma Z2F_opp (a : Z) : a <> 0 -> Z2F (- a) = SFopp (Z2F a).
Proof.
  intros Hz. rewrite (Z2F_RN (- a)), (Z2F_RN a). destruct a as [|p|p]; [lia| |].
  - cbn [Z.opp]. now rewrite RN_neg, RN_pos.
  - cbn [Z.opp]. rewrite RN_neg, RN_pos.
    destruct (round_spec false p (- 0)); cbn [SFopp]; try reflexivity;
      now rewrite negb_involutive.
Qed.

Lemma NumberToString_opp (x : number) :
  is_finite x = true -> is_zero x = false -> nonneg x = true ->
  NumberToString (SFopp x) = "-" ++ NumberToString x.
Proof.
  destruct x as [s|s| |s m e]; try discriminate.
  destruct s; [discriminate|]. intros _ _ _. cbn [SFopp negb NumberToString].
  destruct (if 0 <=? e then _ else _) as [p q].
  destruct (shortest _ _ _ _ _ _) as [[d n] k]. reflexivity.
Qed.

Lemma NumberToString_int (a : Z) :
  - 2 ^ 52 < a < 2 ^ 52 -> NumberToString (Z2F a) = integer_string a.
Proof.
  intros Ha. unfold integer_string. destruct (Z.ltb_spec a 0).
  - replace a with (- (- a)) at 1 by lia. rewrite Z2F_opp by lia.
    destruct (Z2F_shape (- a) ltac:(lia)) as (m & e & E & _).
    rewrite NumberToString_opp by (rewrite E; reflexivity).
    now rewrite NumberToString_pos by lia.
  - destruct (Z.eq_dec a 0) as [->|]; [reflexivity|].
    apply NumberToString_pos. lia.
Qed.

Lemma formatAge_int (a : Z) :
  - 2 ^ 52 < a < 2 ^ 52 ->
  formatAge (Z2F a) =
    if a =? 1 then "1 year old" else integer_string a ++ " years old".
Proof.
  intros Ha. unfold formatAge.
  rewrite (Z2F_eqb 1074 scale_ok) by lia.
  destruct (a =? 1); [reflexivity|]. now rewrite NumberToString_int.
Qed.

(** ** Digits read back *)

Lemma code_digit_char (d : Z) : 0 <= d <= 9 -> code (digit_char d) = 48 + d.
Proof.
  intros H. unfold code, digit_char.
  rewrite N_ascii_embedding; [lia|].
  change 256%N with (Z.to_N 256). apply Z2N.inj_lt; lia.
Qed.

Lemma decimal_digits_app (s t : string) (acc : Z) :
  decimal_digits (s ++ t) acc =
  match decimal_digits s acc with Some v => decimal_digits t v | None => None end.
Proof.
  revert acc. induction s as [|c s IH]; intros acc; cbn [append decimal_digits].
  - reflexivity.
  - destruct (_ && _); [apply IH|reflexivity].
Qed.

Lemma ZToString_digit (d : Z) : 0 <= d <= 9 -> ZToString d = String (digit_char d) "".
Proof.
  intros H. rewrite <- (ZToString_fuel 0) by (change (10 ^ Z.of_nat 1) with 10; lia).
  rewrite digits_of_S. destruct (Z.ltb_spec d 10); [|lia].
  now rewrite Z.mod_small by lia.
Qed.

Lemma ZToString_not_empty (n : Z) : ZToString n <> "".
Proof.
  unfold ZToString. rewrite digits_of_S. destruct (n <? 10); [discriminate|].
  rewrite digits_of_acc. destruct (digits_of _ _ ""); discriminate.
Qed.

Lemma read_digit (d acc : Z) :
  0 <= d <= 9 -> decimal_digits (String (digit_char d) "") acc = Some (10 * acc + d).
Proof.
  intros H. cbn [decimal_digits]. rewrite code_digit_char by assumption.
  destruct (Z.leb_spec 48 (48 + d)); [|lia]. destruct (Z.leb_spec (48 + d) 57); [|lia].
  cbn [andb]. f_equal. lia.
Qed.

Lemma ZToString_read (f : nat) (n : Z) :
  0 <= n < 10 ^ Z.of_nat (S f) -> decimal_digits (ZToString n) 0 = Some n.
Proof.
  revert n. induction f as [|f IH]; intros n Hn.
  - change (10 ^ Z.of_nat 1) with 10 in Hn.
    rewrite ZToString_digit, read_digit by lia. f_equal; lia.
  - destruct (Z.ltb_spec n 10) as [Hs|Hs].
    + rewrite ZToString_digit, read_digit by lia. f_equal; lia.
    + pose proof (Z.div_mod n 10 ltac:(lia)) as Hdm.
      pose proof (Z.mod_pos_bound n 10 ltac:(lia)) as Hm.
      rewrite Nat2Z.inj_succ, Z.pow_succ_r in Hn by lia.
      rewrite Hdm at 1.
      rewrite ZToString_step, decimal_digits_app by lia.
      rewrite IH by lia. rewrite read_digit by lia. f_equal; lia.
Qed.

Lemma ZToString_denotes (n : Z) : 0 <= n -> denotes (ZToString n) n.
Proof.
  intros Hn. split; [apply ZToString_not_empty|].
  apply (ZToString_read (Z.to_nat (Z.log2 n))). split; [assumption|].
  now apply lt_pow10_log2.
Qed.

Lemma local_today_date_of (env : Env) :
  local_today env = date_of (LocalTime env (env_now env)).
Proof. reflexivity. Qed.

Lemma month_date_valid (l n : Z) :
  0 <= n < 365 + l -> (l = 0 \/ l = 1) ->
  let mo := if n <? 31 then 0 else if n <? 59 + l then 1 else if n <? 90 + l then 2
            else if n <? 120 + l then 3 else if n <? 151 + l then 4
            else if n <? 181 + l then 5 else if n <? 212 + l then 6
            else if n <? 243 + l then 7 else if n <? 273 + l then 8
            else if n <? 304 + l then 9 else if n <? 334 + l then 10 else 11 in
  0 <= mo <= 11 /\
  1 <= n - month_start l mo + 1 <=
    match mo with 1 => 28 + l | 3 | 5 | 8 | 10 => 30 | _ => 31 end.
Proof.
  intros Hn Hl mo. subst mo.
  repeat match goal with
         | |- context [?a <? ?b] => destruct (Z.ltb_spec a b)
         end; cbn [month_start]; lia.
Qed.

Lemma DayWithinYear_range (t : Z) : 0 <= DayWithinYear t < 365 + InLeapYear t.
Proof.
  unfold DayWithinYear, InLeapYear, YearFromTime.
  pose proof (YearFromDay_spec (Day t)) as Hs. rewrite DayFromYear_succ in Hs. lia.
Qed.

(** The date of a time value is a calendar date, and names its day. *)
Lemma date_of_valid (t : Z) :
  calendar_date (YearFromTime t) (MonthFromTime t + 1) (DateFromTime t) /\
  MakeDay (YearFromTime t) (MonthFromTime t) (DateFromTime t) = Day t.
Proof.
  pose proof (DayWithinYear_range t) as Hr.
  pose proof (month_date_valid (InLeapYear t) (DayWithinYear t) Hr (leap_01 _)) as [Hm Hd].
  fold (MonthFromTime t) in Hm, Hd.
  split.
  - unfold calendar_date, DaysInMonth. replace (MonthFromTime t + 1 - 1) with (MonthFromTime t) by lia.
    split; [lia|]. exact Hd.
  - unfold MakeDay, DateFromTime. unfold InLeapYear, DayWithinYear. lia.
Qed.

Lemma date_bounds (t : Z) :
  - 8640000000000000 - msPerDay <= t <= 8640000000000000 + msPerDay ->
  - 300000 < YearFromTime t < 300000 /\
  0 <= MonthFromTime t <= 11 /\ 1 <= DateFromTime t <= 31.
Proof.
  intros Ht. split.
  - apply YearFromDay_bounds. unfold Day, msPerDay in *. Z.div_mod_to_equations. lia.
  - unfold MonthFromTime, DateFromTime, MonthFromTime.
    apply month_date_bounds; [apply DayWithinYear_range|apply leap_01].
Qed.

Lemma MakeDay_range (y m d : Z) :
  0 <= y <= 9999 -> calendar_date y m d ->
  - 720000 <= MakeDay y (m - 1) d <= 3000000.
Proof.
  intros Hy [Hm Hd]. unfold DaysInMonth in Hd.
  pose proof (day_in_year (leap y) (m - 1) d (leap_01 y) ltac:(lia) Hd) as Hr.
  pose proof (leap_01 y).
  unfold MakeDay. unfold DayFromYear. Z.div_mod_to_equations. lia.
Qed.

(** The age that [calculateAge] returns is the one between the local dates
    of now and of the midnight UTC that starts the birth date. *)
Lemma calculateAge_days (env : Env) (s : string) (y m d : Z) :
  offset_within_a_day env -> time_value (env_now env) ->
  parse_date_only s = Some (y, m, d) ->
  calculateAge env s =
    Z2F (age_on (local_today env)
                (date_of (LocalTime env (MakeDay y (m - 1) d * msPerDay)))).
Proof.
  intros Ho Hn Hs. destruct (parse_date_only_range s y m d Hs) as [Hy Hcal].
  pose proof (MakeDay_range y m d Hy Hcal) as Hr.
  set (tb := LocalTime env (MakeDay y (m - 1) d * msPerDay)).
  set (tn := LocalTime env (env_now env)).
  assert (Hb : - 8640000000000000 - msPerDay <= tb <= 8640000000000000 + msPerDay).
  { subst tb. unfold LocalTime. pose proof (Ho (MakeDay y (m - 1) d * msPerDay)).
    unfold msPerDay in *. lia. }
  assert (Ht : - 8640000000000000 - msPerDay <= tn <= 8640000000000000 + msPerDay).
  { subst tn. unfold LocalTime. pose proof (Ho (env_now env)).
    unfold time_value in Hn. lia. }
  destruct (date_bounds tb Hb) as (HY1 & HM1 & HD1).
  destruct (date_bounds tn Ht) as (HY2 & HM2 & HD2).
  unfold calculateAge, Date_now, Date_parse, age_on, local_today, date_of, month_day_before.
  rewrite Hs. cbn [getFullYear getMonth getDate]. fold tb tn.
  rewrite !(Z2F_sub 1074 scale_ok) by lia.
  rewrite !(Z2F_ltb 1074 scale_ok), (Z2F_eqb 1074 scale_ok) by lia.
  replace (MonthFromTime tn - MonthFromTime tb <? 0)
    with (MonthFromTime tn + 1 <? MonthFromTime tb + 1)
    by (destruct (Z.ltb_spec (MonthFromTime tn + 1) (MonthFromTime tb + 1)),
                 (Z.ltb_spec (MonthFromTime tn - MonthFromTime tb) 0); lia || reflexivity).
  replace (MonthFromTime tn - MonthFromTime tb =? 0)
    with (MonthFromTime tn + 1 =? MonthFromTime tb + 1)
    by (destruct (Z.eqb_spec (MonthFromTime tn + 1) (MonthFromTime tb + 1)),
                 (Z.eqb_spec (MonthFromTime tn - MonthFromTime tb) 0); lia || reflexivity).
  destruct (_ || _); f_equal; lia.
Qed.

Lemma Day_shift (n off : Z) : 0 <= off < msPerDay -> Day (n * msPerDay + off) = n.
Proof. intros H. unfold Day, msPerDay in *. Z.div_mod_to_equations. lia. Qed.

Lemma Day_shift_back (n off : Z) :
  - msPerDay <= off < 0 -> Day (n * msPerDay + off) = n - 1.
Proof. intros H. unfold Day, msPerDay in *. Z.div_mod_to_equations. lia. Qed.

Lemma date_of_Day (t1 t2 : Z) : Day t1 = Day t2 -> date_of t1 = date_of t2.
Proof.
  intros H. unfold date_of, MonthFromTime, DateFromTime, MonthFromTime, InLeapYear,
    DayWithinYear, YearFromTime. now rewrite H.
Qed.

Lemma calculateAge_behind (env : Env) (s : string) (y m d : Z) :
  west_of_utc env -> time_value (env_now env) ->
  parse_date_only s = Some (y, m, d) ->
  calculateAge env s = Z2F (age_on (local_today env) (day_before y m d)).
Proof.
  intros Hw Hn Hs.
  rewrite (calculateAge_days env s y m d) by
    (try assumption; intros t; specialize (Hw t); unfold msPerDay in *; lia).
  f_equal. f_equal. unfold day_before. apply date_of_Day.
  unfold LocalTime. rewrite Day_shift_back by apply Hw.
  now rewrite <- (Z.add_0_r (_ * msPerDay)), Day_shift by (unfold msPerDay; lia).
Qed.

Lemma date_of_parts (t : Z) :
  date_of t =
  (YearFromTime t, month_of (InLeapYear t) (DayWithinYear t) + 1,
   DayWithinYear t - month_start (InLeapYear t) (month_of (InLeapYear t) (DayWithinYear t)) + 1).
Proof. reflexivity. Qed.

Lemma month_day_order (l n1 n2 : Z) :
  (l = 0 \/ l = 1) -> 0 <= n1 <= n2 -> n2 < 365 + l ->
  month_day_before (month_of l n2 + 1) (n2 - month_start l (month_of l n2) + 1)
                   (month_of l n1 + 1) (n1 - month_start l (month_of l n1) + 1) = false.
Proof.
  intros Hl H1 H2. unfold month_day_before.
  assert (Hm : month_of l n1 <= month_of l n2).
  { unfold month_of.
    repeat match goal with
           | |- context [?a <? ?b] => destruct (Z.ltb_spec a b); try lia
           end. }
  destruct (Z.ltb_spec (month_of l n2 + 1) (month_of l n1 + 1)); [lia|].
  destruct (Z.eqb_spec (month_of l n2 + 1) (month_of l n1 + 1)) as [E|E]; [|reflexivity].
  replace (month_of l n2) with (month_of l n1) by lia.
  cbn [orb andb]. apply Z.ltb_ge. lia.
Qed.

Lemma YearFromDay_mono (d1 d2 : Z) : d1 <= d2 -> YearFromDay d1 <= YearFromDay d2.
Proof.
  intros H. pose proof (YearFromDay_spec d1) as H1. pose proof (YearFromDay_spec d2) as H2.
  destruct (Z_le_gt_dec (YearFromDay d1) (YearFromDay d2)) as [|Hgt]; [assumption|].
  pose proof (DayFromYear_mono (YearFromDay d2 + 1) (YearFromDay d1) ltac:(lia)). lia.
Qed.

Lemma age_of_close_days (t1 t2 : Z) :
  Day t1 <= Day t2 <= Day t1 + 2 -> age_on (date_of t2) (date_of t1) = 0.
Proof.
  intros H. rewrite !date_of_parts. unfold age_on.
  pose proof (DayWithinYear_range t1) as R1. pose proof (DayWithinYear_range t2) as R2.
  pose proof (YearFromDay_mono _ _ (proj1 H)) as Hy.
  fold (YearFromTime t1) (YearFromTime t2) in Hy.
  destruct (Z.eq_dec (YearFromTime t1) (YearFromTime t2)) as [E|E].
  - assert (El : InLeapYear t2 = InLeapYear t1) by (unfold InLeapYear; now rewrite E).
    rewrite El in *.
    rewrite month_day_order; [lia|apply leap_01| |lia].
    unfold DayWithinYear in *. rewrite E in *. lia.
  - assert (Hy2 : YearFromTime t2 = YearFromTime t1 + 1).
    { pose proof (YearFromDay_spec (Day t1)) as S1.
      pose proof (YearFromDay_spec (Day t2)) as S2.
      fold (YearFromTime t1) (YearFromTime t2) in S1, S2.
      destruct (Z_le_gt_dec (YearFromTime t2) (YearFromTime t1 + 1)) as [|Hgt]; [lia|].
      pose proof (DayFromYear_mono (YearFromTime t1 + 2) (YearFromTime t2) ltac:(lia)).
      pose proof (DayFromYear_succ (YearFromTime t1 + 1)) as Hs.
      replace (YearFromTime t1 + 1 + 1) with (YearFromTime t1 + 2) in Hs by lia.
      pose proof (leap_01 (YearFromTime t1 + 1)). lia. }
    assert (N2 : DayWithinYear t2 <= 1).
    { pose proof (YearFromDay_spec (Day t1)) as S1. fold (YearFromTime t1) in S1.
      unfold DayWithinYear. rewrite Hy2. lia. }
    assert (N1 : 363 + InLeapYear t1 <= DayWithinYear t1).
    { pose proof (YearFromDay_spec (Day t2)) as S2. fold (YearFromTime t2) in S2.
      rewrite Hy2 in S2. rewrite DayFromYear_succ in S2.
      unfold DayWithinYear, InLeapYear in *. lia. }
    pose proof (leap_01 (YearFromTime t1)) as L1. fold (InLeapYear t1) in L1.
    pose proof (leap_01 (YearFromTime t2)) as L2. fold (InLeapYear t2) in L2.
    assert (M2 : month_of (InLeapYear t2) (DayWithinYear t2) = 0).
    { unfold month_of. destruct (Z.ltb_spec (DayWithinYear t2) 31); [reflexivity|lia]. }
    assert (M1 : month_of (InLeapYear t1) (DayWithinYear t1) = 11).
    { unfold month_of.
      repeat match goal with
             | |- context [?a <? ?b] => destruct (Z.ltb_spec a b); try lia
             end. }
    rewrite M1, M2. unfold month_day_before.
    assert (Hlt : (0 + 1 <? 11 + 1) = true) by reflexivity.
    rewrite Hlt. cbn [orb]. lia.
Qed.

(** ** The date part of [toISOString] *)

Lemma ZToString_decomp (n : Z) :
  10 <= n -> ZToString n = ZToString (n / 10) ++ String (digit_char (n mod 10)) "".
Proof.
  intros H. pose proof (Z.div_mod n 10 ltac:(lia)) as Hdm.
  pose proof (Z.mod_pos_bound n 10 ltac:(lia)) as Hm.
  rewrite Hdm at 1. apply ZToString_step; [|lia].
  Z.div_mod_to_equations. lia.
Qed.

Lemma ZToString_2 (n : Z) :
  10 <= n <= 99 ->
  ZToString n = String (digit_char (n / 10)) (String (digit_char (n mod 10)) "").
Proof.
  intros H. rewrite ZToString_decomp, ZToString_digit by (Z.div_mod_to_equations; lia).
  reflexivity.
Qed.

Lemma ZToString_3 (n : Z) :
  100 <= n <= 999 ->
  ZToString n = String (digit_char (n / 100)) (String (digit_char (n / 10 mod 10))
                  (String (digit_char (n mod 10)) "")).
Proof.
  intros H. rewrite ZToString_decomp, ZToString_2 by (Z.div_mod_to_equations; lia).
  rewrite Z.div_div by lia. reflexivity.
Qed.

Lemma ZToString_4 (n : Z) :
  1000 <= n <= 9999 ->
  ZToString n = String (digit_char (n / 1000)) (String (digit_char (n / 100 mod 10))
                  (String (digit_char (n / 10 mod 10)) (String (digit_char (n mod 10)) ""))).
Proof.
  intros H. rewrite ZToString_decomp, ZToString_3 by (Z.div_mod_to_equations; lia).
  rewrite !Z.div_div by lia. reflexivity.
Qed.

Lemma pad_2 (n : Z) :
  0 <= n <= 99 ->
  pad 2 n = String (digit_char (n / 10)) (String (digit_char (n mod 10)) "").
Proof.
  intros H. unfold pad. destruct (Z_lt_le_dec n 10).
  - rewrite ZToString_digit by lia.
    rewrite Z.div_small, Z.mod_small by lia. reflexivity.
  - rewrite ZToString_2 by lia. reflexivity.
Qed.

Lemma pad_4 (n : Z) :
  0 <= n <= 9999 ->
  pad 4 n = String (digit_char (n / 1000)) (String (digit_char (n / 100 mod 10))
              (String (digit_char (n / 10 mod 10)) (String (digit_char (n mod 10)) ""))).
Proof.
  intros H. unfold pad.
  destruct (Z_lt_le_dec n 10); [|destruct (Z_lt_le_dec n 100); [|destruct (Z_lt_le_dec n 1000)]].
  - rewrite ZToString_digit by lia.
    rewrite (Z.div_small n 1000), (Z.div_small n 100), (Z.div_small n 10), (Z.mod_small n 10)
      by lia. reflexivity.
  - rewrite ZToString_2 by lia.
    rewrite (Z.div_small n 1000), (Z.div_small n 100) by lia.
    rewrite (Z.mod_small (n / 10) 10) by (Z.div_mod_to_equations; lia). reflexivity.
  - rewrite ZToString_3 by lia.
    rewrite (Z.div_small n 1000) by lia.
    rewrite (Z.mod_small (n / 100) 10) by (Z.div_mod_to_equations; lia). reflexivity.
  - rewrite ZToString_4 by lia. reflexivity.
Qed.

Lemma digit_of_digit_char (k : Z) : 0 <= k <= 9 -> digit_of 10 (digit_char k) = Some k.
Proof.
  intros H. rewrite digit_of_decimal; rewrite code_digit_char by assumption.
  - f_equal. lia.
  - destruct (Z.leb_spec 48 (48 + k)), (Z.leb_spec (48 + k) 57); try lia; reflexivity.
Qed.

Lemma digit_char_cases (k : Z) :
  0 <= k <= 9 ->
  k = 0 \/ k = 1 \/ k = 2 \/ k = 3 \/ k = 4 \/ k = 5 \/ k = 6 \/ k = 7 \/ k = 8 \/ k = 9.
Proof. lia. Qed.

Lemma digit_char_not_T (k : Z) : 0 <= k <= 9 -> Ascii.eqb (digit_char k) "T" = false.
Proof.
  intros H.
  destruct (digit_char_cases k H) as [->|[->|[->|[->|[->|[->|[->|[->|[->| ->]]]]]]]]];
    reflexivity.
Qed.

Lemma split_cons (sep c : ascii) (r : string) :
  Ascii.eqb c sep = false ->
  hd_error (split sep (String c r)) =
  match hd_error (split sep r) with Some x => Some (String c x) | None => Some (String c "") end.
Proof.
  intros H. cbn [split]. rewrite H. destruct (split sep r); reflexivity.
Qed.

Lemma split_sep (sep : ascii) (r : string) : hd_error (split sep (String sep r)) = Some "".
Proof. cbn [split]. now rewrite Ascii.eqb_refl. Qed.

Lemma digits_of_date (n : Z) :
  0 <= n <= 9999 ->
  0 <= n / 1000 <= 9 /\ 0 <= n / 100 mod 10 <= 9 /\ 0 <= n / 10 mod 10 <= 9 /\
  0 <= n mod 10 <= 9 /\
  1000 * (n / 1000) + 100 * (n / 100 mod 10) + 10 * (n / 10 mod 10) + n mod 10 = n.
Proof. intros H. Z.div_mod_to_equations. lia. Qed.

Lemma digits_of_two (n : Z) :
  0 <= n <= 99 -> 0 <= n / 10 <= 9 /\ 0 <= n mod 10 <= 9 /\ 10 * (n / 10) + n mod 10 = n.
Proof. intros H. Z.div_mod_to_equations. lia. Qed.

Lemma max_date_parse (now : Z) :
  0 <= YearFromTime now <= 9999 ->
  parse_date_only (max_date now) = Some (date_of now).
Proof.
  intros Hy. unfold max_date, toISOString.
  destruct (date_of_valid now) as [[Hm Hd] _].
  replace (MonthFromTime now + 1 - 1) with (MonthFromTime now) in Hd by lia.
  assert (Hd31 : DateFromTime now <= 31).
  { revert Hd. unfold DaysInMonth. pose proof (leap_01 (YearFromTime now)).
    destruct (MonthFromTime now) as [|[[[[]|[]|]|[[]|[]|]|]|[[[]|[]|]|[[]|[]|]|]|]|]; lia. }
  unfold year_string. destruct (Z.leb_spec 0 (YearFromTime now)); [|lia].
  destruct (Z.leb_spec (YearFromTime now) 9999); [|lia]. cbn [andb].
  rewrite pad_4 by lia. rewrite !pad_2 by lia.
  destruct (digits_of_date _ Hy) as (Y1 & Y2 & Y3 & Y4 & EY).
  destruct (digits_of_two (MonthFromTime now + 1) ltac:(lia)) as (M1 & M2 & EM).
  destruct (digits_of_two (DateFromTime now) ltac:(lia)) as (D1 & D2 & ED).
  cbn [append].
  rewrite !split_cons by (apply digit_char_not_T; assumption).
  rewrite (split_cons "T" "-") by reflexivity.
  rewrite !split_cons by (apply digit_char_not_T; assumption).
  rewrite (split_cons "T" "-") by reflexivity.
  rewrite !split_cons by (apply digit_char_not_T; assumption).
  rewrite split_sep. cbn [ToString_or_undefined].
  unfold parse_date_only. rewrite !digit_of_digit_char by assumption.
  rewrite EY, EM, ED.
  replace (MonthFromTime now + 1 - 1) with (MonthFromTime now) by lia.
  destruct (Z.leb_spec 1 (MonthFromTime now + 1)); [|lia].
  destruct (Z.leb_spec (MonthFromTime now + 1) 12); [|lia].
  destruct (Z.leb_spec 1 (DateFromTime now)); [|lia].
  destruct (Z.leb_spec (DateFromTime now) (DaysInMonth (YearFromTime now) (MonthFromTime now)));
    [|lia].
  reflexivity.
Qed.

Lemma max_date_age (env : Env) :
  offset_within_a_day env -> offset_not_decreased env -> time_value (env_now env) ->
  0 <= YearFromTime (env_now env) <= 9999 ->
  calculateAge env (max_date (env_now env)) = Z2F 0.
Proof.
  intros Ho Hd Hn Hy.
  pose proof (max_date_parse (env_now env) Hy) as Hp. unfold date_of in Hp.
  rewrite (calculateAge_days env _ _ _ _ Ho Hn Hp).
  replace (MonthFromTime (env_now env) + 1 - 1) with (MonthFromTime (env_now env)) by lia.
  rewrite (proj2 (date_of_valid (env_now env))).
  rewrite local_today_date_of. f_equal. apply age_of_close_days.
  unfold offset_not_decreased in Hd. unfold LocalTime.
  pose proof (Ho (Day (env_now env) * msPerDay)) as H1.
  pose proof (Ho (env_now env)) as H2.
  revert Hd H1 H2.
  generalize (env_tza env (Day (env_now env) * msPerDay)), (env_tza env (env_now env)).
  intros o1 o2 Hd H1 H2. unfold Day, msPerDay in *. Z.div_mod_to_equations. lia.
Qed.

Lemma shown_table : forall_upto 1001 shown_ok = true.
Proof. vm_compute. reflexivity. Qed.

Lemma NumberToString_tenth (n : Z) :
  0 <= n <= 1000 -> NumberToString (tenth n) = tenths_string n.
Proof.
  intros H. apply String.eqb_eq.
  apply (forall_upto_spec 1001 shown_ok shown_table). lia.
Qed.

(** ** Class lists *)

Lemma classList_remove_app (tok : string) (l1 l2 : list string) :
  classList_remove tok (l1 ++ l2) = (classList_remove tok l1 ++ classList_remove tok l2)%list.
Proof. apply filter_app. Qed.

Lemma classList_remove_add (tok : string) (l : list string) :
  classList_remove tok (classList_add tok l) = classList_remove tok l.
Proof.
  unfold classList_add. destruct (existsb _ l); [reflexivity|].
  rewrite classList_remove_app. cbn [classList_remove filter].
  rewrite String.eqb_refl. cbn [negb]. apply app_nil_r.
Qed.

Lemma classList_remove_absent (tok : string) (l : list string) :
  ~ In tok l -> classList_remove tok l = l.
Proof.
  intros H. induction l as [|c l IH]; [reflexivity|].
  cbn [classList_remove filter]. destruct (String.eqb_spec c tok) as [E|E].
  - exfalso. apply H. left. exact E.
  - cbn [negb]. f_equal. apply IH. intros Hin. apply H. now right.
Qed.

Lemma classList_remove_not_in (tok : string) (l : list string) :
  ~ In tok (classList_remove tok l).
Proof.
  unfold classList_remove. rewrite filter_In. intros [_ H].
  now rewrite String.eqb_refl in H.
Qed.

Lemma classList_add_in (tok : string) (l : list string) : In tok (classList_add tok l).
Proof.
  unfold classList_add. destruct (existsb _ l) eqn:E.
  - apply existsb_exists in E. destruct E as (x & Hx & Ex).
    apply String.eqb_eq in Ex. now subst x.
  - apply in_or_app. right. now left.
Qed.

Ltac page_fields :=
  cbn [dobInput_max calculatedAge_textContent calculatedAge_display submitBtn_classList
       submitBtn_disabled riskPercentage_textContent riskPercentage_className
       riskInterpretation_textContent resultSection_classList effects].

Ltac page_unfold :=
  unfold set_dobInput_max, set_calculatedAge_textContent, set_calculatedAge_display,
    set_submitBtn_classList, set_submitBtn_disabled, set_riskPercentage_textContent,
    set_riskPercentage_className, set_riskInterpretation_textContent,
    set_resultSection_classList, perform;
  page_fields.

Lemma hide_after_show (p : Page) : hideLoadingState (showLoadingState p) = hideLoadingState p.
Proof.
  unfold hideLoadingState, showLoadingState. page_unfold.
  now rewrite classList_remove_add.
Qed.

Lemma hide_restores (p : Page) :
  ~ In "loading" (submitBtn_classList p) -> submitBtn_disabled p = false ->
  hideLoadingState (showLoadingState p) = p.
Proof.
  intros Hl Hd. rewrite hide_after_show. unfold hideLoadingState. page_unfold.
  rewrite classList_remove_absent by assumption. rewrite <- Hd. now destruct p.
Qed.

(** ** The listeners of the date input *)

Lemma change_after_input (env : Env) (value : string) (p : Page) :
  on_dob_change env value (on_dob_input env value p) = on_dob_change env value p.
Proof.
  unfold on_dob_change, on_dob_input.
  destruct (negb (String.eqb value "")); [|reflexivity].
  destruct (_ && _); reflexivity.
Qed.

Lemma age_on_bounds (env : Env) (y m d : Z) :
  offset_within_a_day env -> time_value (env_now env) -> 0 <= y <= 9999 ->
  - 400000 < age_on (local_today env) (y, m, d) < 400000.
Proof.
  intros Ho Hn Hy.
  assert (Ht : - 8640000000000000 - msPerDay <= LocalTime env (env_now env)
               <= 8640000000000000 + msPerDay).
  { unfold LocalTime. pose proof (Ho (env_now env)). unfold time_value in Hn. lia. }
  destruct (date_bounds _ Ht) as (HY & _).
  unfold age_on, local_today. destruct (month_day_before _ _ _ _); lia.
Qed.

Lemma east_within_a_day (env : Env) : east_of_utc env -> offset_within_a_day env.
Proof. intros H t. specialize (H t). unfold msPerDay in *. lia. Qed.

Lemma age_label (env : Env) (s : string) (y m d : Z) (p : Page) :
  east_of_utc env -> time_value (env_now env) ->
  parse_date_only s = Some (y, m, d) ->
  calculatedAge_textContent (on_dob_change env s p) =
    "(" ++ (if age_on (local_today env) (y, m, d) =? 1 then "1 year old"
            else integer_string (age_on (local_today env) (y, m, d)) ++ " years old")
        ++ ")" /\
  calculatedAge_display (on_dob_change env s p) = "block".
Proof.
  intros He Hn Hs. unfold on_dob_change.
  rewrite (parse_date_only_nonempty s y m d Hs). cbn [negb]. page_unfold.
  split; [|reflexivity].
  rewrite (calculateAge_east env He Hn s y m d Hs).
  destruct (parse_date_only_range s y m d Hs) as [Hy _].
  pose proof (age_on_bounds env y m d (east_within_a_day env He) Hn Hy).
  rewrite formatAge_int by lia. reflexivity.
Qed.

Lemma split_without (c : ascii) (s : string) : contains c s = false -> split c s = [s].
Proof.
  induction s as [|a r IH]; intros H; [reflexivity|].
  cbn [contains] in H. apply orb_false_iff in H. destruct H as [Ha Hr].
  cbn [split]. rewrite Ha, (IH Hr). reflexivity.
Qed.

Lemma split_app (c : ascii) (s r : string) :
  contains c s = false -> split c (s ++ String c r) = s :: split c r.
Proof.
  induction s as [|a s IH]; intros H.
  - cbn [append split]. now rewrite Ascii.eqb_refl.
  - cbn [contains] in H. apply orb_false_iff in H. destruct H as [Ha Hs].
    cbn [append split]. rewrite Ha, (IH Hs). reflexivity.
Qed.

Lemma split_join (c : ascii) (l : list string) :
  l <> [] -> (forall x, In x l -> contains c x = false) ->
  split c (join (String c "") l) = l.
Proof.
  induction l as [|x l IH]; intros Hne Hc; [congruence|].
  destruct l as [|y l].
  - cbn [join]. apply split_without, Hc. now left.
  - change (join (String c "") (x :: y :: l))
      with (x ++ String c (join (String c "") (y :: l))).
    rewrite split_app by (apply Hc; now left).
    f_equal. apply IH; [discriminate|]. intros z Hz. apply Hc. now right.
Qed.

Lemma validateForm_messages (env : Env) (fd : Data) (msg : string) :
  In msg (validateForm env fd) -> contains "010" msg = false.
Proof.
  rewrite validateForm_fields. unfold dob_errors, anaemia_errors, haemoglobin_errors,
    parasite_errors.
  intros H.
  repeat (apply in_app_or in H; destruct H as [H|H]);
    repeat match type of H with
           | context [if ?b then _ else _] => destruct b
           end;
    repeat (destruct H as [<-|H]; [reflexivity|]); try contradiction.
Qed.

(** ** The result shown *)

Lemma tenth_below (n c t : Z) :
  0 <= n <= 1000 -> 0 < t <= 1000 -> - 2 ^ 53 < c < 2 ^ 53 ->
  SFltb (tenth (t - 1)) (Z2F c) = true -> SFleb (Z2F c) (tenth t) = true ->
  SFltb (tenth n) (Z2F c) = (n <? t).
Proof.
  intros Hn Ht Hc Hlo Hhi.
  destruct (tenth_spec n Hn) as (Wn & Fn & _).
  destruct (tenth_spec (t - 1) ltac:(lia)) as (Wl & Fl & _).
  destruct (tenth_spec t ltac:(lia)) as (Wt & Ft & _).
  pose proof (finite_not_nan _ Fn) as Nn. pose proof (finite_not_nan _ Fl) as Nl.
  pose proof (finite_not_nan _ Ft) as Nt.
  rewrite (SFltb_ord_b 1074 scale_ok) in Hlo |- * by auto using Z2F_wf, Z2F_not_nan.
  rewrite (SFleb_ord_b 1074 scale_ok) in Hhi by auto using Z2F_wf, Z2F_not_nan.
  apply Z.ltb_lt in Hlo. apply Z.leb_le in Hhi.
  destruct (Z.ltb_spec n t) as [Hlt|Hge].
  - pose proof (tenth_mono n (t - 1) ltac:(lia) ltac:(lia)) as Hm.
    rewrite (SFleb_ord_b 1074 scale_ok) in Hm by assumption.
    apply Z.leb_le in Hm. apply Z.ltb_lt. lia.
  - pose proof (tenth_mono t n ltac:(lia) ltac:(lia)) as Hm.
    rewrite (SFleb_ord_b 1074 scale_ok) in Hm by assumption.
    apply Z.leb_le in Hm. apply Z.ltb_ge. lia.
Qed.

Lemma tier_of_tenth (n : Z) :
  0 <= n <= 1000 ->
  getRiskInterpretation (tenth n) = interpretation_of (tier_of_tenths n).
Proof.
  intros Hn. unfold getRiskInterpretation, tier_of_tenths.
  rewrite (tenth_below n 20 200), (tenth_below n 50 500)
    by (try lia; vm_compute; reflexivity).
  destruct (n <? 200); [reflexivity|]. destruct (n <? 500); reflexivity.
Qed.

Lemma resumed_fields (data : Data) (p : Page) :
  on_submit_resumed data p =
  {| dobInput_max := dobInput_max p;
     calculatedAge_textContent := calculatedAge_textContent p;
     calculatedAge_display := calculatedAge_display p;
     submitBtn_classList := classList_remove "loading" (submitBtn_classList p);
     submitBtn_disabled := false;
     riskPercentage_textContent := NumberToString (calculateRisk data) ++ "%";
     riskPercentage_className :=
       "risk-percentage " ++ class (getRiskInterpretation (calculateRisk data));
     riskInterpretation_textContent := text (getRiskInterpretation (calculateRisk data));
     resultSection_classList := classList_add "active" (resultSection_classList p);
     effects := (effects p ++ [ScrollIntoView "smooth" "start"])%list |}.
Proof. reflexivity. Qed.

Lemma shown_result (data : Data) :
  wf (number_of_field (age data)) ->
  (calculateRisk data = NaN /\
   NumberToString (calculateRisk data) = "NaN" /\
   getRiskInterpretation (calculateRisk data) = interpretation_of High) \/
  (exists n, 0 <= n <= 1000 /\ calculateRisk data = tenth n /\
     NumberToString (calculateRisk data) = tenths_string n /\
     getRiskInterpretation (calculateRisk data) = interpretation_of (tier_of_tenths n)).
Proof.
  intros Ha. destruct (calculateRisk_any data Ha) as [[_ E]|(_ & n & Hn & E)].
  - left. rewrite E. repeat split.
  - right. exists n. rewrite E. repeat split; try lia.
    + now apply NumberToString_tenth.
    + now apply tier_of_tenth.
Qed.

(** ** The age of the object and the age that is validated *)

Lemma calculateAge_same_day (env : Env) (t1 t2 : Z) (s : string) :
  local_today (at_time env t1) = local_today (at_time env t2) ->
  calculateAge (at_time env t1) s = calculateAge (at_time env t2) s.
Proof.
  unfold local_today, LocalTime. cbn [at_time env_now env_tza].
  intros [= Hy Hm Hd]. unfold calculateAge, Date_now, Date_parse.
  cbn [at_time env_now env_tza env_parse_other getFullYear getMonth getDate].
  unfold LocalTime. cbn [at_time env_now env_tza env_parse_other].
  replace (MonthFromTime (t1 + env_tza env t1)) with (MonthFromTime (t2 + env_tza env t2))
    by lia.
  now rewrite Hy, Hd.
Qed.

(** ** Fields made of digits *)

Lemma digit_code (c : ascii) :
  (48 <=? code c) && (code c <=? 57) = true -> 48 <= code c <= 57.
Proof.
  intros H. apply andb_true_iff in H. destruct H as [H1 H2]. apply Z.leb_le in H1, H2. lia.
Qed.

Lemma skip_ws_digit (c : ascii) (r : string) :
  48 <= code c <= 57 -> skip_ws (String c r) = String c r.
Proof.
  intros H. cbn [skip_ws]. unfold is_ws.
  destruct (Z.leb_spec 9 (code c)), (Z.leb_spec (code c) 13),
    (Z.eqb_spec (code c) 32), (Z.eqb_spec (code c) 160); try lia; reflexivity.
Qed.

Lemma scan_sign_digit (c : ascii) (r : string) :
  48 <= code c <= 57 -> scan_sign (String c r) = (false, String c r).
Proof.
  intros H. unfold scan_sign.
  destruct c as [[|] [|] [|] [|] [|] [|] [|] [|]]; try reflexivity;
    unfold code in H; cbn in H; lia.
Qed.

Lemma strip_Infinity_digit (c : ascii) (r : string) :
  48 <= code c <= 57 -> strip_prefix "Infinity" (String c r) = None.
Proof.
  intros H. cbn [strip_prefix].
  destruct (Ascii.eqb_spec "I" c) as [<-|]; [unfold code in H; cbn in H; lia|reflexivity].
Qed.

Lemma scan_unsigned_denotes (s : string) (n : Z) :
  denotes s n -> scan_unsigned s = Some (false, n, 0, "").
Proof.
  intros Hd. destruct (denotes_head s n Hd) as (c & r & -> & Hc).
  destruct Hd as [_ Hv]. pose proof (digit_code c Hc) as Hcode.
  unfold scan_unsigned. rewrite strip_Infinity_digit by assumption.
  rewrite (scan_digits_decimal _ 0 0 n Hv). cbn [String.length].
  destruct (Z.eqb_spec (0 + Z.of_nat (S (String.length r))) 0); [lia|].
  reflexivity.
Qed.

Lemma parseFloat_denotes (s : string) (n : Z) : denotes s n -> parseFloat s = Z2F n.
Proof.
  intros Hd. pose proof (scan_unsigned_denotes s n Hd) as Hu.
  pose proof (denotes_nonneg s n Hd) as Hn.
  destruct (denotes_head s n Hd) as (c & r & -> & Hc).
  pose proof (digit_code c Hc) as Hcode.
  unfold parseFloat. rewrite skip_ws_digit, scan_sign_digit, Hu by assumption.
  rewrite decimal_value_int by lia. now rewrite Z.mul_1_r.
Qed.

Lemma scan_nondecimal_denotes (s : string) (n : Z) :
  denotes s n -> scan_nondecimal s = None.
Proof.
  intros Hd. destruct (denotes_head s n Hd) as (c & r & -> & Hc).
  destruct Hd as [_ Hv]. unfold scan_nondecimal.
  destruct c as [[|] [|] [|] [|] [|] [|] [|] [|]]; try reflexivity.
  destruct r as [|c' r']; [reflexivity|].
  cbn [decimal_digits] in Hv.
  destruct ((48 <=? code "0") && (code "0" <=? 57)); [|discriminate].
  cbn [decimal_digits] in Hv.
  destruct ((48 <=? code c') && (code c' <=? 57)) eqn:Hc'; [|discriminate].
  pose proof (digit_code c' Hc') as H2.
  destruct (Ascii.eqb_spec c' "x") as [->|]; [unfold code in H2; cbn in H2; lia|].
  destruct (Ascii.eqb_spec c' "X") as [->|]; [unfold code in H2; cbn in H2; lia|].
  destruct (Ascii.eqb_spec c' "o") as [->|]; [unfold code in H2; cbn in H2; lia|].
  destruct (Ascii.eqb_spec c' "O") as [->|]; [unfold code in H2; cbn in H2; lia|].
  destruct (Ascii.eqb_spec c' "b") as [->|]; [unfold code in H2; cbn in H2; lia|].
  destruct (Ascii.eqb_spec c' "B") as [->|]; [unfold code in H2; cbn in H2; lia|].
  cbn [orb].
  assert (Hz : scan_digits 0 r' 0 0 = (0, 0, r')).
  { destruct r' as [|d r'']; [reflexivity|]. cbn [scan_digits]. unfold digit_of.
    match goal with |- context [if ?v <? 0 then _ else _] =>
      destruct (Z.ltb_spec v 0) as [Hv0|]; [|reflexivity] end.
    exfalso. revert Hv0.
    destruct ((48 <=? code d) && (code d <=? 57)) eqn:E1.
    { pose proof (digit_code d E1). lia. }
    destruct ((97 <=? code d) && (code d <=? 122)) eqn:E2.
    { apply andb_true_iff in E2. destruct E2 as [A B]. apply Z.leb_le in A, B. lia. }
    destruct ((65 <=? code d) && (code d <=? 90)) eqn:E3.
    { apply andb_true_iff in E3. destruct E3 as [A B]. apply Z.leb_le in A, B. lia. }
    lia. }
  rewrite Hz. reflexivity.
Qed.

Lemma StringToNumber_denotes (s : string) (n : Z) : denotes s n -> StringToNumber s = Z2F n.
Proof.
  intros Hd. pose proof (scan_unsigned_denotes s n Hd) as Hu.
  pose proof (scan_nondecimal_denotes s n Hd) as Hx.
  pose proof (denotes_nonneg s n Hd) as Hn.
  destruct (denotes_head s n Hd) as (c & r & -> & Hc).
  pose proof (digit_code c Hc) as Hcode.
  unfold StringToNumber. rewrite skip_ws_digit by assumption.
  rewrite Hx, scan_sign_digit, Hu by assumption. cbn [all_ws].
  rewrite decimal_value_int by lia. now rewrite Z.mul_1_r.
Qed.

Lemma denotes_not_empty (s : string) (n : Z) : denotes s n -> String.eqb s "" = false.
Proof. intros [H _]. now apply String.eqb_neq. Qed.

Lemma haemoglobin_digits (fd : Data) (s : string) (n : Z) :
  haemoglobin fd = Some s -> denotes s n -> n < 2 ^ 53 ->
  ToNumber (haemoglobin fd) = Z2F n /\
  haemoglobin_errors fd =
    if (n <? 20) || (180 <? n) then ["Haemoglobin must be between 20-180 g/L"] else [].
Proof.
  intros Hh Hd Hn. pose proof (denotes_nonneg s n Hd) as H0.
  unfold haemoglobin_errors. rewrite Hh. cbn [ToNumber ToBoolean ToString].
  rewrite (denotes_not_empty s n Hd). cbn [negb].
  rewrite (StringToNumber_denotes s n Hd), (parseFloat_denotes s n Hd).
  rewrite !(Z2F_ltb 1074 scale_ok) by lia. split; reflexivity.
Qed.

(** ** A form filled in as the page intends *)

Lemma Z2F_leb (a b : Z) :
  - 2 ^ 53 < a < 2 ^ 53 -> - 2 ^ 53 < b < 2 ^ 53 -> SFleb (Z2F a) (Z2F b) = (a <=? b).
Proof.
  intros Ha Hb. unfold SFleb, Z.leb. rewrite (Z2F_compare 1074 scale_ok) by assumption.
  destruct (a ?= b); reflexivity.
Qed.

Lemma count_field_not_empty (v : option string) (p : option Z) :
  count_field v p -> ToBoolean v = true.
Proof.
  intros [|s n Hd]; [reflexivity|]. cbn [ToBoolean].
  now rewrite (denotes_not_empty s n Hd).
Qed.

Lemma valid_form (env : Env) (f : FormData) (s hs : string) (y m d n : Z)
    (yes : bool) (p : option Z) :
  east_of_utc env -> time_value (env_now env) ->
  FormData_get f "dob" = Some s -> parse_date_only s = Some (y, m, d) ->
  0 <= age_on (local_today env) (y, m, d) <= 120 ->
  FormData_get f "anaemia" = Some (if yes then "yes" else "no") ->
  FormData_get f "haemoglobin" = Some hs -> denotes hs n -> 20 <= n <= 180 ->
  count_field (FormData_get f "parasite-count") p ->
  validateForm env (form_data env f) = [] /\
  validated (form_data env f) (age_on (local_today env) (y, m, d)) yes (Z2F n) p.
Proof.
  intros He Hn Hdob Hs Ha Han Hhb Hd Hr Hp.
  pose proof (calculateAge_east env He Hn s y m d Hs) as Hage.
  pose proof (parse_date_only_nonempty s y m d Hs) as Hne.
  split.
  - rewrite validateForm_fields.
    assert (E1 : dob_errors env (form_data env f) = []).
    { unfold dob_errors, form_data. cbn [dob]. rewrite Hdob. cbn [ToBoolean ToString].
      rewrite Hne. cbn [negb]. rewrite Hage.
      rewrite !(Z2F_ltb 1074 scale_ok) by lia.
      destruct (Z.ltb_spec (age_on (local_today env) (y, m, d)) 0); [lia|].
      destruct (Z.ltb_spec 120 (age_on (local_today env) (y, m, d))); [lia|]. reflexivity. }
    assert (E2 : anaemia_errors (form_data env f) = []).
    { unfold anaemia_errors, form_data. cbn [anaemia]. rewrite Han. destruct yes; reflexivity. }
    assert (E3 : haemoglobin_errors (form_data env f) = []).
    { rewrite (proj2 (haemoglobin_digits (form_data env f) hs n Hhb Hd ltac:(lia))).
      destruct (Z.ltb_spec n 20); [lia|]. destruct (Z.ltb_spec 180 n); [lia|]. reflexivity. }
    assert (E4 : parasite_errors (form_data env f) = []).
    { unfold parasite_errors, form_data. cbn [parasiteCount].
      now rewrite (count_field_not_empty _ _ Hp). }
    now rewrite E1, E2, E3, E4.
  - constructor; unfold form_data; cbn [age anaemia haemoglobin parasiteCount].
    + rewrite Hdob. cbn [ToBoolean ToString]. rewrite Hne. cbn [negb]. now rewrite Hage.
    + exact Ha.
    + exact Han.
    + exists hs. split; [exact Hhb|]. now apply StringToNumber_denotes.
    + rewrite !Z2F_leb by lia. split; apply Z.leb_le; lia.
    + exact Hp.
Qed.

(** ** The score against each field *)

Lemma age_part_mono (a1 a2 : Z) :
  5 <= a1 <= a2 -> a2 <= 65 -> SFleb (age_part a1) (age_part a2) = true.
Proof.
  intros H1 H2. unfold age_part.
  destruct (Z.ltb_spec a1 5); [lia|]. destruct (Z.ltb_spec 65 a1); [lia|].
  destruct (Z.ltb_spec a2 5); [lia|]. destruct (Z.ltb_spec 65 a2); [lia|].
  apply (mul_const_mono 1074 scale_ok lit_0_3 eq_refl eq_refl lit_0_3_pos);
    try apply Z2F_wf.
  rewrite Z2F_leb by lia. apply Z.leb_le. lia.
Qed.

Lemma total_mono_age (a1 a2 : Z) (yes : bool) (h : number) (p : option Z) :
  5 <= a1 <= a2 -> a2 <= 65 -> wf h -> is_nan h = false ->
  (forall n, p = Some n -> 0 <= n) ->
  SFleb (total a1 yes h p) (total a2 yes h p) = true.
Proof.
  intros H1 H2 Wh Nh Hp.
  destruct (age_part_ok a1 ltac:(lia)) as [Wa1 Na1].
  destruct (age_part_ok a2 ltac:(lia)) as [Wa2 Na2].
  destruct (anaemia_part_ok yes) as [Wb Nb].
  destruct (hb_part_ok h Wh Nh) as [Wc Nc].
  destruct (add_nonneg 1074 scale_ok _ _ Wa1 Wb Na1 Nb) as [Wab1 Nab1].
  destruct (add_nonneg 1074 scale_ok _ _ Wa2 Wb Na2 Nb) as [Wab2 Nab2].
  destruct (add_nonneg 1074 scale_ok _ _ Wab1 Wc Nab1 Nc) as [Wabc1 Nabc1].
  destruct (add_nonneg 1074 scale_ok _ _ Wab2 Wc Nab2 Nc) as [Wabc2 Nabc2].
  destruct (parasite_part_ok p Hp) as [Wp Np].
  unfold total. apply (add_mono 1074 scale_ok); try assumption.
  - apply (add_mono 1074 scale_ok); try assumption.
    + apply (add_mono 1074 scale_ok); try assumption.
      * now apply age_part_mono.
      * apply (SFleb_refl 1074 scale_ok); auto using nonneg_not_nan.
    + apply (SFleb_refl 1074 scale_ok); auto using nonneg_not_nan.
  - apply (SFleb_refl 1074 scale_ok); auto using nonneg_not_nan.
Qed.

Lemma total_mono_anaemia (a : Z) (h : number) (p : option Z) :
  0 <= a -> wf h -> is_nan h = false -> (forall n, p = Some n -> 0 <= n) ->
  SFleb (total a false h p) (total a true h p) = true.
Proof.
  intros Ha Wh Nh Hp.
  destruct (age_part_ok a Ha) as [Wa Na].
  destruct (anaemia_part_ok false) as [Wb1 Nb1].
  destruct (anaemia_part_ok true) as [Wb2 Nb2].
  destruct (hb_part_ok h Wh Nh) as [Wc Nc].
  destruct (add_nonneg 1074 scale_ok _ _ Wa Wb1 Na Nb1) as [Wab1 Nab1].
  destruct (add_nonneg 1074 scale_ok _ _ Wa Wb2 Na Nb2) as [Wab2 Nab2].
  destruct (add_nonneg 1074 scale_ok _ _ Wab1 Wc Nab1 Nc) as [Wabc1 Nabc1].
  destruct (add_nonneg 1074 scale_ok _ _ Wab2 Wc Nab2 Nc) as [Wabc2 Nabc2].
  destruct (parasite_part_ok p Hp) as [Wp Np].
  unfold total. apply (add_mono 1074 scale_ok); try assumption.
  - apply (add_mono 1074 scale_ok); try assumption.
    + apply (add_mono 1074 scale_ok); try assumption.
      apply (SFleb_refl 1074 scale_ok); auto using nonneg_not_nan.
    + apply (SFleb_refl 1074 scale_ok); auto using nonneg_not_nan.
  - apply (SFleb_refl 1074 scale_ok); auto using nonneg_not_nan.
Qed.

Lemma hb_part_above (h : number) :
  wf h -> SFleb (Z2F 150) h = true -> hb_part h = Z2F 0.
Proof.
  intros Wh Hh. destruct (SFleb_not_nan _ _ Hh) as [_ Nh].
  unfold hb_part.
  destruct (hb_scaled_ok h Wh Nh) as [Wx Nx].
  rewrite (Math_max_0 _ Nx).
  assert (Hle : SFleb (mul (sub (Z2F 150) h) lit_0_2) (Z2F 0) = true).
  { change (Z2F 0) with (mul (sub (Z2F 150) (Z2F 150)) lit_0_2).
    apply (mul_const_mono 1074 scale_ok lit_0_2 eq_refl eq_refl lit_0_2_pos).
    - apply (sub_const_not_nan 1074 scale_ok); auto; reflexivity.
    - reflexivity.
    - apply (sub_const_mono 1074 scale_ok); auto; reflexivity. }
  rewrite (SFleb_ord_b 1074 scale_ok) in Hle by auto using Z2F_wf, Z2F_not_nan.
  rewrite (SFltb_ord_b 1074 scale_ok) by auto using Z2F_wf, Z2F_not_nan.
  apply Z.leb_le in Hle.
  destruct (Z.ltb_spec (ord 1074 (Z2F 0)) (ord 1074 (mul (sub (Z2F 150) h) lit_0_2)));
    [lia|reflexivity].
Qed.

(** ** The listener for [input] and the accepted submission *)

Lemma input_label (env : Env) (s : string) (y m d : Z) (p : Page) :
  east_of_utc env -> time_value (env_now env) ->
  parse_date_only s = Some (y, m, d) ->
  on_dob_input env s p =
    if (0 <=? age_on (local_today env) (y, m, d))
       && (age_on (local_today env) (y, m, d) <=? 120)
    then on_dob_change env s p else p.
Proof.
  intros He Hn Hs. unfold on_dob_input, on_dob_change.
  rewrite (parse_date_only_nonempty s y m d Hs). cbn [negb].
  rewrite (calculateAge_east env He Hn s y m d Hs).
  destruct (parse_date_only_range s y m d Hs) as [Hy _].
  pose proof (age_on_bounds env y m d (east_within_a_day env He) Hn Hy).
  rewrite !Z2F_leb by lia. reflexivity.
Qed.


(** ** Further properties of the score *)

(** X4: whatever the fields hold, [calculateRisk] returns NaN or one of the
    numbers [n / 10] with [n] from 0 to 1000, never a number outside
    [[0, 100]]; it returns NaN exactly when the total before the clamp is
    NaN. The age is any Number value. *)
Theorem calculateRisk_nan_or_tenth (data : Data) :
  wf (number_of_field (age data)) ->
  (is_nan (raw_risk data) = true /\ calculateRisk data = NaN) \/
  (is_nan (raw_risk data) = false /\
   exists n, 0 <= n <= 1000 /\ calculateRisk data = tenth n).
Proof. apply calculateRisk_any. Qed.

Lemma calculateRisk_nan_or_tenth_witness :
  (is_nan (raw_risk (form_input 40 "no" "160" "0")) = true /\
   calculateRisk (form_input 40 "no" "160" "0") = NaN) \/
  (is_nan (raw_risk (form_input 40 "no" "160" "0")) = false /\
   exists n, 0 <= n <= 1000 /\ calculateRisk (form_input 40 "no" "160" "0") = tenth n).
Proof.
  exact (calculateRisk_nan_or_tenth (form_input 40 "no" "160" "0") eq_refl).
Defined.

(** X5: [calculateRisk] returns NaN when the age is NaN, when the
    haemoglobin field does not convert to a number, or when the parasite
    count is not the sentinel and [parseInt] finds no integer in it. *)
Theorem calculateRisk_nan_input (data : Data) :
  is_nan (number_of_field (age data)) = true \/
  is_nan (ToNumber (haemoglobin data)) = true \/
  (strict_eq (parasiteCount data) "not-available" = false /\
   is_nan (parseInt (ToString (parasiteCount data))) = true) ->
  calculateRisk data = NaN.
Proof.
  intros H. rewrite calculateRisk_raw, (raw_risk_nan data H). reflexivity.
Qed.

Lemma calculateRisk_nan_input_witness :
  calculateRisk (form_input 40 "no" "160" "many") = NaN.
Proof.
  apply (calculateRisk_nan_input (form_input 40 "no" "160" "many")).
  right. right. split; reflexivity.
Defined.

(** X6: on a validated input with a parasite count of 20 or more the
    score is 100: the total is 100 at least, whatever the other fields, and
    the clamp brings it down to 100. *)
Theorem calculateRisk_saturates
    (data : Data) (a : Z) (yes : bool) (h : number) (n : Z) :
  validated data a yes h (Some n) -> 20 <= n -> calculateRisk data = Z2F 100.
Proof.
  intros V Hn. destruct (validated_haemoglobin _ _ _ _ _ V) as (_ & Wh & Nh).
  pose proof (v_age_range _ _ _ _ _ V) as Ha.
  rewrite (calculateRisk_validated _ _ _ _ _ V). unfold score.
  destruct (total_saturated a yes h n ltac:(lia) Wh Nh Hn) as [Wt Ht].
  rewrite (clamp_above _ Wt Ht). reflexivity.
Qed.

Lemma validated_example_20 :
  validated (form_input 40 "no" "160" "20") 40 false (Z2F 160) (Some 20).
Proof.
  constructor; cbn [form_input age anaemia haemoglobin parasiteCount].
  - reflexivity.
  - lia.
  - reflexivity.
  - exists "160". split; reflexivity.
  - split; reflexivity.
  - constructor. split; [discriminate|reflexivity].
Defined.

Lemma calculateRisk_saturates_witness :
  calculateRisk (form_input 40 "no" "160" "20") = Z2F 100.
Proof.
  apply (calculateRisk_saturates _ _ _ _ _ validated_example_20). lia.
Defined.

(** ** Further properties of the age and of the validation *)

Lemma utc_minus_5_west (now : Z) : west_of_utc (utc_minus_5 now).
Proof. intros t. cbn. unfold msPerDay. lia. Qed.

Lemma march_2_2024_1am_time_value : time_value march_2_2024_1am.
Proof. unfold time_value. vm_compute. split; discriminate. Qed.

(** X7: where local time is behind UTC, by a day at most, [calculateAge] on
    a date [y]-[m]-[d] of the date input returns the age of a person born
    the day before: the difference of the years, less one exactly when
    today's local month and day come before those of the day before
    [y]-[m]-[d]. *)
Theorem calculateAge_west_of_utc (env : Env) (s : string) (y m d : Z) :
  west_of_utc env -> time_value (env_now env) ->
  parse_date_only s = Some (y, m, d) ->
  calculateAge env s = Z2F (age_on (local_today env) (day_before y m d)) /\
  (let '(y', m', d') := day_before y m d in
   calendar_date y' m' d' /\ MakeDay y' (m' - 1) d' = MakeDay y (m - 1) d - 1).
Proof.
  intros Hw Hn Hs. split; [now apply calculateAge_behind|].
  unfold day_before, date_of.
  destruct (date_of_valid ((MakeDay y (m - 1) d - 1) * msPerDay)) as [Hc Hd].
  split; [exact Hc|].
  replace (MonthFromTime ((MakeDay y (m - 1) d - 1) * msPerDay) + 1 - 1)
    with (MonthFromTime ((MakeDay y (m - 1) d - 1) * msPerDay)) by lia.
  rewrite Hd, <- (Z.add_0_r (_ * msPerDay)). apply Day_shift. unfold msPerDay. lia.
Qed.

Lemma calculateAge_west_of_utc_witness :
  calculateAge (utc_minus_5 march_2_2024_1am) "2000-03-02" =
    Z2F (age_on (local_today (utc_minus_5 march_2_2024_1am)) (day_before 2000 3 2)) /\
  (let '(y', m', d') := day_before 2000 3 2 in
   calendar_date y' m' d' /\ MakeDay y' (m' - 1) d' = MakeDay 2000 (3 - 1) 2 - 1).
Proof.
  exact (calculateAge_west_of_utc (utc_minus_5 march_2_2024_1am) "2000-03-02" 2000 3 2
           (utc_minus_5_west march_2_2024_1am) march_2_2024_1am_time_value eq_refl).
Defined.

(** X8: a date of birth that is not empty and that [Date] cannot read gets
    the age NaN and no message from [validateForm]; the score of an object
    with that age is NaN. *)
Theorem invalid_date_accepted (env : Env) (fd : Data) (s : string) :
  dob fd = Some s -> s <> "" -> Date_parse env s = None ->
  calculateAge env s = NaN /\
  dob_errors env fd = [] /\
  (age fd = Some (calculateAge env s) -> calculateRisk fd = NaN).
Proof.
  intros Hd Hs Hp. pose proof (calculateAge_invalid env s Hp) as Ha.
  split; [exact Ha|]. split.
  - unfold dob_errors. rewrite Hd. cbn [ToBoolean ToString].
    destruct (String.eqb_spec s ""); [contradiction|]. cbn [negb]. rewrite Ha. reflexivity.
  - intros Hage. rewrite calculateRisk_raw, (raw_risk_nan fd); [reflexivity|].
    left. rewrite Hage, Ha. reflexivity.
Qed.

Lemma invalid_date_accepted_witness :
  calculateAge (utc_env march_1_2024) "yesterday" = NaN /\
  dob_errors (utc_env march_1_2024)
    {| dob := Some "yesterday"; age := Some NaN; anaemia := Some "no";
       haemoglobin := Some "120"; parasiteCount := Some "0" |} = [] /\
  (Some NaN = Some (calculateAge (utc_env march_1_2024) "yesterday") ->
   calculateRisk
    {| dob := Some "yesterday"; age := Some NaN; anaemia := Some "no";
       haemoglobin := Some "120"; parasiteCount := Some "0" |} = NaN).
Proof.
  refine (invalid_date_accepted (utc_env march_1_2024)
    {| dob := Some "yesterday"; age := Some NaN; anaemia := Some "no";
       haemoglobin := Some "120"; parasiteCount := Some "0" |} "yesterday" eq_refl _ eq_refl).
  discriminate.
Defined.

(** X9: [validateForm] returns at most one message for each of the four
    fields, four at most: the two messages on the date of birth never come
    together. *)
Theorem validateForm_message_count (env : Env) (fd : Data) :
  (List.length (dob_errors env fd) <= 1)%nat /\
  (List.length (anaemia_errors fd) <= 1)%nat /\
  (List.length (haemoglobin_errors fd) <= 1)%nat /\
  (List.length (parasite_errors fd) <= 1)%nat /\
  (List.length (validateForm env fd) <= 4)%nat.
Proof.
  pose proof (dob_errors_length env fd) as H1.
  assert (H2 : (List.length (anaemia_errors fd) <= 1)%nat).
  { unfold anaemia_errors. destruct (negb _); cbn [List.length]; lia. }
  assert (H3 : (List.length (haemoglobin_errors fd) <= 1)%nat).
  { unfold haemoglobin_errors. destruct (negb _); [cbn [List.length]; lia|].
    destruct (_ || _); cbn [List.length]; lia. }
  assert (H4 : (List.length (parasite_errors fd) <= 1)%nat).
  { unfold parasite_errors. destruct (negb _); cbn [List.length]; lia. }
  repeat split; try assumption.
  rewrite validateForm_fields, !length_app. lia.
Qed.

(** ** The age as it is shown *)

(** X10: for an integer age, [formatAge] returns [1 year old] for 1 and
    otherwise the decimal numeral of the age, with its sign when negative,
    followed by [ years old]; the numeral of an age that is not negative
    reads back as the age with [parseInt]. *)
Theorem formatAge_integer (a : Z) :
  - 2 ^ 52 < a < 2 ^ 52 ->
  formatAge (Z2F a) =
    (if a =? 1 then "1 year old" else integer_string a ++ " years old") /\
  (0 <= a -> parseInt (integer_string a) = Z2F a).
Proof.
  intros Ha. split; [now apply formatAge_int|].
  intros Hp. unfold integer_string. destruct (Z.ltb_spec a 0); [lia|].
  apply parseInt_denotes, ZToString_denotes. assumption.
Qed.

Lemma formatAge_integer_witness :
  formatAge (Z2F 0) = "0 years old" /\ (0 <= 0 -> parseInt "0" = Z2F 0).
Proof. exact (formatAge_integer 0 ltac:(lia)). Defined.

(** X11: where local time is UTC or ahead of it by less than a day, the
    listener for [change] on the date input shows the calendar age of the
    date entered, in brackets, as [formatAge] gives it: also an age that is
    negative or above 120. *)
Theorem change_listener_shows_age (env : Env) (s : string) (y m d : Z) (p : Page) :
  east_of_utc env -> time_value (env_now env) ->
  parse_date_only s = Some (y, m, d) ->
  calculatedAge_textContent (on_dob_change env s p) =
    "(" ++ (if age_on (local_today env) (y, m, d) =? 1 then "1 year old"
            else integer_string (age_on (local_today env) (y, m, d)) ++ " years old")
        ++ ")" /\
  calculatedAge_display (on_dob_change env s p) = "block".
Proof. apply age_label. Qed.

Lemma change_listener_shows_age_witness :
  calculatedAge_textContent (on_dob_change (utc_env march_1_2024) "2024-03-02" blank_page)
    = "(-1 years old)" /\
  calculatedAge_display (on_dob_change (utc_env march_1_2024) "2024-03-02" blank_page)
    = "block".
Proof.
  exact (change_listener_shows_age (utc_env march_1_2024) "2024-03-02" 2024 3 2 blank_page
           (utc_env_east march_1_2024) march_1_2024_time_value eq_refl).
Defined.

(** X12: the listener for [change] after the listener for [input], on the
    same value and with the same clock, leaves the page as the listener
    for [change] alone does. *)
Theorem change_listener_after_input (env : Env) (value : string) (p : Page) :
  on_dob_change env value (on_dob_input env value p) = on_dob_change env value p.
Proof. apply change_after_input. Qed.

(** ** The submission *)

(** X13: [hideLoadingState] after [showLoadingState] leaves the page as
    [hideLoadingState] alone does, and as it was when the button was
    enabled and had no class [loading]. *)
Theorem loading_state_undone (p : Page) :
  hideLoadingState (showLoadingState p) = hideLoadingState p /\
  (~ In "loading" (submitBtn_classList p) -> submitBtn_disabled p = false ->
   hideLoadingState (showLoadingState p) = p).
Proof. split; [apply hide_after_show|apply hide_restores]. Qed.

Lemma loading_state_undone_witness :
  hideLoadingState (showLoadingState blank_page) = hideLoadingState blank_page /\
  (~ In "loading" (submitBtn_classList blank_page) ->
   submitBtn_disabled blank_page = false ->
   hideLoadingState (showLoadingState blank_page) = blank_page).
Proof. exact (loading_state_undone blank_page). Defined.

(** X14: when the listener for [submit] goes on after the timer, whatever
    the page and the object (its age any Number value), it leaves the
    button enabled and without the class [loading] and the result section
    with the class [active]; it shows [NaN%] as a high risk, or the
    numeral of [n / 10] with at most one decimal and a percent sign, [n]
    from 0 to 1000, with the class and the text of its tier: low below 20,
    moderate below 50, high from 50 on. *)
Theorem result_shown (data : Data) (p : Page) :
  wf (number_of_field (age data)) ->
  submitBtn_disabled (on_submit_resumed data p) = false /\
  ~ In "loading" (submitBtn_classList (on_submit_resumed data p)) /\
  In "active" (resultSection_classList (on_submit_resumed data p)) /\
  ((calculateRisk data = NaN /\
    riskPercentage_textContent (on_submit_resumed data p) = "NaN%" /\
    riskPercentage_className (on_submit_resumed data p) = "risk-percentage high-risk" /\
    riskInterpretation_textContent (on_submit_resumed data p) =
      "High risk - Immediate clinical attention required") \/
   (exists n, 0 <= n <= 1000 /\ calculateRisk data = tenth n /\
      riskPercentage_textContent (on_submit_resumed data p) = tenths_string n ++ "%" /\
      riskPercentage_className (on_submit_resumed data p) =
        "risk-percentage " ++ class (interpretation_of (tier_of_tenths n)) /\
      riskInterpretation_textContent (on_submit_resumed data p) =
        text (interpretation_of (tier_of_tenths n)))).
Proof.
  intros Ha. rewrite resumed_fields. page_fields.
  split; [reflexivity|]. split; [apply classList_remove_not_in|].
  split; [apply classList_add_in|].
  destruct (shown_result data Ha) as [(E & Es & Et)|(n & Hn & E & Es & Et)].
  - left. rewrite Es, Et. repeat split. exact E.
  - right. exists n. rewrite Es, Et. repeat split; try lia. exact E.
Qed.

Lemma result_shown_witness :
  submitBtn_disabled (on_submit_resumed (form_input 40 "no" "160" "0") blank_page) = false /\
  ~ In "loading"
      (submitBtn_classList (on_submit_resumed (form_input 40 "no" "160" "0") blank_page)) /\
  In "active"
     (resultSection_classList (on_submit_resumed (form_input 40 "no" "160" "0") blank_page)) /\
  ((calculateRisk (form_input 40 "no" "160" "0") = NaN /\
    riskPercentage_textContent (on_submit_resumed (form_input 40 "no" "160" "0") blank_page)
      = "NaN%" /\
    riskPercentage_className (on_submit_resumed (form_input 40 "no" "160" "0") blank_page)
      = "risk-percentage high-risk" /\
    riskInterpretation_textContent
      (on_submit_resumed (form_input 40 "no" "160" "0") blank_page) =
      "High risk - Immediate clinical attention required") \/
   (exists n, 0 <= n <= 1000 /\ calculateRisk (form_input 40 "no" "160" "0") = tenth n /\
      riskPercentage_textContent
        (on_submit_resumed (form_input 40 "no" "160" "0") blank_page) =
        tenths_string n ++ "%" /\
      riskPercentage_className
        (on_submit_resumed (form_input 40 "no" "160" "0") blank_page) =
        "risk-percentage " ++ class (interpretation_of (tier_of_tenths n)) /\
      riskInterpretation_textContent
        (on_submit_resumed (form_input 40 "no" "160" "0") blank_page) =
        text (interpretation_of (tier_of_tenths n)))).
Proof.
  exact (result_shown (form_input 40 "no" "160" "0") blank_page eq_refl).
Defined.

(** X15: when [validateForm] returns messages, the listener for [submit]
    stops after one alert and changes no element; the text of the alert
    has the heading, an empty line, and each message of [validateForm] on a
    line of its own, in order. *)
Theorem rejected_submission (env1 env2 : Env) (f : FormData) (p : Page) :
  validateForm env2 (form_data env1 f) <> [] ->
  exists message,
    on_submit env1 env2 f p = Returned (perform (Alert message) (perform PreventDefault p)) /\
    split "010" message =
      "Please correct the following errors:" :: "" ::
      validateForm env2 (form_data env1 f).
Proof.
  intros Hne.
  exists ("Please correct the following errors:" ++ LF ++ LF
          ++ join LF (validateForm env2 (form_data env1 f))).
  split.
  - unfold on_submit. destruct (validateForm env2 (form_data env1 f)) as [|e l];
      [congruence|].
    cbn [List.length Nat.ltb Nat.leb]. unfold showValidationErrors. reflexivity.
  - unfold LF.
    change ("Please correct the following errors:" ++ String "010" "" ++ String "010" ""
            ++ join (String "010" "") (validateForm env2 (form_data env1 f)))
      with ("Please correct the following errors:"
            ++ String "010" ("" ++ String "010"
                 (join (String "010" "") (validateForm env2 (form_data env1 f))))).
    rewrite !split_app by reflexivity.
    rewrite split_join; [reflexivity|assumption|].
    intros x Hx. apply (validateForm_messages env2 _ x Hx).
Qed.

Lemma rejected_submission_witness :
  exists message,
    on_submit (utc_env march_1_2024) (utc_env march_1_2024) [] blank_page =
      Returned (perform (Alert message) (perform PreventDefault blank_page)) /\
    split "010" message =
      "Please correct the following errors:" :: "" ::
      validateForm (utc_env march_1_2024) (form_data (utc_env march_1_2024) []).
Proof.
  apply (rejected_submission (utc_env march_1_2024) (utc_env march_1_2024) [] blank_page).
  discriminate.
Defined.

(** X16: the listener for [submit] reads the clock for the age of its
    object and [validateForm] reads it again; when both readings fall on
    the same local date, the listener does what it does with the first
    reading alone, so that the age scored is the age validated. *)
Theorem one_clock_reading (env : Env) (t1 t2 : Z) (f : FormData) (p : Page) :
  local_today (at_time env t1) = local_today (at_time env t2) ->
  on_submit (at_time env t1) (at_time env t2) f p =
  on_submit (at_time env t1) (at_time env t1) f p /\
  forall s, FormData_get f "dob" = Some s -> s <> "" ->
    age (form_data (at_time env t1) f) = Some (calculateAge (at_time env t2) s).
Proof.
  intros H. split.
  - unfold on_submit.
    replace (validateForm (at_time env t2) (form_data (at_time env t1) f))
      with (validateForm (at_time env t1) (form_data (at_time env t1) f)); [reflexivity|].
    rewrite !validateForm_fields. f_equal. unfold dob_errors.
    now rewrite (calculateAge_same_day env t1 t2 _ H).
  - intros s Hs Hne. unfold form_data. cbn [age]. rewrite Hs. cbn [ToBoolean ToString].
    destruct (String.eqb_spec s ""); [contradiction|]. cbn [negb].
    now rewrite (calculateAge_same_day env t1 t2 _ H).
Qed.

Lemma one_clock_reading_witness :
  on_submit (at_time (utc_env 0) march_1_2024) (at_time (utc_env 0) (march_1_2024 + 1500))
    [("dob", "2000-03-02")] blank_page =
  on_submit (at_time (utc_env 0) march_1_2024) (at_time (utc_env 0) march_1_2024)
    [("dob", "2000-03-02")] blank_page /\
  forall s, FormData_get [("dob", "2000-03-02")] "dob" = Some s -> s <> "" ->
    age (form_data (at_time (utc_env 0) march_1_2024) [("dob", "2000-03-02")]) =
      Some (calculateAge (at_time (utc_env 0) (march_1_2024 + 1500)) s).
Proof.
  exact (one_clock_reading (utc_env 0) march_1_2024 (march_1_2024 + 1500)
           [("dob", "2000-03-02")] blank_page eq_refl).
Defined.

(** ** The latest date that the page offers *)

(** X17: the listener for [DOMContentLoaded] sets the [max] of the date
    input to today's date in UTC, in the form that the date input gives
    back; where local time differs from UTC by a day at most and the
    offset has not decreased since midnight UTC, [calculateAge] gives that
    date the age 0 and [validateForm] has no message on it. The year is
    one of four digits. *)
Theorem max_date_accepted (env : Env) (p : Page) :
  offset_within_a_day env -> offset_not_decreased env -> time_value (env_now env) ->
  0 <= YearFromTime (env_now env) <= 9999 ->
  exists s,
    dobInput_max (on_DOMContentLoaded env p) = Some s /\
    parse_date_only s = Some (date_of (env_now env)) /\
    calculateAge env s = Z2F 0 /\
    forall fd, dob fd = Some s -> dob_errors env fd = [].
Proof.
  intros Ho Hd Hn Hy. exists (max_date (env_now env)).
  pose proof (max_date_parse (env_now env) Hy) as Hp.
  pose proof (max_date_age env Ho Hd Hn Hy) as Ha.
  split; [reflexivity|]. split; [exact Hp|]. split; [exact Ha|].
  intros fd Hf. unfold dob_errors. rewrite Hf. cbn [ToBoolean ToString].
  unfold date_of in Hp. rewrite (parse_date_only_nonempty _ _ _ _ Hp). cbn [negb].
  rewrite Ha. reflexivity.
Qed.

Lemma utc_minus_5_within_a_day (now : Z) : offset_within_a_day (utc_minus_5 now).
Proof. intros t. cbn. unfold msPerDay. lia. Qed.

Lemma max_date_accepted_witness :
  exists s,
    dobInput_max (on_DOMContentLoaded (utc_minus_5 march_2_2024_1am) blank_page) = Some s /\
    parse_date_only s = Some (date_of (env_now (utc_minus_5 march_2_2024_1am))) /\
    calculateAge (utc_minus_5 march_2_2024_1am) s = Z2F 0 /\
    forall fd, dob fd = Some s -> dob_errors (utc_minus_5 march_2_2024_1am) fd = [].
Proof.
  refine (max_date_accepted (utc_minus_5 march_2_2024_1am) blank_page
            (utc_minus_5_within_a_day _) _ march_2_2024_1am_time_value _).
  - unfold offset_not_decreased. cbn. lia.
  - vm_compute. split; discriminate.
Defined.

(** ** A form filled in as the page intends *)

(** X18: on a haemoglobin field made of decimal digits, [validateForm]
    gives its message on the range exactly when the number is below 20 or
    above 180, and [calculateRisk] works with the same number: [parseFloat]
    and the conversion to a number agree on such a field. *)
Theorem haemoglobin_digits_checked (fd : Data) (s : string) (n : Z) :
  haemoglobin fd = Some s -> denotes s n -> n < 2 ^ 53 ->
  ToNumber (haemoglobin fd) = Z2F n /\
  haemoglobin_errors fd =
    if (n <? 20) || (180 <? n) then ["Haemoglobin must be between 20-180 g/L"] else [].
Proof. apply haemoglobin_digits. Qed.

Lemma denotes_181 : denotes "181" 181.
Proof. split; [discriminate|reflexivity]. Qed.

Lemma haemoglobin_digits_checked_witness :
  ToNumber (haemoglobin (form_input 40 "no" "181" "0")) = Z2F 181 /\
  haemoglobin_errors (form_input 40 "no" "181" "0") =
    ["Haemoglobin must be between 20-180 g/L"].
Proof.
  exact (haemoglobin_digits_checked (form_input 40 "no" "181" "0") "181" 181
           eq_refl denotes_181 ltac:(lia)).
Defined.

(** X19: where local time is UTC or ahead of it by less than a day, a
    form with a date of birth from 0 to 120 years back, anaemia [yes] or
    [no], a haemoglobin of decimal digits from 20 to 180 and a parasite
    count that is the sentinel or decimal digits gets no message from
    [validateForm], and the object that the listener for [submit] builds
    from it is a validated input, with the calendar age: what is proved of
    validated inputs holds of what the page submits. *)
Theorem valid_form_validated (env : Env) (f : FormData) (s hs : string) (y m d n : Z)
    (yes : bool) (p : option Z) :
  east_of_utc env -> time_value (env_now env) ->
  FormData_get f "dob" = Some s -> parse_date_only s = Some (y, m, d) ->
  0 <= age_on (local_today env) (y, m, d) <= 120 ->
  FormData_get f "anaemia" = Some (if yes then "yes" else "no") ->
  FormData_get f "haemoglobin" = Some hs -> denotes hs n -> 20 <= n <= 180 ->
  count_field (FormData_get f "parasite-count") p ->
  validateForm env (form_data env f) = [] /\
  validated (form_data env f) (age_on (local_today env) (y, m, d)) yes (Z2F n) p.
Proof. apply valid_form. Qed.

Lemma denotes_120 : denotes "120" 120.
Proof. split; [discriminate|reflexivity]. Qed.

Lemma denotes_2 : denotes "2" 2.
Proof. split; [discriminate|reflexivity]. Qed.

Lemma example_age : 0 <= age_on (local_today (utc_env march_1_2024)) (1990, 5, 17) <= 120.
Proof. vm_compute. split; discriminate. Qed.

Lemma valid_form_validated_witness :
  validateForm (utc_env march_1_2024) (form_data (utc_env march_1_2024) example_form) = [] /\
  validated (form_data (utc_env march_1_2024) example_form)
    (age_on (local_today (utc_env march_1_2024)) (1990, 5, 17)) false (Z2F 120) (Some 2).
Proof.
  exact (valid_form_validated (utc_env march_1_2024) example_form "1990-05-17" "120"
           1990 5 17 120 false (Some 2)
           (utc_env_east march_1_2024) march_1_2024_time_value eq_refl eq_refl
           example_age eq_refl eq_refl denotes_120 ltac:(lia)
           (count_integer "2" 2 denotes_2)).
Defined.

(** ** The score against each field *)

(** X20: on validated inputs that differ in the age only, the score does
    not decrease when the age grows from 5 to 65, and it is the same for
    all ages below 5 and for all ages above 65. *)
Theorem calculateRisk_age
    (data1 data2 : Data) (a1 a2 : Z) (yes : bool) (h : number) (p : option Z) :
  validated data1 a1 yes h p -> validated data2 a2 yes h p ->
  (5 <= a1 <= a2 -> a2 <= 65 ->
   SFleb (calculateRisk data1) (calculateRisk data2) = true) /\
  (a1 < 5 -> a2 < 5 -> calculateRisk data1 = calculateRisk data2) /\
  (65 < a1 -> 65 < a2 -> calculateRisk data1 = calculateRisk data2).
Proof.
  intros V1 V2. destruct (validated_haemoglobin _ _ _ _ _ V1) as (_ & Wh & Nh).
  pose proof (v_age_range _ _ _ _ _ V1) as Ha1.
  pose proof (v_age_range _ _ _ _ _ V2) as Ha2.
  pose proof (validated_count _ _ _ _ _ V1) as Hp.
  rewrite (calculateRisk_validated _ _ _ _ _ V1), (calculateRisk_validated _ _ _ _ _ V2).
  repeat split.
  - intros H1 H2.
    destruct (total_ok a1 yes h p ltac:(lia) Wh Nh Hp) as [W1 N1].
    destruct (total_ok a2 yes h p ltac:(lia) Wh Nh Hp) as [W2 N2].
    apply round1_clamp_mono; try assumption. now apply total_mono_age.
  - intros H1 H2. unfold score, total, age_part.
    destruct (Z.ltb_spec a1 5); [|lia]. destruct (Z.ltb_spec a2 5); [|lia]. reflexivity.
  - intros H1 H2. unfold score, total, age_part.
    destruct (Z.ltb_spec a1 5); [lia|]. destruct (Z.ltb_spec a2 5); [lia|].
    destruct (Z.ltb_spec 65 a1); [|lia]. destruct (Z.ltb_spec 65 a2); [|lia]. reflexivity.
Qed.

Lemma validated_example_41 :
  validated (form_input 41 "no" "160" "0") 41 false (Z2F 160) (Some 0).
Proof.
  constructor; cbn [form_input age anaemia haemoglobin parasiteCount].
  - reflexivity.
  - lia.
  - reflexivity.
  - exists "160". split; reflexivity.
  - split; reflexivity.
  - constructor. split; [discriminate|reflexivity].
Defined.

Lemma calculateRisk_age_witness :
  (5 <= 40 <= 41 -> 41 <= 65 ->
   SFleb (calculateRisk (form_input 40 "no" "160" "0"))
         (calculateRisk (form_input 41 "no" "160" "0")) = true) /\
  (40 < 5 -> 41 < 5 ->
   calculateRisk (form_input 40 "no" "160" "0") =
   calculateRisk (form_input 41 "no" "160" "0")) /\
  (65 < 40 -> 65 < 41 ->
   calculateRisk (form_input 40 "no" "160" "0") =
   calculateRisk (form_input 41 "no" "160" "0")).
Proof.
  exact (calculateRisk_age _ _ _ _ _ _ _ validated_example validated_example_41).
Defined.

(** X21: on validated inputs that differ in the anaemia status only, the
    score with anaemia is not less than the score without. *)
Theorem calculateRisk_anaemia
    (data1 data2 : Data) (a : Z) (h : number) (p : option Z) :
  validated data1 a false h p -> validated data2 a true h p ->
  SFleb (calculateRisk data1) (calculateRisk data2) = true.
Proof.
  intros V1 V2. destruct (validated_haemoglobin _ _ _ _ _ V1) as (_ & Wh & Nh).
  pose proof (v_age_range _ _ _ _ _ V1) as Ha.
  pose proof (validated_count _ _ _ _ _ V1) as Hp.
  rewrite (calculateRisk_validated _ _ _ _ _ V1), (calculateRisk_validated _ _ _ _ _ V2).
  destruct (total_ok a false h p ltac:(lia) Wh Nh Hp) as [W1 N1].
  destruct (total_ok a true h p ltac:(lia) Wh Nh Hp) as [W2 N2].
  apply round1_clamp_mono; try assumption. apply total_mono_anaemia; auto; lia.
Qed.

Lemma validated_example_yes :
  validated (form_input 40 "yes" "160" "0") 40 true (Z2F 160) (Some 0).
Proof.
  constructor; cbn [form_input age anaemia haemoglobin parasiteCount].
  - reflexivity.
  - lia.
  - reflexivity.
  - exists "160". split; reflexivity.
  - split; reflexivity.
  - constructor. split; [discriminate|reflexivity].
Defined.

Lemma calculateRisk_anaemia_witness :
  SFleb (calculateRisk (form_input 40 "no" "160" "0"))
        (calculateRisk (form_input 40 "yes" "160" "0")) = true.
Proof.
  exact (calculateRisk_anaemia _ _ _ _ _ validated_example validated_example_yes).
Defined.

(** X22: on a validated input with a haemoglobin of 150 or more, the
    haemoglobin adds nothing: the score is the one with a haemoglobin of
    150. *)
Theorem haemoglobin_above_150
    (data : Data) (a : Z) (yes : bool) (h : number) (p : option Z) :
  validated data a yes h p -> SFleb (Z2F 150) h = true ->
  hb_part h = Z2F 0 /\ calculateRisk data = score a yes (Z2F 150) p.
Proof.
  intros V Hh. destruct (validated_haemoglobin _ _ _ _ _ V) as (_ & Wh & Nh).
  pose proof (hb_part_above h Wh Hh) as E. split; [exact E|].
  rewrite (calculateRisk_validated _ _ _ _ _ V). unfold score, total. rewrite E.
  reflexivity.
Qed.

Lemma haemoglobin_above_150_witness :
  hb_part (Z2F 160) = Z2F 0 /\
  calculateRisk (form_input 40 "no" "160" "0") = score 40 false (Z2F 150) (Some 0).
Proof.
  exact (haemoglobin_above_150 _ _ _ _ _ validated_example eq_refl).
Defined.

(** X23: on validated inputs that differ in the parasite count only, the
    sentinel gives the score of the count 0. *)
Theorem sentinel_counts_as_zero
    (data1 data2 : Data) (a : Z) (yes : bool) (h : number) :
  validated data1 a yes h None -> validated data2 a yes h (Some 0) ->
  calculateRisk data1 = calculateRisk data2.
Proof.
  intros V1 V2.
  rewrite (calculateRisk_validated _ _ _ _ _ V1), (calculateRisk_validated _ _ _ _ _ V2).
  reflexivity.
Qed.

Lemma validated_example_sentinel :
  validated (form_input 40 "no" "160" "not-available") 40 false (Z2F 160) None.
Proof.
  constructor; cbn [form_input age anaemia haemoglobin parasiteCount].
  - reflexivity.
  - lia.
  - reflexivity.
  - exists "160". split; reflexivity.
  - split; reflexivity.
  - constructor.
Defined.

Lemma sentinel_counts_as_zero_witness :
  calculateRisk (form_input 40 "no" "160" "not-available") =
  calculateRisk (form_input 40 "no" "160" "0").
Proof.
  exact (sentinel_counts_as_zero _ _ _ _ _ validated_example_sentinel validated_example).
Defined.

(** ** The listener for [input] and the accepted submission *)

(** X24: where local time is UTC or ahead of it by less than a day, the
    listener for [input] on the date input does what the listener for
    [change] does when the calendar age of the date entered is from 0 to
    120, and leaves the page as it is otherwise: a label shown before
    stays. *)
Theorem input_listener_range (env : Env) (s : string) (y m d : Z) (p : Page) :
  east_of_utc env -> time_value (env_now env) ->
  parse_date_only s = Some (y, m, d) ->
  on_dob_input env s p =
    if (0 <=? age_on (local_today env) (y, m, d))
       && (age_on (local_today env) (y, m, d) <=? 120)
    then on_dob_change env s p else p.
Proof. apply input_label. Qed.

Lemma input_listener_range_witness :
  on_dob_input (utc_env march_1_2024) "2024-03-02" blank_page = blank_page.
Proof.
  exact (input_listener_range (utc_env march_1_2024) "2024-03-02" 2024 3 2 blank_page
           (utc_env_east march_1_2024) march_1_2024_time_value eq_refl).
Defined.



(** ** The validator and the applicable messages *)

Lemma missing_ToBoolean (v : option string) : negb (ToBoolean v) = missing v.
Proof. destruct v as [s|]; [|reflexivity]. cbn [ToBoolean missing]. now rewrite negb_involutive. Qed.

Lemma dob_errors_east (env : Env) (fd : Data) :
  east_of_utc env -> time_value (env_now env) ->
  (missing (dob fd) = true \/
   exists birth, parse_date_only (ToString (dob fd)) = Some birth) ->
  dob_errors env fd =
    if missing (dob fd) then ["Date of birth is required"]
    else match parse_date_only (ToString (dob fd)) with
         | Some birth =>
             ((if age_on (local_today env) birth <? 0
               then ["Date of birth cannot be in the future"] else []) ++
              (if 120 <? age_on (local_today env) birth
               then ["Please check the date of birth - age seems unrealistic"] else []))%list
         | None => []
         end.
Proof.
  intros He Hn Hd. unfold dob_errors. rewrite missing_ToBoolean.
  destruct (missing (dob fd)) eqn:Hm; [reflexivity|].
  destruct Hd as [Hd|([[y m] d] & Hs)]; [discriminate|].
  rewrite Hs, (calculateAge_east env He Hn _ y m d Hs).
  destruct (parse_date_only_range _ y m d Hs) as [Hy _].
  destruct (local_date_bounds _ (local_today_bounds env He Hn)) as (HY & _).
  assert (Hb : - 400000 < age_on (local_today env) (y, m, d) < 400000).
  { unfold age_on, local_today. destruct (month_day_before _ _ _ _); lia. }
  rewrite !(Z2F_ltb 1074 scale_ok) by lia. reflexivity.
Qed.

Lemma haemoglobin_errors_digits (fd : Data) :
  (missing (haemoglobin fd) = true \/
   exists n, denotes (ToString (haemoglobin fd)) n /\ n < 2 ^ 53) ->
  haemoglobin_errors fd =
    if missing (haemoglobin fd) then ["Haemoglobin level is required"]
    else match decimal_digits (ToString (haemoglobin fd)) 0 with
         | Some n =>
             if (n <? 20) || (180 <? n)
             then ["Haemoglobin must be between 20-180 g/L"] else []
         | None => []
         end.
Proof.
  intros Hh. destruct (missing (haemoglobin fd)) eqn:Hm.
  - unfold haemoglobin_errors. now rewrite missing_ToBoolean, Hm.
  - destruct Hh as [Hh|(n & Hd & Hn)]; [discriminate|].
    destruct (haemoglobin fd) as [s|] eqn:Hs; [|discriminate].
    cbn [ToString] in *. destruct Hd as [Hne Hv]. rewrite Hv.
    apply (haemoglobin_digits fd s n Hs (conj Hne Hv) Hn).
Qed.

(** X26: where local time is UTC or ahead of it by less than a day, for a
    date of birth that is missing or a date of the date input, and a
    haemoglobin field that is missing or a whole number, [validateForm]
    returns the applicable messages, all of them and in the order of the
    fields, and leaves its input as it was; with a date of birth of an age
    from 0 to 120, a parasite count, and the anaemia and haemoglobin fields
    empty, these are the anaemia message and then the haemoglobin message. *)
Theorem validateForm_applicable (env : Env) (fd : Data) :
  east_of_utc env -> time_value (env_now env) ->
  (missing (dob fd) = true \/
   exists birth, parse_date_only (ToString (dob fd)) = Some birth) ->
  (missing (haemoglobin fd) = true \/
   exists n, denotes (ToString (haemoglobin fd)) n /\ n < 2 ^ 53) ->
  validateForm env fd = applicable_errors (local_today env) fd /\
  st_form (validateForm_run env fd) = fd /\
  (forall birth,
     missing (dob fd) = false -> parse_date_only (ToString (dob fd)) = Some birth ->
     0 <= age_on (local_today env) birth <= 120 ->
     missing (anaemia fd) = true -> missing (haemoglobin fd) = true ->
     missing (parasiteCount fd) = false ->
     validateForm env fd
     = ["Please select anaemia status"; "Haemoglobin level is required"]).
Proof.
  intros He Hn Hd Hh.
  assert (Hv : validateForm env fd = applicable_errors (local_today env) fd).
  { rewrite validateForm_fields, (dob_errors_east env fd He Hn Hd),
      (haemoglobin_errors_digits fd Hh).
    unfold applicable_errors, anaemia_errors, parasite_errors.
    now rewrite !missing_ToBoolean. }
  split; [exact Hv|]. split; [apply validateForm_keeps_input|].
  intros birth Hm Hs Ha Han Hhb Hp. rewrite Hv. unfold applicable_errors.
  rewrite Hm, Hs, Han, Hhb, Hp.
  destruct (Z.ltb_spec (age_on (local_today env) birth) 0); [lia|].
  destruct (Z.ltb_spec 120 (age_on (local_today env) birth)); [lia|]. reflexivity.
Qed.

Lemma validateForm_applicable_witness :
  validateForm (utc_env march_1_2024)
    {| dob := Some "1990-05-17"; age := None; anaemia := Some "";
       haemoglobin := Some ""; parasiteCount := Some "2" |}
  = ["Please select anaemia status"; "Haemoglobin level is required"].
Proof.
  exact (proj1 (validateForm_applicable (utc_env march_1_2024)
           {| dob := Some "1990-05-17"; age := None; anaemia := Some "";
              haemoglobin := Some ""; parasiteCount := Some "2" |}
           (utc_env_east march_1_2024) march_1_2024_time_value
           (or_intror (ex_intro _ (1990, 5, 17) eq_refl)) (or_introl eq_refl))).
Defined.

(** * Part IX: the score and the exact total *)

(** ** The error of one rounding *)

Lemma rne_error (M n : Z) :
  0 <= n -> 2 * Z.abs (rne M n * 2 ^ n - M) <= 2 ^ n.
Proof.
  intros Hn. unfold rne.
  pose proof (pow2_pos n Hn) as HP.
  pose proof (Z.div_mod M (2 ^ n) ltac:(lia)) as Hdm.
  pose proof (Z.mod_pos_bound M (2 ^ n) HP) as Hr.
  set (P := 2 ^ n) in *. set (q := M / P) in *. set (r := M mod P) in *.
  clearbody P q r.
  destruct (Z.compare_spec (2 * r) P) as [He|Hl|Hg].
  - destruct (Z.even q); nia.
  - nia.
  - nia.
Qed.

Section Error.

Variable K : Z.
Hypothesis HK : 1074 <= K.

Lemma rval_error (p : positive) (B : Z) :
  -1021 <= B -> Z.pos p < 2 ^ (B + K) ->
  2 * Z.abs (rval K p (- K) - Z.pos p) <= 2 ^ (B - 53 + K).
Proof.
  intros HB Hp. unfold rval. rewrite fexp_eq.
  pose proof (digits2_pos_bounds p) as (Hd & _).
  assert (Hdig : Z.pos (digits2_pos p) <= B + K).
  { destruct (Z_le_gt_dec (Z.pos (digits2_pos p)) (B + K)) as [|Hgt]; [assumption|].
    pose proof (pow2_le (B + K) (Z.pos (digits2_pos p) - 1) ltac:(lia)). lia. }
  set (E := Z.max (Z.pos (digits2_pos p) + - K - 53) (-1074)).
  assert (HE : -1074 <= E <= B - 53) by (unfold E; lia).
  pose proof (pow2_pos (B - 53 + K) ltac:(lia)) as Hpos.
  unfold round_grid. destruct (Z.leb_spec E (- K)) as [Hle|Hgt].
  - replace (- K - E) with 0 by lia. replace (E + K) with 0 by lia.
    change (2 ^ 0) with 1. rewrite !Z.mul_1_r, Z.sub_diag. cbn [Z.abs]. lia.
  - replace (E - - K) with (E + K) by lia.
    pose proof (rne_error (Z.pos p) (E + K) ltac:(lia)) as He.
    pose proof (pow2_le (E + K) (B - 53 + K) ltac:(lia)). lia.
Qed.

Lemma rnd_error (v B : Z) :
  -1021 <= B <= 1000 -> Z.abs v < 2 ^ (B + K) ->
  2 * Z.abs (rnd K K v - v) <= 2 ^ (B - 53 + K).
Proof.
  intros HB Hv.
  pose proof (pow2_pos (B - 53 + K) ltac:(lia)) as Hpos.
  assert (Hsat : forall p, Z.pos p < 2 ^ (B + K) ->
            Z.min (rval K p (- K)) (2 ^ (1024 + K)) = rval K p (- K)).
  { intros p Hp. pose proof (rval_error p B ltac:(lia) Hp) as He.
    pose proof (pow2_lt (B - 53 + K) (B + K) ltac:(lia)).
    pose proof (pow2_le (B + K + 1) (1024 + K) ltac:(lia)) as Hle.
    rewrite pow2_succ in Hle by lia. lia. }
  destruct v as [|p|p]; cbn [rnd].
  - rewrite Z.sub_diag. change (Z.abs 0) with 0. lia.
  - rewrite Hsat by lia. apply rval_error; lia.
  - rewrite Hsat by lia. pose proof (rval_error p B ltac:(lia) ltac:(lia)). lia.
Qed.

End Error.

(** ** The error of the operations *)

Section Steps.

Variable T : Z.
Hypothesis HT : 1074 <= T.

Lemma rnd_units (v B : Z) :
  3 <= B <= 60 -> Z.abs v < 2 ^ B * 2 ^ T ->
  2 * Z.abs (rnd T T v - v) <= 2 ^ (B - 3) * 2 ^ (T - 50).
Proof.
  intros HB Hv. rewrite <- pow2_add in Hv by lia.
  rewrite <- pow2_add by lia. replace (B - 3 + (T - 50)) with (B - 53 + T) by lia.
  apply (rnd_error T HT); [lia|assumption].
Qed.

Lemma finite_below (x : number) (B : Z) :
  0 <= B <= 1000 -> is_nan x = false -> Z.abs (ord T x) < 2 ^ B * 2 ^ T ->
  is_finite x = true.
Proof.
  intros HB Nx Hx. apply (finite_of_ord T); [assumption|].
  pose proof (pow2_mul_le B T (1024 + T) ltac:(lia) ltac:(lia) ltac:(lia)). lia.
Qed.

Lemma add_step (x y : number) (X Y ex ey B : Z) :
  wf x -> wf y -> is_finite x = true -> is_finite y = true ->
  Z.abs (10 * ord T x - X) <= ex * 2 ^ (T - 50) ->
  Z.abs (10 * ord T y - Y) <= ey * 2 ^ (T - 50) ->
  3 <= B <= 60 ->
  Z.abs (X + Y) + (ex + ey + 5 * 2 ^ (B - 3)) * 2 ^ (T - 50) < 10 * (2 ^ B * 2 ^ T) ->
  wf (add x y) /\ is_finite (add x y) = true /\
  Z.abs (10 * ord T (add x y) - (X + Y)) <= (ex + ey + 5 * 2 ^ (B - 3)) * 2 ^ (T - 50).
Proof.
  intros Wx Wy Fx Fy Hx Hy HB Hb.
  destruct (add_finite_ord T HT x y Wx Wy Fx Fy) as (W & N & Ho).
  pose proof (pow2_pos (T - 50) ltac:(lia)) as He.
  pose proof (pow2_pos (B - 3) ltac:(lia)) as Hp.
  assert (Hv : Z.abs (ord T x + ord T y) < 2 ^ B * 2 ^ T) by nia.
  pose proof (rnd_units _ B HB Hv) as Hr. rewrite <- Ho in Hr.
  assert (Hres : Z.abs (10 * ord T (add x y) - (X + Y))
                 <= (ex + ey + 5 * 2 ^ (B - 3)) * 2 ^ (T - 50)) by nia.
  repeat split; try assumption.
  apply (finite_below _ (B + 1)); [lia|assumption|].
  rewrite pow2_succ by lia. nia.
Qed.

End Steps.

Section Products.

Variable K : Z.
Hypothesis HK : 1074 <= K.

Lemma units :
  2 ^ (K + K) = 2 ^ K * 2 ^ K /\ 2 ^ K = 2 ^ 50 * 2 ^ (K - 50) /\
  2 ^ (K + K - 50) = 2 ^ K * 2 ^ (K - 50) /\ 0 < 2 ^ (K - 50).
Proof.
  repeat split.
  - apply pow2_add; lia.
  - rewrite <- pow2_add by lia. f_equal. lia.
  - rewrite <- pow2_add by lia. f_equal. lia.
  - apply pow2_pos. lia.
Qed.

Lemma mul_step (c : number) (C : Z) (x : number) (X ex xb B : Z) :
  wf c -> is_finite c = true -> 0 < ord K c ->
  Z.abs (10 * ord K c - C * 2 ^ K) * 2 ^ 51 <= 2 ^ K -> 0 <= C ->
  wf x -> is_finite x = true ->
  Z.abs (ord K x - X) <= ex * 2 ^ (K - 50) -> 0 <= ex <= 2 ^ 50 ->
  Z.abs X <= xb * 2 ^ K ->
  3 <= B <= 60 -> (xb + 1) * (C + 1) < 10 * 2 ^ B ->
  wf (mul x c) /\ is_finite (mul x c) = true /\
  Z.abs (10 * ord (K + K) (mul x c) - C * X * 2 ^ K)
    <= (xb + 1 + C * ex + 5 * 2 ^ (B - 3)) * 2 ^ (K + K - 50).
Proof.
  intros Wc Fc Pc Hc HC Wx Fx Hx Hex Hxb HB Hb.
  destruct (mul_const_ord K HK c Wc Fc Pc x Wx Fx) as (W & N & Ho).
  destruct units as (HU & Hu & HE & He).
  pose proof (pow2_pos (B - 3) ltac:(lia)) as Hp3.
  assert (HB3 : 2 ^ B = 8 * 2 ^ (B - 3)).
  { replace B with (3 + (B - 3)) at 1 by lia. rewrite pow2_add by lia. reflexivity. }
  assert (Hrnd : forall v, Z.abs v < 2 ^ B * 2 ^ (K + K) ->
            2 * Z.abs (rnd (K + K) (K + K) v - v) <= 2 ^ (B - 3) * 2 ^ (K + K - 50)).
  { intros v Hv. apply rnd_units; [lia|assumption|assumption]. }
  assert (Hfin : Z.abs (ord (K + K) (mul x c)) < 2 * 2 ^ B * 2 ^ (K + K) ->
            is_finite (mul x c) = true).
  { intros Hv. apply (finite_below (K + K) ltac:(lia) _ (B + 1)); [lia|assumption|].
    rewrite pow2_succ by lia. lia. }
  rewrite Ho in *. clear Ho.
  set (u := 2 ^ K) in *. set (e := 2 ^ (K - 50)) in *.
  set (U := 2 ^ (K + K)) in *. set (E := 2 ^ (K + K - 50)) in *.
  set (ox := ord K x) in *. set (oc := ord K c) in *.
  set (b := 2 ^ (B - 3)) in *. set (bb := 2 ^ B) in *.
  change (2 ^ 50) with 1125899906842624 in *.
  change (2 ^ 51) with 2251799813685248 in *.
  clearbody u e U E ox oc b bb.
  assert (Hupos : 0 < u) by (clear - Hu He; lia).
  assert (HEpos : 0 < E) by (rewrite HE; apply Z.mul_pos_pos; assumption).
  assert (HUpos : 0 < U) by (rewrite HU; apply Z.mul_pos_pos; assumption).
  assert (Hxe : ex * e <= u) by (clear - Hex Hu He; nia).
  assert (A1 : Z.abs ox <= (xb + 1) * u) by (clear - Hx Hxe Hxb; lia).
  assert (HCu : 0 <= C * u) by (apply Z.mul_nonneg_nonneg; lia).
  assert (A2 : 10 * Z.abs oc <= (C + 1) * u) by (clear - Hc HCu Pc; lia).
  assert (A3 : 10 * Z.abs (ox * oc) <= (xb + 1) * (C + 1) * U).
  { rewrite Z.abs_mul, HU.
    replace (10 * (Z.abs ox * Z.abs oc)) with (Z.abs ox * (10 * Z.abs oc)) by ring.
    replace ((xb + 1) * (C + 1) * (u * u)) with ((xb + 1) * u * ((C + 1) * u)) by ring.
    apply Z.mul_le_mono_nonneg; try assumption; [apply Z.abs_nonneg|].
    pose proof (Z.abs_nonneg oc). clear - H. lia. }
  assert (Hv : Z.abs (ox * oc) < bb * U) by (clear - A3 Hb HUpos; nia).
  pose proof (Hrnd _ Hv) as Hr.
  set (r := rnd (K + K) (K + K) (ox * oc)) in *. clearbody r.
  assert (A4 : Z.abs (ox * (10 * oc - C * u)) <= (xb + 1) * E).
  { rewrite Z.abs_mul.
    assert (Hm : Z.abs ox * (Z.abs (10 * oc - C * u) * 2251799813685248)
                 <= (xb + 1) * u * u).
    { apply Z.mul_le_mono_nonneg; try assumption; [apply Z.abs_nonneg|].
      pose proof (Z.abs_nonneg (10 * oc - C * u)) as H. clear - H. lia. }
    assert (Hxu : (xb + 1) * u * u = (xb + 1) * 1125899906842624 * E).
    { rewrite HE, Hu. ring. }
    rewrite Hxu in Hm.
    set (p := Z.abs ox * Z.abs (10 * oc - C * u)) in *.
    replace (Z.abs ox * (Z.abs (10 * oc - C * u) * 2251799813685248))
      with (p * 2251799813685248) in Hm by (unfold p; ring).
    assert (Hxb1 : 0 <= xb + 1).
    { pose proof (Z.abs_nonneg X) as HX. clear - Hxb HX Hupos. nia. }
    clearbody p. clear - Hm HEpos Hxb1. nia. }
  assert (A5 : Z.abs (C * u * (ox - X)) <= C * ex * E).
  { rewrite Z.abs_mul, (Z.abs_eq (C * u)) by assumption.
    rewrite HE. replace (C * ex * (u * e)) with (C * u * (ex * e)) by ring.
    apply Z.mul_le_mono_nonneg_l; assumption. }
  assert (Hres : Z.abs (10 * r - C * X * u) <= (xb + 1 + C * ex + 5 * b) * E).
  { replace (10 * r - C * X * u)
      with (10 * (r - ox * oc) + ox * (10 * oc - C * u) + C * u * (ox - X)) by ring.
    lia. }
  repeat split; try assumption.
  apply Hfin.
  assert (HbE : 0 < b * E) by (apply Z.mul_pos_pos; assumption).
  assert (HbU : bb * U = 9007199254740992 * (b * E)) by (rewrite HB3, HU, HE, Hu; ring).
  clear - Hr Hv HbE HbU. lia.
Qed.

End Products.

Section Parts.

Variable K : Z.
Hypothesis HK : 1074 <= K.

Lemma lit_0_3_error : Z.abs (10 * ord K lit_0_3 - 3 * 2 ^ K) * 2 ^ 51 <= 2 ^ K.
Proof.
  assert (Ho : ord K lit_0_3 = ord 1074 lit_0_3 * 2 ^ (K - 1074)).
  { rewrite <- (ord_shift 1074 scale_ok) by (lia || reflexivity). f_equal. lia. }
  assert (HP : 2 ^ K = 2 ^ 1074 * 2 ^ (K - 1074)).
  { rewrite <- pow2_add by lia. f_equal. lia. }
  assert (C : Z.abs (10 * ord 1074 lit_0_3 - 3 * 2 ^ 1074) * 2 ^ 51 <= 2 ^ 1074).
  { apply Z.leb_le. vm_compute. reflexivity. }
  pose proof (pow2_pos (K - 1074) ltac:(lia)) as HJ.
  rewrite Ho, HP.
  set (o := ord 1074 lit_0_3) in *. set (P := 2 ^ 1074) in *. set (J := 2 ^ (K - 1074)) in *.
  clearbody o P J. clear Ho HP.
  replace (10 * (o * J) - 3 * (P * J)) with ((10 * o - 3 * P) * J) by ring.
  rewrite Z.abs_mul, (Z.abs_eq J) by lia.
  replace (Z.abs (10 * o - 3 * P) * J * 2 ^ 51)
    with (Z.abs (10 * o - 3 * P) * 2 ^ 51 * J) by ring.
  apply Z.mul_le_mono_nonneg_r; [lia|assumption].
Qed.

Lemma lit_0_2_error : Z.abs (10 * ord K lit_0_2 - 2 * 2 ^ K) * 2 ^ 51 <= 2 ^ K.
Proof.
  assert (Ho : ord K lit_0_2 = ord 1074 lit_0_2 * 2 ^ (K - 1074)).
  { rewrite <- (ord_shift 1074 scale_ok) by (lia || reflexivity). f_equal. lia. }
  assert (HP : 2 ^ K = 2 ^ 1074 * 2 ^ (K - 1074)).
  { rewrite <- pow2_add by lia. f_equal. lia. }
  assert (C : Z.abs (10 * ord 1074 lit_0_2 - 2 * 2 ^ 1074) * 2 ^ 51 <= 2 ^ 1074).
  { apply Z.leb_le. vm_compute. reflexivity. }
  pose proof (pow2_pos (K - 1074) ltac:(lia)) as HJ.
  rewrite Ho, HP.
  set (o := ord 1074 lit_0_2) in *. set (P := 2 ^ 1074) in *. set (J := 2 ^ (K - 1074)) in *.
  clearbody o P J. clear Ho HP.
  replace (10 * (o * J) - 2 * (P * J)) with ((10 * o - 2 * P) * J) by ring.
  rewrite Z.abs_mul, (Z.abs_eq J) by lia.
  replace (Z.abs (10 * o - 2 * P) * J * 2 ^ 51)
    with (Z.abs (10 * o - 2 * P) * 2 ^ 51 * J) by ring.
  apply Z.mul_le_mono_nonneg_r; [lia|assumption].
Qed.

Lemma five_error : Z.abs (10 * ord K (Z2F 5) - 50 * 2 ^ K) * 2 ^ 51 <= 2 ^ K.
Proof.
  rewrite (ord_Z2F K HK) by lia. pose proof (pow2_pos K ltac:(lia)).
  replace (10 * (5 * 2 ^ K) - 50 * 2 ^ K) with 0 by ring. cbn [Z.abs Z.mul]. lia.
Qed.

Lemma age_error (a : Z) :
  0 <= a <= 120 ->
  wf (age_part a) /\ is_finite (age_part a) = true /\
  Z.abs (10 * ord (K + K) (age_part a) - tenths_age a * 2 ^ (K + K))
    <= 86 * 2 ^ (K + K - 50).
Proof.
  intros Ha. pose proof (pow2_pos (K + K - 50) ltac:(lia)) as HE.
  unfold age_part, tenths_age.
  destruct (Z.ltb_spec a 5); [|destruct (Z.ltb_spec 65 a)].
  - repeat split. rewrite (ord_Z2F (K + K)) by lia.
    replace (10 * (20 * 2 ^ (K + K)) - 200 * 2 ^ (K + K)) with 0 by ring.
    cbn [Z.abs]. lia.
  - repeat split. rewrite (ord_Z2F (K + K)) by lia.
    replace (10 * (15 * 2 ^ (K + K)) - 150 * 2 ^ (K + K)) with 0 by ring.
    cbn [Z.abs]. lia.
  - pose proof (pow2_pos K ltac:(lia)) as Hu.
    destruct (mul_step K HK lit_0_3 3 (Z2F a) (a * 2 ^ K) 0 65 5) as (W & F & He);
      try reflexivity; try lia.
    + apply (positive_ord K HK); reflexivity.
    + apply lit_0_3_error.
    + apply Z2F_wf.
    + apply (Z2F_finite K HK). lia.
    + rewrite (ord_Z2F K HK), Z.sub_diag by lia. cbn [Z.abs Z.mul]. lia.
    + rewrite Z.abs_eq by nia. nia.
    + destruct units with (K := K) as (HU & _); [assumption|].
      repeat split; try assumption.
      replace (3 * a * 2 ^ (K + K)) with (3 * (a * 2 ^ K) * 2 ^ K) by (rewrite HU; ring).
      change (2 ^ (5 - 3)) with 4 in He. lia.
Qed.

Lemma hb_error (h : number) :
  wf h -> is_finite h = true -> 20 * 2 ^ K <= ord K h <= 180 * 2 ^ K ->
  wf (hb_part h) /\ is_finite (hb_part h) = true /\
  Z.abs (10 * ord (K + K) (hb_part h) - 2 * Z.max 0 (150 * 2 ^ (K + K) - ord (K + K) h))
    <= 203 * 2 ^ (K + K - 50).
Proof.
  intros Wh Fh Hh.
  destruct (units K HK) as (HU & Hu & HE & He).
  pose proof (pow2_pos K ltac:(lia)) as Hupos.
  destruct (sub_finite_ord K HK (Z2F 150) h (Z2F_wf 150) Wh eq_refl Fh) as (Wd & Nd & Od).
  rewrite (ord_Z2F K HK) in Od by lia.
  assert (Hv : Z.abs (150 * 2 ^ K - ord K h) < 2 ^ 8 * 2 ^ K).
  { change (2 ^ 8) with 256. lia. }
  pose proof (rnd_units K HK _ 8 ltac:(lia) Hv) as Hr. rewrite <- Od in Hr.
  change (2 ^ (8 - 3)) with 32 in Hr.
  assert (Fd : is_finite (sub (Z2F 150) h) = true).
  { apply (finite_below K HK _ 9); [lia|assumption|]. change (2 ^ 9) with 512.
    change (2 ^ 50) with 1125899906842624 in Hu. lia. }
  destruct (mul_step K HK lit_0_2 2 (sub (Z2F 150) h) (150 * 2 ^ K - ord K h) 16 130 6)
    as (W & F & Hm); try reflexivity; try assumption; try lia.
  - apply (positive_ord K HK); reflexivity.
  - apply lit_0_2_error.
  - change (2 ^ (6 - 3)) with 8 in Hm.
    assert (Nm : is_nan (mul (sub (Z2F 150) h) lit_0_2) = false)
      by (apply finite_not_nan; assumption).
    destruct (max0_spec (K + K) ltac:(lia) _ W Nm) as (Wx & Nx & Ox).
    fold (hb_part h) in Wx, Nx, Ox.
    rewrite (ord_shift K HK K h) by (lia || assumption).
    assert (Hres : Z.abs (10 * ord (K + K) (hb_part h)
                          - 2 * Z.max 0 (150 * 2 ^ (K + K) - ord K h * 2 ^ K))
                   <= 203 * 2 ^ (K + K - 50)).
    { rewrite Ox, HU.
      replace (150 * (2 ^ K * 2 ^ K) - ord K h * 2 ^ K)
        with ((150 * 2 ^ K - ord K h) * 2 ^ K) by ring.
      replace (2 * (150 * 2 ^ K - ord K h) * 2 ^ K)
        with (2 * ((150 * 2 ^ K - ord K h) * 2 ^ K)) in Hm by ring.
      set (t := (150 * 2 ^ K - ord K h) * 2 ^ K) in *. clearbody t.
      set (m := ord (K + K) (mul (sub (Z2F 150) h) lit_0_2)) in *. clearbody m.
      clear - Hm. lia. }
    repeat split; try assumption.
    apply (finite_below (K + K) ltac:(lia) _ 9);
      [lia|apply nonneg_not_nan; assumption|].
    assert (Hb : 2 * Z.max 0 (150 * 2 ^ (K + K) - ord K h * 2 ^ K) <= 260 * 2 ^ (K + K)).
    { rewrite HU. clear - Hh Hupos. nia. }
    assert (HUE : 2 ^ (K + K) = 1125899906842624 * 2 ^ (K + K - 50)).
    { rewrite HU, HE, Hu. change (2 ^ 50) with 1125899906842624. ring. }
    assert (HEpos : 0 < 2 ^ (K + K - 50)) by (apply pow2_pos; lia).
    change (2 ^ 9) with 512.
    clear - Hres Hb HUE HEpos. lia.
Qed.

Lemma parasite_error (p : option Z) :
  (forall c, p = Some c -> 0 <= c <= 19) ->
  wf (parasite_part p) /\ is_finite (parasite_part p) = true /\
  Z.abs (10 * ord (K + K) (parasite_part p) - tenths_parasite p * 2 ^ (K + K))
    <= 100 * 2 ^ (K + K - 50).
Proof.
  intros Hp. pose proof (pow2_pos (K + K - 50) ltac:(lia)) as HE.
  destruct p as [c|]; cbn [parasite_part tenths_parasite].
  - specialize (Hp c eq_refl). pose proof (pow2_pos K ltac:(lia)) as Hu.
    destruct (mul_step K HK (Z2F 5) 50 (Z2F c) (c * 2 ^ K) 0 19 7) as (W & F & He);
      try reflexivity; try lia.
    + apply (positive_ord K HK); reflexivity.
    + apply five_error.
    + apply Z2F_wf.
    + apply (Z2F_finite K HK). lia.
    + rewrite (ord_Z2F K HK), Z.sub_diag by lia. cbn [Z.abs Z.mul]. lia.
    + rewrite Z.abs_eq by nia. nia.
    + destruct (units K HK) as (HU & _).
      repeat split; try assumption.
      replace (50 * c * 2 ^ (K + K)) with (50 * (c * 2 ^ K) * 2 ^ K) by (rewrite HU; ring).
      change (2 ^ (7 - 3)) with 16 in He. lia.
  - repeat split. change (ord (K + K) (Z2F 0)) with 0.
    replace (10 * 0 - 0 * 2 ^ (K + K)) with 0 by ring. change (Z.abs 0) with 0. lia.
Qed.

Lemma tenths_nonneg (a : Z) (yes : bool) (p : option Z) :
  0 <= a -> (forall c, p = Some c -> 0 <= c <= 19) ->
  0 <= tenths_age a + tenths_anaemia yes <= 450 /\ 0 <= tenths_parasite p <= 950.
Proof.
  intros Ha Hp. unfold tenths_age, tenths_anaemia, tenths_parasite.
  assert (0 <= match p with Some c => 50 * c | None => 0 end <= 950).
  { destruct p as [c|]; [specialize (Hp c eq_refl)|]; lia. }
  destruct (Z.ltb_spec a 5), (Z.ltb_spec 65 a), yes; lia.
Qed.

Lemma total_error (a : Z) (yes : bool) (h : number) (p : option Z) :
  0 <= a <= 120 -> wf h -> is_finite h = true ->
  20 * 2 ^ K <= ord K h <= 180 * 2 ^ K ->
  (forall c, p = Some c -> 0 <= c <= 19) ->
  wf (total a yes h p) /\ is_finite (total a yes h p) = true /\
  0 <= exact_units (K + K) a yes h p /\
  Z.abs (10 * ord (K + K) (total a yes h p) - exact_units (K + K) a yes h p)
    <= 669 * 2 ^ (K + K - 50).
Proof.
  intros Ha Wh Fh Hh Hp.
  destruct (units K HK) as (HU & Hu & HE & He).
  pose proof (pow2_pos K ltac:(lia)) as Hupos.
  assert (HUE : 2 ^ (K + K) = 1125899906842624 * 2 ^ (K + K - 50)).
  { rewrite HU, HE, Hu. change (2 ^ 50) with 1125899906842624. ring. }
  assert (HEpos : 0 < 2 ^ (K + K - 50)) by (apply pow2_pos; lia).
  destruct (age_error a Ha) as (W1 & F1 & E1).
  destruct (hb_error h Wh Fh Hh) as (W3 & F3 & E3).
  destruct (parasite_error p Hp) as (W4 & F4 & E4).
  destruct (tenths_nonneg a yes p ltac:(lia) Hp) as (T12 & T4).
  assert (E2 : Z.abs (10 * ord (K + K) (anaemia_part yes)
                      - tenths_anaemia yes * 2 ^ (K + K)) <= 0 * 2 ^ (K + K - 50)).
  { destruct yes; cbn [anaemia_part tenths_anaemia].
    - rewrite (ord_Z2F (K + K)) by lia.
      replace (10 * (25 * 2 ^ (K + K)) - 250 * 2 ^ (K + K)) with 0 by ring.
      change (Z.abs 0) with 0. lia.
    - change (ord (K + K) (Z2F 0)) with 0.
      replace (10 * 0 - 0 * 2 ^ (K + K)) with 0 by ring. change (Z.abs 0) with 0. lia. }
  assert (W2 : wf (anaemia_part yes)) by (destruct yes; reflexivity).
  assert (F2 : is_finite (anaemia_part yes) = true) by (destruct yes; reflexivity).
  assert (Hhb : 0 <= 2 * Z.max 0 (150 * 2 ^ (K + K) - ord (K + K) h) <= 260 * 2 ^ (K + K)).
  { rewrite (ord_shift K HK K h) by (lia || assumption). rewrite HU.
    clear - Hh Hupos. nia. }
  set (U := 2 ^ (K + K)) in *. set (E := 2 ^ (K + K - 50)) in *.
  set (hbx := 2 * Z.max 0 (150 * U - ord (K + K) h)) in *.
  assert (B12 : 0 <= (tenths_age a + tenths_anaemia yes) * U <= 450 * U).
  { clear - T12 HUE HEpos. nia. }
  assert (B4 : 0 <= tenths_parasite p * U <= 950 * U).
  { clear - T4 HUE HEpos. nia. }
  destruct (add_step (K + K) ltac:(lia) _ _ _ _ 86 0 6 W1 W2 F1 F2 E1 E2 ltac:(lia))
    as (W12 & F12 & E12).
  { fold U E. change (2 ^ (6 - 3)) with 8. change (2 ^ 6) with 64.
    rewrite <- Z.mul_add_distr_r. clear - B12 HUE HEpos. lia. }
  fold E in E12. change (2 ^ (6 - 3)) with 8 in E12.
  destruct (add_step (K + K) ltac:(lia) _ _ _ _ _ 203 7 W12 W3 F12 F3 E12 E3 ltac:(lia))
    as (W123 & F123 & E123).
  { fold U E hbx. change (2 ^ (7 - 3)) with 16. change (2 ^ 7) with 128.
    rewrite <- Z.mul_add_distr_r. clear - B12 Hhb HUE HEpos. lia. }
  fold U E hbx in E123. change (2 ^ (7 - 3)) with 16 in E123.
  destruct (add_step (K + K) ltac:(lia) _ _ _ _ _ 100 8 W123 W4 F123 F4 E123 E4 ltac:(lia))
    as (W & F & Et).
  { fold U E. change (2 ^ (8 - 3)) with 32. change (2 ^ 8) with 256.
    rewrite <- Z.mul_add_distr_r. clear - B12 B4 Hhb HUE HEpos. lia. }
  fold E in Et. change (2 ^ (8 - 3)) with 32 in Et.
  fold (total a yes h p) in W, F, Et.
  unfold exact_units. fold U hbx.
  replace ((tenths_age a + tenths_anaemia yes + tenths_parasite p) * U + hbx)
    with (tenths_age a * U + tenths_anaemia yes * U + hbx + tenths_parasite p * U)
    by ring.
  repeat split; try assumption.
  rewrite <- Z.mul_add_distr_r. clear - B12 B4 Hhb. lia.
Qed.

End Parts.

(** ** The error of the rounded score *)

Section Rounded.

Variable T : Z.
Hypothesis HT : 1074 <= T.

Lemma round_error (x : number) (XT e : Z) :
  wf x -> is_nan x = false -> 0 <= XT -> 0 <= e ->
  Z.abs (10 * ord T x - XT) <= e * 2 ^ (T - 50) ->
  exists n, 0 <= n <= 1000 /\ round1 (clamp x) = tenth n /\
    2 * Z.abs (n * 2 ^ T - Z.min (1000 * 2 ^ T) XT)
      <= 2 ^ T + (2 * e + 128) * 2 ^ (T - 50).
Proof.
  intros Wx Nx HXT He Hx.
  destruct (times_ten_clamp (T + T) ltac:(lia) x Wx Nx) as (Wy & Fy & Ny & Hn & Hr).
  destruct (clamp_spec T HT x Wx Nx) as (Wc & Nc & Fc & Oc).
  destruct (mul_const_ord T HT (Z2F 10) (Z2F_wf 10) (Z2F_finite T HT 10 ltac:(lia))
              (ten_pos T HT) (clamp x) Wc Fc) as (_ & _ & Oy).
  rewrite (ord_ten T HT) in Oy.
  destruct (units T HT) as (HW & Hu & HWE & HEpos).
  pose proof (pow2_pos T ltac:(lia)) as HUpos.
  exists (round_int (T + T) (mul (clamp x) (Z2F 10))).
  split; [exact Hn|]. split; [exact Hr|].
  unfold round_int in *.
  set (Y := ord (T + T) (mul (clamp x) (Z2F 10))) in *.
  assert (Hv : Z.abs (ord T (clamp x) * (10 * 2 ^ T)) < 2 ^ 10 * 2 ^ (T + T)).
  { rewrite Oc, HW. change (2 ^ 10) with 1024.
    set (U := 2 ^ T) in *. set (o := ord T x) in *. clearbody U o.
    assert (Hc : 0 <= Z.min (100 * U) (Z.max 0 o) <= 100 * U) by (clear - HUpos; lia).
    set (c := Z.min (100 * U) (Z.max 0 o)) in *. clearbody c.
    rewrite Z.abs_eq by (clear - Hc HUpos; nia).
    assert (c * (10 * U) <= 100 * U * (10 * U)).
    { apply Z.mul_le_mono_nonneg_r; lia. }
    assert (0 < U * U) by (apply Z.mul_pos_pos; assumption).
    clear - H H0. lia. }
  pose proof (rnd_units (T + T) ltac:(lia) _ 10 ltac:(lia) Hv) as Hrn.
  rewrite <- Oy in Hrn. change (2 ^ (10 - 3)) with 128 in Hrn.
  rewrite HWE in Hrn. rewrite pow2_succ by lia. rewrite HW in *.
  pose proof (Z.div_mod (2 * Y + 2 ^ T * 2 ^ T) (2 * (2 ^ T * 2 ^ T))
                ltac:(clear - HUpos; nia)) as Hdm.
  pose proof (Z.mod_pos_bound (2 * Y + 2 ^ T * 2 ^ T) (2 * (2 ^ T * 2 ^ T))
                ltac:(clear - HUpos; nia)) as Hmod.
  set (n := (2 * Y + 2 ^ T * 2 ^ T) / (2 * (2 ^ T * 2 ^ T))) in *.
  set (m := (2 * Y + 2 ^ T * 2 ^ T) mod (2 * (2 ^ T * 2 ^ T))) in *.
  set (U := 2 ^ T) in *. set (E := 2 ^ (T - 50)) in *.
  set (o := ord T x) in *. set (c := ord T (clamp x)) in *.
  clearbody n m U E o c Y.
  assert (Hup : (2 * n * U) * U <= (20 * c + 128 * E + U) * U).
  { clear - Hdm Hmod Hrn. lia. }
  assert (Hlo : (20 * c - 128 * E + U) * U < (2 * (n + 1) * U) * U).
  { clear - Hdm Hmod Hrn. lia. }
  apply Z.mul_le_mono_pos_r in Hup; [|assumption].
  apply Z.mul_lt_mono_pos_r in Hlo; [|assumption].
  clear - Hup Hlo Oc Hx HXT HUpos HEpos He. subst c. lia.
Qed.

End Rounded.

(** ** The score of a validated input, in units *)

Lemma validated_haemoglobin_units (K : Z) (h : number) :
  1074 <= K -> wf h -> SFleb (Z2F 20) h = true -> SFleb h (Z2F 180) = true ->
  is_finite h = true /\ 20 * 2 ^ K <= ord K h <= 180 * 2 ^ K.
Proof.
  intros HK Wh Hlo Hhi. destruct (SFleb_not_nan _ _ Hlo) as [_ Nh].
  assert (Hb : 20 * 2 ^ K <= ord K h <= 180 * 2 ^ K).
  { apply (SFleb_ord K) in Hlo; auto using Z2F_wf, Z2F_not_nan.
    apply (SFleb_ord K) in Hhi; auto using Z2F_wf, Z2F_not_nan.
    rewrite (ord_Z2F K HK) in Hlo, Hhi by lia. lia. }
  split; [|assumption].
  apply (finite_below K HK _ 8); [lia|assumption|].
  pose proof (pow2_pos K ltac:(lia)). change (2 ^ 8) with 256. lia.
Qed.

Lemma score_units (K a : Z) (yes : bool) (h : number) (p : option Z) :
  1074 <= K -> 0 <= a <= 120 -> wf h ->
  SFleb (Z2F 20) h = true -> SFleb h (Z2F 180) = true ->
  (forall c, p = Some c -> 0 <= c) ->
  exists n, 0 <= n <= 1000 /\ score a yes h p = tenth n /\
    2 * Z.abs (n * 2 ^ (K + K) - Z.min (1000 * 2 ^ (K + K)) (exact_units (K + K) a yes h p))
      <= 2 ^ (K + K) + 1466 * 2 ^ (K + K - 50).
Proof.
  intros HK Ha Wh Hlo Hhi Hp.
  destruct (validated_haemoglobin_units K h HK Wh Hlo Hhi) as [Fh Hh].
  pose proof (pow2_pos (K + K) ltac:(lia)) as HU.
  pose proof (pow2_pos (K + K - 50) ltac:(lia)) as HE.
  assert (Hsmall : (forall c, p = Some c -> 0 <= c <= 19) \/ exists c, p = Some c /\ 20 <= c).
  { destruct p as [c|].
    - destruct (Z_le_gt_dec c 19); [left|right].
      + intros c' [= <-]. specialize (Hp c eq_refl). lia.
      + exists c. split; [reflexivity|lia].
    - left. intros c [=]. }
  destruct Hsmall as [Hs|(c & -> & Hc)].
  - destruct (total_error K HK a yes h p Ha Wh Fh Hh Hs) as (Wt & Ft & Hx & He).
    destruct (round_error (K + K) ltac:(lia) _ _ 669 Wt (finite_not_nan _ Ft) Hx
                ltac:(lia) He) as (n & Hn & Hr & Hd).
    exists n. repeat split; try lia. exact Hr.
  - destruct (SFleb_not_nan _ _ Hlo) as [_ Nh].
    destruct (total_saturated a yes h c ltac:(lia) Wh Nh Hc) as [Wt Ht].
    exists 1000. split; [lia|]. split.
    + unfold score. rewrite (clamp_above _ Wt Ht). reflexivity.
    + assert (Hge : 1000 * 2 ^ (K + K) <= exact_units (K + K) a yes h (Some c)).
      { unfold exact_units, tenths_age, tenths_anaemia, tenths_parasite.
        set (U := 2 ^ (K + K)) in *. clearbody U.
        set (m := Z.max 0 (150 * U - ord (K + K) h)).
        assert (0 <= m) by (unfold m; lia). clearbody m.
        destruct (a <? 5), (65 <? a), yes; nia. }
      rewrite Z.min_l by assumption. rewrite Z.sub_diag. change (Z.abs 0) with 0. lia.
Qed.

(** ** Numbers and rationals *)

Lemma exact_value_units (K : Z) (x : number) :
  1074 <= K -> wf x -> is_finite x = true ->
  (exact_value x * inject_Z (2 ^ K) == inject_Z (ord K x))%Q.
Proof.
  intros HK Wx Fx. destruct x as [s|s| |s m e]; try discriminate.
  - cbn [exact_value ord]. ring.
  - pose proof (wf_finite_bounds s m e K Wx HK) as (He & _).
    cbn [exact_value ord].
    assert (Hc : cond_Zopp s (Z.pos m * 2 ^ (e + K)) = cond_Zopp s (Z.pos m) * 2 ^ (e + K)).
    { destruct s; cbn [cond_Zopp]; ring. }
    rewrite Hc, inject_Z_mult, !Zpower_Qpower by lia.
    rewrite Qpower_plus by discriminate.
    change (inject_Z 2) with 2%Q. ring.
Qed.

Lemma tenths_age_exact (a : Z) : (inject_Z (tenths_age a) == 10 * exact_age a)%Q.
Proof.
  unfold tenths_age, exact_age. destruct (a <? 5); [reflexivity|].
  destruct (65 <? a); [reflexivity|]. rewrite inject_Z_mult.
  change (inject_Z 3) with 3%Q. field.
Qed.

Lemma tenths_anaemia_exact (yes : bool) :
  (inject_Z (tenths_anaemia yes) == 10 * exact_anaemia yes)%Q.
Proof. destruct yes; reflexivity. Qed.

Lemma tenths_parasite_exact (p : option Z) :
  (inject_Z (tenths_parasite p) == 10 * exact_parasite p)%Q.
Proof.
  destruct p as [c|]; [|reflexivity]. cbn [tenths_parasite exact_parasite].
  rewrite inject_Z_mult. change (inject_Z 50) with 50%Q. ring.
Qed.

Lemma exact_haemoglobin_units (u h : Q) (U o : Z) :
  (0 < u)%Q -> u = inject_Z U -> (h * u == inject_Z o)%Q ->
  (inject_Z (2 * Z.max 0 (150 * U - o)) == 10 * exact_haemoglobin h * u)%Q.
Proof.
  intros Hu HU Hh. unfold exact_haemoglobin.
  destruct (Z.max_spec 0 (150 * U - o)) as [[Hlt ->]|[Hge ->]].
  - assert (Hq : (inject_Z o < 150 * u)%Q).
    { rewrite HU. change 150%Q with (inject_Z 150). rewrite <- inject_Z_mult.
      rewrite <- Zlt_Qlt. lia. }
    rewrite Q.max_r by nra.
    unfold Z.sub. rewrite inject_Z_mult, inject_Z_plus, inject_Z_opp, inject_Z_mult, <- HU.
    change (inject_Z 2) with 2%Q. change (inject_Z 150) with 150%Q.
    rewrite <- Hh. field.
  - assert (Hq : (150 * u <= inject_Z o)%Q).
    { rewrite HU. change 150%Q with (inject_Z 150). rewrite <- inject_Z_mult.
      rewrite <- Zle_Qle. lia. }
    rewrite Q.max_l by nra. change (inject_Z (2 * 0)) with 0%Q. ring.
Qed.

Lemma exact_units_total (K a : Z) (yes : bool) (h : number) (p : option Z) :
  1074 <= K -> wf h -> is_finite h = true ->
  (inject_Z (exact_units K a yes h p)
   == 10 * exact_total a yes (exact_value h) p * inject_Z (2 ^ K))%Q.
Proof.
  intros HK Wh Fh. unfold exact_units, exact_total.
  pose proof (exact_value_units K h HK Wh Fh) as Hh.
  assert (Hu : (0 < inject_Z (2 ^ K))%Q).
  { change 0%Q with (inject_Z 0). rewrite <- Zlt_Qlt. apply pow2_pos. lia. }
  rewrite inject_Z_plus, (exact_haemoglobin_units _ _ _ _ Hu eq_refl Hh).
  rewrite inject_Z_mult, !inject_Z_plus.
  rewrite tenths_age_exact, tenths_anaemia_exact, tenths_parasite_exact. ring.
Qed.

Lemma exact_clamp_inside (x : Q) : (0 <= x <= 100)%Q -> (exact_clamp x == x)%Q.
Proof.
  intros [H0 H1]. unfold exact_clamp. rewrite (Q.max_r 0 x) by assumption.
  now apply Q.min_r.
Qed.

Lemma exact_clamp_above (x : Q) : (100 <= x)%Q -> (exact_clamp x == 100)%Q.
Proof.
  intros H. unfold exact_clamp. rewrite (Q.max_r 0 x) by lra.
  now apply Q.min_l.
Qed.

Ltac push_inject H :=
  repeat (rewrite inject_Z_opp in H || rewrite inject_Z_plus in H
          || rewrite inject_Z_mult in H).

Lemma near_exact_clamp (n XT U E : Z) (S : Q) :
  0 < E -> U = 1125899906842624 * E -> 0 <= XT ->
  (inject_Z XT == 10 * S * inject_Z U)%Q ->
  2 * Z.abs (n * U - Z.min (1000 * U) XT) <= U + 1466 * E ->
  (Qabs (inject_Z n / 10 - exact_clamp S) <= (1 # 20) + tolerance)%Q.
Proof.
  intros HE HU HXT HS Hn.
  assert (He : (0 < inject_Z E)%Q).
  { change 0%Q with (inject_Z 0). now rewrite <- Zlt_Qlt. }
  assert (Hu : (inject_Z U == 1125899906842624 * inject_Z E)%Q).
  { rewrite HU, inject_Z_mult. reflexivity. }
  assert (Hx : (0 <= inject_Z XT)%Q).
  { change 0%Q with (inject_Z 0). now rewrite <- Zle_Qle. }
  assert (Hup : 2 * (n * U - Z.min (1000 * U) XT) <= U + 1466 * E) by lia.
  assert (Hlo : - (U + 1466 * E) <= 2 * (n * U - Z.min (1000 * U) XT)) by lia.
  clear Hn. unfold tolerance.
  destruct (Z.min_spec (1000 * U) XT) as [[Hlt Hm]|[Hge Hm]]; rewrite Hm in Hup, Hlo;
    clear Hm.
  - assert (Hc : (1000 * inject_Z U <= inject_Z XT)%Q).
    { change 1000%Q with (inject_Z 1000). rewrite <- inject_Z_mult, <- Zle_Qle. lia. }
    rewrite exact_clamp_above by nra.
    rewrite Zle_Qle in Hup, Hlo. unfold Z.sub in Hup, Hlo.
    push_inject Hup. push_inject Hlo.
    change (inject_Z 2) with 2%Q in *. change (inject_Z 1466) with 1466%Q in *.
    change (inject_Z 1000) with 1000%Q in *.
    set (nq := inject_Z n) in *. set (u := inject_Z U) in *. set (e := inject_Z E) in *.
    clearbody nq u e. clear - Hup Hlo Hu He.
    apply Qabs_Qle_condition. split.
    + apply (Qmult_le_r _ _ u); [lra|].
      unfold Qdiv. change (/ 10)%Q with (1 # 10)%Q. lra.
    + apply (Qmult_le_r _ _ u); [lra|].
      unfold Qdiv. change (/ 10)%Q with (1 # 10)%Q. lra.
  - assert (Hc : (inject_Z XT <= 1000 * inject_Z U)%Q).
    { change 1000%Q with (inject_Z 1000). rewrite <- inject_Z_mult, <- Zle_Qle. lia. }
    rewrite exact_clamp_inside by (split; nra).
    rewrite Zle_Qle in Hup, Hlo. unfold Z.sub in Hup, Hlo.
    push_inject Hup. push_inject Hlo.
    change (inject_Z 2) with 2%Q in *. change (inject_Z 1466) with 1466%Q in *.
    set (nq := inject_Z n) in *. set (u := inject_Z U) in *. set (e := inject_Z E) in *.
    set (xt := inject_Z XT) in *.
    clearbody nq u e xt. clear - Hup Hlo Hu He HS.
    apply Qabs_Qle_condition. split.
    + apply (Qmult_le_r _ _ u); [lra|].
      unfold Qdiv. change (/ 10)%Q with (1 # 10)%Q. lra.
    + apply (Qmult_le_r _ _ u); [lra|].
      unfold Qdiv. change (/ 10)%Q with (1 # 10)%Q. lra.
Qed.

(** ** The code against the exact total *)

Lemma exact_units_nonneg (K a : Z) (yes : bool) (h : number) (p : option Z) :
  0 <= K -> 0 <= a <= 120 -> (forall c, p = Some c -> 0 <= c) ->
  0 <= exact_units K a yes h p.
Proof.
  intros HK Ha Hp. unfold exact_units.
  apply Z.add_nonneg_nonneg; [apply Z.mul_nonneg_nonneg|lia].
  - unfold tenths_age, tenths_anaemia, tenths_parasite.
    assert (0 <= match p with Some c => 50 * c | None => 0 end).
    { destruct p as [c|]; [specialize (Hp c eq_refl)|]; lia. }
    destruct (a <? 5), (65 <? a), yes; lia.
  - apply Z.pow_nonneg. lia.
Qed.

Lemma calculateRisk_near_at (K : Z) (data : Data) (a : Z) (yes : bool) (h : number)
    (p : option Z) :
  1074 <= K -> validated data a yes h p ->
  exists n, 0 <= n <= 1000 /\ calculateRisk data = tenth n /\
    (Qabs (inject_Z n / 10 - exact_clamp (exact_total a yes (exact_value h) p))
     <= (1 # 20) + tolerance)%Q.
Proof.
  intros HK V. destruct (validated_haemoglobin _ _ _ _ _ V) as (_ & Wh & Nh).
  destruct (v_haemoglobin_range _ _ _ _ _ V) as [Hlo Hhi].
  destruct (validated_haemoglobin_units K h HK Wh Hlo Hhi) as [Fh _].
  destruct (score_units K a yes h p HK (v_age_range _ _ _ _ _ V) Wh Hlo Hhi
              (validated_count _ _ _ _ _ V)) as (n & Hn & Hs & Hd).
  exists n. split; [exact Hn|]. split.
  - rewrite (calculateRisk_validated _ _ _ _ _ V). exact Hs.
  - assert (HX : 0 <= exact_units (K + K) a yes h p).
    { apply exact_units_nonneg; [lia|apply (v_age_range _ _ _ _ _ V)|].
      apply (validated_count _ _ _ _ _ V). }
    assert (HE : 0 < 2 ^ (K + K - 50)) by (apply pow2_pos; lia).
    assert (HU : 2 ^ (K + K) = 1125899906842624 * 2 ^ (K + K - 50)).
    { change 1125899906842624 with (2 ^ 50). rewrite <- pow2_add by lia. f_equal. lia. }
    apply (near_exact_clamp n _ _ _ _ HE HU HX); [|exact Hd].
    apply exact_units_total; [lia|assumption|assumption].
Qed.

Lemma calculateRisk_near (data : Data) (a : Z) (yes : bool) (h : number) (p : option Z) :
  validated data a yes h p ->
  exists n, 0 <= n <= 1000 /\ calculateRisk data = tenth n /\
    (Qabs (inject_Z n / 10 - exact_clamp (exact_total a yes (exact_value h) p))
     <= (1 # 20) + tolerance)%Q.
Proof. apply (calculateRisk_near_at 1074). exact scale_ok. Qed.

Lemma nearest_tenth (n k : Z) (c : Q) :
  (Qabs (inject_Z n / 10 - c) <= (1 # 20) + tolerance)%Q ->
  (Qabs (inject_Z k / 10 - c) < (1 # 20) - tolerance)%Q -> n = k.
Proof.
  intros Hn Hk. apply Qabs_Qle_condition in Hn. apply Qabs_Qlt_condition in Hk.
  unfold tolerance, Qdiv in *. change (/ 10)%Q with (1 # 10)%Q in *.
  assert (H1 : (inject_Z (n - k) < inject_Z 1)%Q).
  { unfold Z.sub. rewrite inject_Z_plus, inject_Z_opp. change (inject_Z 1) with 1%Q. lra. }
  assert (H2 : (inject_Z (-1) < inject_Z (n - k))%Q).
  { unfold Z.sub. rewrite inject_Z_plus, inject_Z_opp. change (inject_Z (-1)) with (-1)%Q. lra. }
  rewrite <- Zlt_Qlt in H1, H2. lia.
Qed.

Lemma validated_tie :
  validated tie_input 18 true (StringToNumber "127.25") (Some 3).
Proof.
  constructor; cbn [tie_input form_input age anaemia haemoglobin parasiteCount].
  - reflexivity.
  - lia.
  - reflexivity.
  - exists "127.25". split; reflexivity.
  - split; vm_compute; reflexivity.
  - constructor. split; [discriminate|reflexivity].
Defined.

Lemma validated_half :
  validated half_input 5 false (StringToNumber "149.25") (Some 0).
Proof.
  constructor; cbn [half_input form_input age anaemia haemoglobin parasiteCount].
  - reflexivity.
  - lia.
  - reflexivity.
  - exists "149.25". split; reflexivity.
  - split; vm_compute; reflexivity.
  - constructor. split; [discriminate|reflexivity].
Qed.

(** C1 does not hold at every validated input.  On (18, yes, 127.25, 3) the
    exact total is 49.95, which both roundings to one decimal take to 50.0,
    the first score of the high tier; [calculateRisk] returns 49.9, a smaller
    number, of the moderate tier.  Nor is the result the rounding of the
    total that the code has computed: on (5, no, 149.25, 0) that Number is
    below 1.65, both roundings take it to 1.6, and [calculateRisk] returns
    1.7. *)
Lemma calculateRisk_below_tie :
  validated tie_input 18 true (StringToNumber "127.25") (Some 3) /\
  (exact_value (StringToNumber "127.25") == 12725 # 100)%Q /\
  (tie_total == 4995 # 100)%Q /\
  tenths_half_up (exact_clamp tie_total) = 500 /\
  tenths_half_even (exact_clamp tie_total) = 500 /\
  calculateRisk tie_input = tenth 499 /\
  SFltb (tenth 499) (tenth 500) = true /\
  getRiskInterpretation (calculateRisk tie_input) = interpretation_of Moderate /\
  getRiskInterpretation (tenth 500) = interpretation_of High /\
  validated half_input 5 false (StringToNumber "149.25") (Some 0) /\
  (exact_value (clamped_risk half_input) < 165 # 100)%Q /\
  tenths_half_up (exact_value (clamped_risk half_input)) = 16 /\
  tenths_half_even (exact_value (clamped_risk half_input)) = 16 /\
  calculateRisk half_input = tenth 17 /\
  SFltb (tenth 16) (tenth 17) = true.
Proof.
  split; [exact validated_tie|].
  do 8 (split; [vm_compute; reflexivity|]).
  split; [exact validated_half|].
  repeat split; vm_compute; reflexivity.
Qed.

(** C1, up to the error of binary arithmetic: on a validated input
    [calculateRisk] returns the Number [n / 10] of an integer [n] from 0 to
    1000, and [n / 10] is within [0.05 + 10^-13] of the exact total clamped
    to [[0, 100]]; so whenever the clamped exact total is nearer than
    [0.05 - 10^-13] to a multiple [k / 10] of 0.1, the result is that
    multiple: the rounding to one decimal, except next to a tie. *)
Theorem calculateRisk_near_exact (data : Data) (a : Z) (yes : bool) (h : number)
    (p : option Z) :
  validated data a yes h p ->
  (exists n, 0 <= n <= 1000 /\ calculateRisk data = tenth n /\
     (Qabs (inject_Z n / 10 - exact_clamp (exact_total a yes (exact_value h) p))
      <= (1 # 20) + tolerance)%Q) /\
  (forall k,
     (Qabs (inject_Z k / 10 - exact_clamp (exact_total a yes (exact_value h) p))
      < (1 # 20) - tolerance)%Q ->
     calculateRisk data = tenth k).
Proof.
  intros V. split; [exact (calculateRisk_near _ _ _ _ _ V)|].
  intros k Hk. destruct (calculateRisk_near _ _ _ _ _ V) as (n & _ & Hr & Hn).
  rewrite Hr. f_equal. exact (nearest_tenth n k _ Hn Hk).
Qed.

Lemma calculateRisk_near_exact_witness :
  validated (form_input 40 "no" "160" "0") 40 false (Z2F 160) (Some 0) /\
  (Qabs (inject_Z 120%Z / 10
         - exact_clamp (exact_total 40%Z false (exact_value (Z2F 160%Z)) (Some 0%Z)))
   < (1 # 20) - tolerance)%Q /\
  calculateRisk (form_input 40 "no" "160" "0") = tenth 120.
Proof.
  split; [exact validated_example|]. split; [vm_compute; reflexivity|].
  apply (proj2 (calculateRisk_near_exact _ _ _ _ _ validated_example)).
  vm_compute. reflexivity.
Defined.
